(** * GamessToExcelReaderV2: extraction and classification of GAMESS logs

    A shallow embedding of [GamessToExcelReaderV2.py] (the spreadsheet
    variant, which is the one Python keeps when both halves of the file are
    loaded: its definitions shadow the CSV variant's), together with the part
    of the Python library the script leans on: [str] as a sequence of Unicode
    code points, [re.search] / [re.findall] as a backtracking matcher,
    [str.split], [str.strip], [in], [float] and [pathlib]'s [stem].

    Layout: definitions first (Unicode tables, strings, the matcher, [float],
    the script's functions and its main loop), then the lemmas about the
    library model, then the properties of the script. *)

From Stdlib Require Import List NArith ZArith Bool Lia Ascii.
From Stdlib Require Strings.String.
Import String.StringSyntax.
From Stdlib Require Import Floats.SpecFloat.
Import ListNotations.
Local Open Scope string_scope.
Local Open Scope list_scope.
Local Open Scope nat_scope.

Set Implicit Arguments.

(* ===================================================================== *)
(** * Part I. Definitions                                                 *)
(* ===================================================================== *)

(** ** Text: a Python [str] is a sequence of Unicode code points *)

Definition char := N.
Definition text := list char.

(** [T "..."] is the text of an ASCII literal of the source. *)
Definition T (s : String.string) : text :=
  List.map N_of_ascii (String.list_ascii_of_string s).

Definition text_eqb (a b : text) : bool :=
  if list_eq_dec N.eq_dec a b then true else false.

Module Unicode.
Local Open Scope N_scope.

(** Code points for which [str.isspace] holds, which are also the ones
[\s] matches in a [str] pattern (Unicode 14, CPython 3.11). *)
Definition is_space (c : char) : bool :=
((9 <=? c) && (c <=? 13)) || ((28 <=? c) && (c <=? 32))
|| (c =? 133) || (c =? 160) || (c =? 5760)
|| ((8192 <=? c) && (c <=? 8202))
|| (c =? 8232) || (c =? 8233) || (c =? 8239) || (c =? 8287)
|| (c =? 12288).

(** The code point of digit zero of every block of general category Nd;
each block holds the ten digits 0..9 in order (Unicode 14). *)
Definition decimal_zeros : list N :=
[ 0x30; 0x660; 0x6f0; 0x7c0; 0x966; 0x9e6; 0xa66; 0xae6; 0xb66; 0xbe6;
0xc66; 0xce6; 0xd66; 0xde6; 0xe50; 0xed0; 0xf20; 0x1040; 0x1090;
0x17e0; 0x1810; 0x1946; 0x19d0; 0x1a80; 0x1a90; 0x1b50; 0x1bb0;
0x1c40; 0x1c50; 0xa620; 0xa8d0; 0xa900; 0xa9d0; 0xa9f0; 0xaa50;
0xabf0; 0xff10; 0x104a0; 0x10d30; 0x11066; 0x110f0; 0x11136; 0x111d0;
0x112f0; 0x11450; 0x114d0; 0x11650; 0x116c0; 0x11730; 0x118e0;
0x11950; 0x11c50; 0x11d50; 0x11da0; 0x16a60; 0x16ac0; 0x16b50;
0x1d7ce; 0x1d7d8; 0x1d7e2; 0x1d7ec; 0x1d7f6; 0x1e140; 0x1e2f0;
0x1e950; 0x1fbf0 ]%N.

Fixpoint decimal_in (zs : list N) (c : char) : option N :=
match zs with
| [] => None
| z :: zs' =>
  if (z <=? c) && (c <=? z + 9) then Some (c - z) else decimal_in zs' c
end.

(** [unicodedata.decimal]: the digit value of a code point of category
Nd, [None] for every other code point. *)
Definition decimal (c : char) : option N := decimal_in decimal_zeros c.

(** What [\d] matches in a [str] pattern. *)
Definition is_decimal (c : char) : bool :=
match decimal c with Some _ => true | None => false end.

(** [str.lower] on the code points whose image is an ASCII letter: the
ASCII capitals and KELVIN SIGN. (The other code points are left as
they are; the script only compares the result with an ASCII name.) *)
Definition lower (c : char) : char :=
if (65 <=? c) && (c <=? 90) then c + 32
else if c =? 0x212A then 107
else c.

End Unicode.

(** ** Python values, exceptions and results *)

Inductive pyval : Type :=
| PyNone
| PyStr (s : text)
| PyFloat (f : spec_float).

(** The classes of the exceptions; a class stands for its subclasses too
    ([UnicodeEncodeError] is a [ValueError]). *)
Inductive exn : Type :=
| ValueError
| TypeError
| AttributeError
| OSError.

Inductive result (A : Type) : Type :=
| Returns (a : A)
| Raises (e : exn).
Arguments Returns {A} a.
Arguments Raises {A} e.

Definition rbind {A B} (m : result A) (f : A -> result B) : result B :=
  match m with
  | Returns a => f a
  | Raises e => Raises e
  end.

(** [try: m  except Exception: h] *)
Definition try_except {A} (m : result A) (h : exn -> result A) : result A :=
  match m with
  | Returns a => Returns a
  | Raises e => h e
  end.

Declare Scope py_scope.
Delimit Scope py_scope with py.
Notation "x <- m ;; k" := (rbind m (fun x => k))
  (at level 61, m at next level, right associativity) : py_scope.
Notation "' p <- m ;; k" := (rbind m (fun x => match x with p => k end))
  (at level 61, p pattern, m at next level, right associativity) : py_scope.

Definition is_none (v : pyval) : bool :=
  match v with PyNone => true | _ => false end.

(** ** [str] methods *)

Module Str.

(** [sub in s] help: does [s] start with [p]? *)
Fixpoint startswith (p s : text) : bool :=
match p, s with
| [], _ => true
| _ :: _, [] => false
| a :: p', b :: s' => (a =? b)%N && startswith p' s'
end.

(** [s[len(p):]] when [s] starts with [p]. *)
Fixpoint strip_prefix (p s : text) : option text :=
match p, s with
| [], _ => Some s
| _ :: _, [] => None
| a :: p', b :: s' => if (a =? b)%N then strip_prefix p' s' else None
end.

(** [sub in s] *)
Fixpoint contains (sub s : text) : bool :=
startswith sub s ||
match s with
| [] => false
| _ :: s' => contains sub s'
end.

(** [s.find(sub)], [None] standing for -1. *)
Fixpoint find (sub s : text) : option nat :=
if startswith sub s then Some 0
else match s with
   | [] => None
   | _ :: s' => option_map S (find sub s')
   end.

Fixpoint dropwhile (p : char -> bool) (s : text) : text :=
match s with
| [] => []
| c :: s' => if p c then dropwhile p s' else s
end.

Definition lstrip (s : text) : text := dropwhile Unicode.is_space s.
Definition rstrip (s : text) : text := rev (dropwhile Unicode.is_space (rev s)).

(** [s.strip()] *)
Definition strip (s : text) : text := rstrip (lstrip s).

(** [s.split(sep, maxsplit)] for a separator of one character;
[maxsplit = None] is the call without the second argument. *)
Fixpoint split (sep : char) (maxsplit : option nat) (s : text) : list text :=
match s with
| [] => [[]]
| c :: s' =>
  if (c =? sep)%N then
    match maxsplit with
    | Some 0 => [s]
    | Some (S n) => [] :: split sep (Some n) s'
    | None => [] :: split sep None s'
    end
  else
    match split sep maxsplit s' with
    | piece :: pieces => (c :: piece) :: pieces
    | [] => [[c]]
    end
end.

(** [sep.join(pieces)] for a separator of one character. *)
Fixpoint join (sep : char) (pieces : list text) : text :=
match pieces with
| [] => []
| [p] => p
| p :: ps => p ++ sep :: join sep ps
end.

(** [s.rfind(c)]: index of the last [c]. *)
Fixpoint rfind_from (c : char) (i : nat) (best : option nat) (s : text)
: option nat :=
match s with
| [] => best
| x :: s' => rfind_from c (S i) (if (x =? c)%N then Some i else best) s'
end.

Definition rfind (c : char) (s : text) : option nat := rfind_from c 0 None s.

(** [s.lower()], see [Unicode.lower]. *)
Definition lower (s : text) : text := List.map Unicode.lower s.

End Str.

(** [PurePath(name).stem] (pathlib of CPython 3.11): the name without its
    last suffix; a leading dot or a trailing dot starts no suffix. *)
Definition stem (name : text) : text :=
  match Str.rfind 46%N name with
  | Some i =>
      if (0 <? i)%nat && (i <? length name - 1)%nat then firstn i name
      else name
  | None => name
  end.

(** ** [re]: patterns and the backtracking matcher *)

Module Re.

(** A set of characters: one item of a pattern that consumes one
character. *)
Inductive cclass : Type :=
| CChar (c : char)              (* a literal character *)
| CDot (dotall : bool)          (* .   ([dotall]: under re.DOTALL) *)
| CSpace                        (* \s *)
| CDigit                        (* \d *)
| CRange (lo hi : char).        (* [lo-hi] *)

Definition cmatch (k : cclass) (c : char) : bool :=
match k with
| CChar a => (c =? a)%N
| CDot dotall => dotall || negb (c =? 10)%N
| CSpace => Unicode.is_space c
| CDigit => Unicode.is_decimal c
| CRange lo hi => (lo <=? c)%N && (c <=? hi)%N
end.

Inductive greed : Type := Greedy | Lazy.

(** The patterns of the script: literals, repetitions of one character
class ([k*], [k+], [k*?]), optional characters, numbered groups,
sequences and [$]. *)
Inductive regex : Type :=
| RLit (s : text)
| RRep (k : cclass) (atleast : nat) (g : greed)
| ROpt (k : cclass)
| RGroup (i : nat) (r : regex)
| RSeq (r1 r2 : regex)
| REol (multiline : bool).

(** The groups closed so far, latest first. *)
Definition captures := list (nat * text).

(** [$]: at the end of the text or, under re.MULTILINE, before any
newline (without the flag, only before a newline that ends the
text). *)
Definition at_eol (multiline : bool) (s : text) : bool :=
match s with
| [] => true
| c :: s' =>
  (c =? 10)%N && (multiline || match s' with [] => true | _ => false end)
end.

Section Matcher.
Variable A : Type.

(** [k{n,}]: as many characters as possible first, giving them back one
at a time while the rest of the pattern ([cont]) fails. *)
Fixpoint rep_greedy (k : cclass) (n : nat) (s : text)
 (cont : text -> option A) : option A :=
match s with
| c :: s' =>
if cmatch k c then
match rep_greedy k (pred n) s' cont with
| Some a => Some a
| None => match n with 0 => cont s | S _ => None end
end
else match n with 0 => cont s | S _ => None end
| [] => match n with 0 => cont s | S _ => None end
end.

(** [k{n,}?]: as few characters as possible first, taking one more
while the rest of the pattern fails. *)
Fixpoint rep_lazy (k : cclass) (n : nat) (s : text)
 (cont : text -> option A) : option A :=
let more :=
fun n' => match s with
      | c :: s' => if cmatch k c then rep_lazy k n' s' cont else None
      | [] => None
      end in
match n with
| 0 => match cont s with
 | Some a => Some a
 | None => more 0
 end
| S n' => more n'
end.

(** [run r s gs cont]: match [r] at the start of [s], then the rest of
the pattern, [cont], on what is left; the first success in the
order in which the backtracking matcher tries the choices. *)
Fixpoint run (r : regex) (s : text) (gs : captures)
 (cont : text -> captures -> option A) : option A :=
match r with
| RLit l =>
match Str.strip_prefix l s with
| Some s' => cont s' gs
| None => None
end
| RRep k n Greedy => rep_greedy k n s (fun s' => cont s' gs)
| RRep k n Lazy => rep_lazy k n s (fun s' => cont s' gs)
| ROpt k =>
match s with
| c :: s' =>
  if cmatch k c then
    match cont s' gs with
    | Some a => Some a
    | None => cont s gs
    end
  else cont s gs
| [] => cont s gs
end
| RGroup i r1 =>
run r1 s gs
  (fun s' gs' => cont s' ((i, firstn (length s - length s') s) :: gs'))
| RSeq r1 r2 => run r1 s gs (fun s' gs' => run r2 s' gs' cont)
| REol m => if at_eol m s then cont s gs else None
end.
End Matcher.

(** A match object: the groups and the text after the match. *)
Record match_obj : Type := MatchObj { groups : captures; after : text }.

(** [pattern.match(s)] at the start of [s]. [nonempty] asks for a match
of at least one character. *)
Definition match_at (nonempty : bool) (r : regex) (s : text) : option match_obj :=
run r s []
  (fun s' gs =>
     if nonempty && (length s' =? length s)%nat then None
     else Some (MatchObj gs s')).

(** [re.search(r, s)]: the match at the leftmost position that has
one. *)
Fixpoint search (r : regex) (s : text) : option match_obj :=
match match_at false r s with
| Some m => Some m
| None => match s with
        | [] => None
        | _ :: s' => search r s'
        end
end.

(** [m.group(i)]: [None] when group [i] took no part in the match. *)
Fixpoint lookup (i : nat) (gs : captures) : pyval :=
match gs with
| [] => PyNone
| (j, t) :: gs' => if (i =? j)%nat then PyStr t else lookup i gs'
end.

Definition group (m : match_obj) (i : nat) : pyval := lookup i (groups m).

(** [re.findall(r, s)] for a pattern with one group: the group of every
match, left to right, each search starting where the previous match
ended; after an empty match the next one at the same place must not
be empty. [skip] counts the characters still inside the previous
match. *)
Fixpoint findall_from (r : regex) (skip : nat) (s : text) : list pyval :=
let next := fun (m : match_obj) =>
            match s with
            | [] => []
            | _ :: s' =>
                findall_from r (length s - length (after m) - 1) s'
            end in
match skip with
| S n => match s with
       | [] => []
       | _ :: s' => findall_from r n s'
       end
| 0 =>
  match match_at false r s with
  | None => match s with
            | [] => []
            | _ :: s' => findall_from r 0 s'
            end
  | Some m =>
      if (length (after m) =? length s)%nat then
        group m 1 ::
        match match_at true r s with
        | Some m' => group m' 1 :: next m'
        | None => match s with
                  | [] => []
                  | _ :: s' => findall_from r 0 s'
                  end
        end
      else group m 1 :: next m
  end
end.

Definition findall (r : regex) (s : text) : list pyval := findall_from r 0 s.

(** What a pattern means, apart from the order in which the matcher
tries its choices: [denote r s gs s' gs'] when [r] can consume the
start of [s] up to [s'], taking the groups from [gs] to [gs']. *)
Fixpoint denote (r : regex) (s : text) (gs : captures) (s' : text)
     (gs' : captures) : Prop :=
match r with
| RLit l => s = l ++ s' /\ gs' = gs
| RRep k n _ =>
  exists w, s = w ++ s' /\ forallb (cmatch k) w = true
            /\ n <= length w /\ gs' = gs
| ROpt k =>
  (s = s' \/ exists c, s = c :: s' /\ cmatch k c = true) /\ gs' = gs
| RGroup i r1 =>
  exists g gs1, s = g ++ s' /\ denote r1 s gs s' gs1
                /\ gs' = (i, g) :: gs1
| RSeq r1 r2 =>
  exists s1 gs1, denote r1 s gs s1 gs1 /\ denote r2 s1 gs1 s' gs'
| REol m => s' = s /\ gs' = gs /\ at_eol m s = true
end.

(** The matcher succeeds, with a result that has property [P]. *)
Definition yields {A : Type} (P : A -> Prop) (o : option A) : Prop :=
exists a, o = Some a /\ P a.

End Re.

(** ** [float(str)] *)

Module Float.
Local Open Scope N_scope.

(** binary64 *)
Definition prec : Z := 53.
Definition emax : Z := 1024.

(** The binary64 value nearest to [(-1)^neg * m * 10^e], ties to even
(the rounding of [strtod]); too large a value is an infinity. *)
Definition of_decimal (neg : bool) (m : N) (e : Z) : spec_float :=
match m with
| N0 => S754_zero neg
| Npos p =>
  match e with
  | Zneg k =>
      SFdiv prec emax (S754_finite neg p 0)
            (S754_finite false (Pos.pow 10 k) 0)
  | _ =>
      binary_normalize prec emax
        (cond_Zopp neg (Zpos p * Z.pow 10 e)%Z) 0 neg
  end
end.

Definition is_ascii_digit (c : char) : bool := (48 <=? c) && (c <=? 57).

(** The C locale's [isspace], used to trim the text once it is ASCII. *)
Definition is_ascii_space (c : char) : bool :=
((9 <=? c) && (c <=? 13)) || (c =? 32).

(** First pass of [float(str)]: every decimal digit becomes its ASCII
digit and every space beyond ASCII a blank; any other character
beyond ASCII becomes [?] and ends the text. *)
Fixpoint to_ascii (s : text) : text :=
match s with
| [] => []
| c :: s' =>
  if c <? 128 then c :: to_ascii s'
  else if Unicode.is_space c then 32 :: to_ascii s'
  else match Unicode.decimal c with
       | Some d => (48 + d) :: to_ascii s'
       | None => [63]
       end
end.

Definition trim (s : text) : text :=
rev (Str.dropwhile is_ascii_space (rev (Str.dropwhile is_ascii_space s))).

(** An underscore stands only between two digits ([prev] is the
character before [s], 0 at the start). *)
Fixpoint underscores_ok (prev : char) (s : text) : bool :=
match s with
| [] => negb (prev =? 95)
| c :: s' =>
  (if c =? 95 then is_ascii_digit prev
   else negb (prev =? 95) || is_ascii_digit c)
  && underscores_ok c s'
end.

Definition drop_underscores (s : text) : text :=
filter (fun c => negb (c =? 95)) s.

Fixpoint span_digits (s : text) : text * text :=
match s with
| c :: s' =>
  if is_ascii_digit c then
    let (ds, rest) := span_digits s' in (c :: ds, rest)
  else ([], s)
| [] => ([], [])
end.

Definition digits_value (ds : text) : N :=
fold_left (fun acc c => 10 * acc + (c - 48)) ds 0.

Definition parse_sign (s : text) : bool * text :=
match s with
| c :: s' =>
  if c =? 45 then (true, s')
  else if c =? 43 then (false, s')
  else (false, s)
| [] => (false, s)
end.

(** What follows the mantissa: nothing, or [e], an optional sign and at
least one digit. *)
Definition parse_exponent (s : text) : option Z :=
match s with
| [] => Some 0%Z
| c :: s1 =>
  if (c =? 101) || (c =? 69) then
    let (neg, s2) := parse_sign s1 in
    let (ds, s3) := span_digits s2 in
    match ds, s3 with
    | _ :: _, [] => Some (cond_Zopp neg (Z.of_N (digits_value ds)))
    | _, _ => None
    end
  else None
end.

(** [inf], [infinity] and [nan], in any case, tried when the text holds
no number. *)
Definition parse_inf_or_nan (neg : bool) (s : text) : option spec_float :=
let word := Str.lower s in
if text_eqb word (T "inf") || text_eqb word (T "infinity")
then Some (S754_infinity neg)
else if text_eqb word (T "nan") then Some S754_nan
else None.

(** The grammar of a float literal, on trimmed ASCII text without
underscores: [sign] (digits[.[digits]][exp] | .digits[exp] | inf |
infinity | nan), the whole text. *)
Definition parse (s : text) : option spec_float :=
let (neg, s1) := parse_sign s in
let (ip, s2) := span_digits s1 in
let (fp, s3) := match s2 with
              | c :: t => if c =? 46 then span_digits t else ([], s2)
              | [] => ([], s2)
              end in
match ip ++ fp with
| [] => parse_inf_or_nan neg s1
| ds =>
  match parse_exponent s3 with
  | Some e =>
      Some (of_decimal neg (digits_value ds)
                       (e - Z.of_nat (length fp))%Z)
  | None => None
  end
end.

(** [float(s)] for a [str]; [None] is ValueError. *)
Definition of_text (s : text) : option spec_float :=
let a := trim (to_ascii s) in
if underscores_ok 0 a then parse (drop_underscores a) else None.

End Float.

(** [float(v)] *)
Definition py_float (v : pyval) : result pyval :=
  match v with
  | PyNone => Raises TypeError
  | PyFloat f => Returns (PyFloat f)
  | PyStr s =>
      match Float.of_text s with
      | Some f => Returns (PyFloat f)
      | None => Raises ValueError
      end
  end.

(** [v.strip()]: [None] has no such method. *)
Definition py_strip (v : pyval) : result text :=
  match v with
  | PyStr s => Returns (Str.strip s)
  | _ => Raises AttributeError
  end.

(** [a, b, c, d = parts] and [a, b = parts] *)
Definition unpack4 (parts : list text) : result (text * text * text * text) :=
  match parts with
  | [a; b; c; d] => Returns (a, b, c, d)
  | _ => Raises ValueError
  end.

Definition unpack2 (parts : list text) : result (text * text) :=
  match parts with
  | [a; b] => Returns (a, b)
  | _ => Raises ValueError
  end.

(** ** The patterns of the script *)

Module Pattern.
Import Re.

Definition lit (s : String.string) : regex := RLit (T s).
Definition star (k : cclass) : regex := RRep k 0 Greedy.
Definition plus (k : cclass) : regex := RRep k 1 Greedy.
Definition star_lazy (k : cclass) : regex := RRep k 0 Lazy.

Fixpoint cat (rs : list regex) : regex :=
match rs with
| [] => RLit []
| [r] => r
| r :: rs' => RSeq r (cat rs')
end.

(** [[0-9]] and [[A-Z]] *)
Definition ascii_digit : cclass := CRange 48%N 57%N.
Definition capital : cclass := CRange 65%N 90%N.

(** r"INTERNUCLEAR DISTANCES \(ANGS\.\).*?\n\s*\d+\s+[A-Z]+\s+([0-9]+\.\d+)\s+\*"
with re.DOTALL *)
Definition bond_length : regex :=
cat [ lit "INTERNUCLEAR DISTANCES (ANGS.)"; star_lazy (CDot true);
    RLit [10%N]; star CSpace; plus CDigit; plus CSpace; plus capital;
    plus CSpace;
    RGroup 1 (cat [plus ascii_digit; lit "."; plus CDigit]);
    plus CSpace; lit "*" ].

(** r"HEAT OF FORMATION IS\s+(-?\d+\.\d+)" *)
Definition heat_of_formation : regex :=
cat [ lit "HEAT OF FORMATION IS"; plus CSpace;
    RGroup 1 (cat [ROpt (CChar 45%N); plus CDigit; lit "."; plus CDigit]) ].

(** r'TOTAL ENERGY\s+=\s+(-?\d+\.\d+)' *)
Definition total_energy : regex :=
cat [ lit "TOTAL ENERGY"; plus CSpace; lit "="; plus CSpace;
    RGroup 1 (cat [ROpt (CChar 45%N); plus CDigit; lit "."; plus CDigit]) ].

(** r'TOTAL WALL CLOCK TIME=\s+([0-9]+\.\d+)' *)
Definition wall_clock_time : regex :=
cat [ lit "TOTAL WALL CLOCK TIME="; plus CSpace;
    RGroup 1 (cat [plus ascii_digit; lit "."; plus CDigit]) ].

(** r"INPUT CARD>!\s*(.*?)\s*\|\s*.*?\|\s*(.*?)\s*$" with re.MULTILINE *)
Definition input_card : regex :=
cat [ lit "INPUT CARD>!"; star CSpace;
    RGroup 1 (star_lazy (CDot false)); star CSpace; lit "|";
    star CSpace; star_lazy (CDot false); lit "|"; star CSpace;
    RGroup 2 (star_lazy (CDot false)); star CSpace; REol true ].

End Pattern.

(** ** The functions of the script *)

Local Open Scope py_scope.

(** The four metadata cells: molecule, force field, basis, method. *)
Definition metadata : Type := pyval * pyval * pyval * pyval.

Definition all_none : metadata := (PyNone, PyNone, PyNone, PyNone).

Definition extract_bond_length (text : text) : result pyval :=
  match Re.search Pattern.bond_length text with
  | Some m => py_float (Re.group m 1)
  | None => Returns PyNone
  end.

Definition extract_heat_of_formation (text : text) : result pyval :=
  match Re.search Pattern.heat_of_formation text with
  | Some m => py_float (Re.group m 1)
  | None => Returns PyNone
  end.

Definition extract_total_energy (text : text) : result pyval :=
  match Re.search Pattern.total_energy text with
  | Some m => py_float (Re.group m 1)
  | None => Returns PyNone
  end.

(** [file] is the name of the file, the last component of its path. *)
Definition parse_filename (file : text) : result metadata :=
  try_except
    (let parts := Str.split 95%N None (stem file) in
     '(molecule, forcefield, basis, comp) <- unpack4 parts ;;
     Returns (PyStr molecule, PyStr forcefield, PyStr basis, PyStr comp))
    (fun e => match e with
              | ValueError => Returns all_none
              | _ => Raises e
              end).

Definition run_time (text : text) : result pyval :=
  let matches := Re.findall Pattern.wall_clock_time text in
  match matches with
  | [] => Returns PyNone
  | _ :: _ => Returns (last matches PyNone)
  end.

Definition fallback_parse_input_section (text : text) : result metadata :=
  try_except
    (match Re.search Pattern.input_card text with
     | None => Returns all_none
     | Some m =>
         molecule <- py_strip (Re.group m 1) ;;
         method_basis <- py_strip (Re.group m 2) ;;
         '(method, basis) <-
           (if Str.contains (T "/") method_basis
            then unpack2 (Str.split 47%N (Some 1) method_basis)
            else Returns (method_basis, T "Unknown")) ;;
         Returns (PyStr molecule, PyStr (T "Unknown"),
                  PyStr (Str.strip basis), PyStr (Str.strip method))
     end)
    (fun _ => Returns all_none).

(** ** The main loop *)

(** One row of [results]: a dict, its keys in the order of insertion. *)
Definition row : Type := list (String.string * pyval).

(** Which function of the script was called; kept beside [results] as a
    ghost trace so that "is never invoked" can be stated. *)
Inductive call : Type :=
| CallParseFilename
| CallFallback
| CallBondLength
| CallHeatOfFormation
| CallTotalEnergy
| CallRunTime.

Record world : Type := World { results : list row; calls : list call }.

Definition start : world := World [] [].

(** A statement of the loop: it may raise and it may change [results]. *)
Definition M (A : Type) : Type := world -> result A * world.

Definition mret {A} (a : A) : M A := fun w => (Returns a, w).

Definition mbind {A B} (m : M A) (f : A -> M B) : M B :=
  fun w => match m w with
           | (Returns a, w') => f a w'
           | (Raises e, w') => (Raises e, w')
           end.

(** [try: m  except Exception as e: h] *)
Definition mtry {A} (m : M A) (h : exn -> M A) : M A :=
  fun w => match m w with
           | (Returns a, w') => (Returns a, w')
           | (Raises e, w') => h e w'
           end.

(** A call of one of the script's functions. *)
Definition invoke {A} (c : call) (r : result A) : M A :=
  fun w => (r, World (results w) (calls w ++ [c])).

(** [results.append(r)] *)
Definition append (r : row) : M unit :=
  fun w => (Returns tt, World (results w ++ [r]) (calls w)).

Declare Scope loop_scope.
Delimit Scope loop_scope with loop.
Notation "x <- m ;; k" := (mbind m (fun x => k))
  (at level 61, m at next level, right associativity) : loop_scope.
Notation "m ;; k" := (mbind m (fun _ => k))
  (at level 61, right associativity) : loop_scope.

(** The parts of an f-string: its literal text and the values of its
    fields, from left to right. *)
Inductive piece : Type :=
| Lit (s : text)
| Field (v : pyval).

(** A log file as the loop meets it: its name, what opening and reading it
    gives (the text, decoded, or an error), and what [print] does with an
    f-string while the loop is at this file: it returns, or it raises, as
    it does when the encoding of stdout has no bytes for a character of the
    text. *)
Record log_file : Type :=
  LogFile { name : text; read : result text; print : list piece -> result unit }.

(** [print(f"...")] at the file [file] *)
Definition say (file : log_file) (message : list piece) : M unit :=
  fun w => (print file message, w).

Definition marker : text := T "EXECUTION OF GAMESS TERMINATED NORMALLY".

(** [None in (molecule, ff, basis, method)] *)
Definition none_in (m : metadata) : bool :=
  let '(molecule, ff, basis, method) := m in
  is_none molecule || is_none ff || is_none basis || is_none method.

(** [v if v is not None else 'NA'] *)
Definition or_NA (v : pyval) : pyval :=
  if is_none v then PyStr (T "NA") else v.

(** The dict both branches append; [completion] is the last cell. *)
Definition record (m : metadata) (bond heat energy time : pyval)
           (completion : String.string) : row :=
  let '(molecule, ff, basis, method) := m in
  [ ("molecule", molecule);
    ("force_field", ff);
    ("basis", basis);
    ("comp_method", method);
    ("bond_length (Å)", or_NA bond);
    ("heat_of_formation (kcal/mol)", or_NA heat);
    ("Total Energy (Hartrees)", or_NA energy);
    ("Run_Time (s)", or_NA time);
    ("Completion", PyStr (T completion)) ].

Local Open Scope loop_scope.

(** The two statements that settle the metadata: the file name first, the
    input section of the log when the name gives nothing. *)
Definition resolve (file_name contents : text) : M metadata :=
  m <- invoke CallParseFilename (parse_filename file_name) ;;
  if none_in m
  then invoke CallFallback (fallback_parse_input_section contents)
  else mret m.

(** The body of [for file in input_path.glob('*.log')]. *)
Definition loop_body (file : log_file) : M unit :=
  if text_eqb (Str.lower (name file)) (T "readme.txt") then
    say file [Lit (T "Skipping "); Field (PyStr (name file))]
  else
    mtry
      (contents <- (fun w => (read file, w)) ;;
       m <- resolve (name file) contents ;;
       bond <- invoke CallBondLength (extract_bond_length contents) ;;
       heat <- invoke CallHeatOfFormation (extract_heat_of_formation contents) ;;
       energy <- invoke CallTotalEnergy (extract_total_energy contents) ;;
       time <- invoke CallRunTime (run_time contents) ;;
       if negb (Str.contains marker contents) then
         append (record m bond heat energy time "Incomplete")
       else if existsb (fun v => negb (is_none v)) [bond; heat; energy] then
         append (record m bond heat energy time "Completed")
       else say file [Lit (T "Failed Entirely")])
      (fun _ => say file [Lit (T "error processing");
                          Field (PyStr (name file))]).

(** The loop: an exception that leaves a turn ends it. *)
Fixpoint main_loop (files : list log_file) : M unit :=
  match files with
  | [] => mret tt
  | file :: files' => loop_body file ;; main_loop files'
  end.

(** [results] and the trace when the loop, run from [w], has ended or has
    been left by an exception. *)
Definition run_loop (files : list log_file) (w : world) : world :=
  snd (main_loop files w).

(** The rows one file adds to [results], seen from an empty list. *)
Definition emitted (file : log_file) : list row :=
  results (snd (loop_body file start)).

(** [r[key]] *)
Fixpoint cell (key : String.string) (r : row) : option pyval :=
  match r with
  | [] => None
  | (k, v) :: r' => if String.eqb key k then Some v else cell key r'
  end.

(** The files the loop comes to: all of them up to the first whose turn is
    left by an exception. *)
Fixpoint reached (files : list log_file) : list log_file :=
  match files with
  | [] => []
  | file :: files' =>
      file :: match fst (loop_body file start) with
              | Returns _ => reached files'
              | Raises _ => []
              end
  end.

(** Two ways [print] can be: a stdout that takes every text, and one
    whose encoding is ASCII, where a character from 128 on raises
    [UnicodeEncodeError] (a number and [None] are written in ASCII). *)
Definition takes_all (message : list piece) : result unit := Returns tt.

Definition ascii_only (message : list piece) : result unit :=
  if forallb (fun p => match p with
                       | Lit s | Field (PyStr s) => forallb (fun c => c <? 128)%N s
                       | Field _ => true
                       end) message
  then Returns tt
  else Raises ValueError.

Local Close Scope loop_scope.

(** [re.search(r, s).start()]: where the leftmost match begins. *)
Fixpoint search_start (r : Re.regex) (s : text) : option nat :=
  match Re.match_at false r s with
  | Some _ => Some 0
  | None => match s with
            | [] => None
            | _ :: s' => option_map S (search_start r s')
            end
  end.

(** ** The words of the specification *)

Inductive CompletionStatus : Type := Completed | Incomplete | Rejected.

(** The classifier as the specification words it: no termination marker,
    Incomplete; else Completed when one of the three numeric fields is
    present; else Rejected. *)
Definition classify (has_marker : bool) (bond heat energy : pyval)
  : CompletionStatus :=
  if negb has_marker then Incomplete
  else if negb (is_none bond) || negb (is_none heat) || negb (is_none energy)
       then Completed
       else Rejected.

(** A resolved metadata cell with nothing to trim and something in it. *)
Definition trimmed (v : pyval) : Prop :=
  match v with
  | PyStr s => Str.strip s = s
  | _ => False
  end.

Definition nonempty_str (v : pyval) : Prop :=
  match v with
  | PyStr s => s <> []
  | _ => False
  end.

(** The cells of a metadata tuple. *)
Definition cells (m : metadata) : list pyval :=
  let '(molecule, ff, basis, method) := m in [molecule; ff; basis; method].

(** Every place of the text at which the pattern matches, left to right,
    with its first group: the occurrences of the pattern. *)
Fixpoint occurrences (r : Re.regex) (s : text) : list pyval :=
  match Re.match_at false r s with
  | Some m => [Re.group m 1]
  | None => []
  end ++
  match s with
  | [] => []
  | _ :: s' => occurrences r s'
  end.

(** The text [-?\d+\.\d+] matches: an optional minus sign, digits, a
    point, digits. *)
Definition decimal_text (g : text) : Prop :=
  exists sgn d1 d2,
    g = sgn ++ d1 ++ [46%N] ++ d2
    /\ (sgn = [] \/ sgn = [45%N])
    /\ d1 <> [] /\ d2 <> []
    /\ forallb Unicode.is_decimal d1 = true
    /\ forallb Unicode.is_decimal d2 = true.

(** Neither [|] nor a newline; not a newline. *)
Definition plain (c : char) : bool := negb (c =? 124)%N && negb (c =? 10)%N.
Definition not_newline (c : char) : bool := negb (c =? 10)%N.

(** The first character, if any, fails [p]. *)
Definition stops (p : char -> bool) (s : text) : Prop :=
  match s with [] => True | c :: _ => p c = false end.

(** What stands before the first [sep] of [s], and after its last one (all
    of [s] when it holds no [sep]). *)
Fixpoint before_first (sep : char) (s : text) : text :=
  match s with
  | [] => []
  | c :: s' => if (c =? sep)%N then [] else c :: before_first sep s'
  end.

Definition after_last (sep : char) (s : text) : text :=
  rev (before_first sep (rev s)).

(** An optional minus sign; at least one decimal digit; blanks. *)
Definition sign (s : text) : Prop := s = [] \/ s = [45%N].

Definition digits (d : text) : Prop :=
  d <> [] /\ forallb Unicode.is_decimal d = true.

Definition blanks (w : text) : Prop := forallb Unicode.is_space w = true.

(** At least one blank; at least one ASCII digit; at least one capital. *)
Definition some_blanks (w : text) : Prop := w <> [] /\ blanks w.

Definition ascii_digits (d : text) : Prop :=
  d <> [] /\ forallb (Re.cmatch Pattern.ascii_digit) d = true.

Definition capitals (w : text) : Prop :=
  w <> [] /\ forallb (Re.cmatch Pattern.capital) w = true.

(** A text of characters that pass [p], with no blank at either end. *)
Definition word (p : char -> bool) (u : text) : Prop :=
  forallb p u = true
  /\ stops Unicode.is_space u /\ stops Unicode.is_space (rev u).

(** ** The CSV variant of the loop (the first half of the file) *)

Local Open Scope loop_scope.

(** The dict the CSV variant appends: no run time, no completion. *)
Definition record_csv (m : metadata) (bond heat energy : pyval) : row :=
  let '(molecule, ff, basis, method) := m in
  [ ("molecule", molecule);
    ("force_field", ff);
    ("basis", basis);
    ("comp_method", method);
    ("bond_length (Å)", or_NA bond);
    ("heat_of_formation (kcal/mol)", or_NA heat);
    ("Total Energy (Hartrees)", or_NA energy) ].

(** The four [print]s of the CSV variant before it appends; the first
    literal is a line feed, U+1F50D and [ File: ]. *)
Definition report (file : log_file) (bond heat energy : pyval)
  : list (list piece) :=
  [ [Lit ([10%N; 128269%N] ++ T " File: "); Field (PyStr (name file))];
    [Lit (T "   Bond length: "); Field bond];
    [Lit (T "   Heat of formation: "); Field heat];
    [Lit (T "   Total Energy: "); Field energy; Lit (T " ")] ].

(** The [print]s of [messages], one after the other. *)
Fixpoint say_all (file : log_file) (messages : list (list piece)) : M unit :=
  match messages with
  | [] => mret tt
  | message :: messages' => say file message ;; say_all file messages'
  end.

(** The body of the first [for file in input_path.glob('*.log')]: a log
    without the termination marker is left at once. *)
Definition loop_body_csv (file : log_file) : M unit :=
  if text_eqb (Str.lower (name file)) (T "readme.txt") then
    say file [Lit (T "Skipping "); Field (PyStr (name file))]
  else
    mtry
      (contents <- (fun w => (read file, w)) ;;
       if negb (Str.contains marker contents) then
         say file [Lit (T "failed to execute")]
       else
         bond <- invoke CallBondLength (extract_bond_length contents) ;;
         heat <- invoke CallHeatOfFormation (extract_heat_of_formation contents) ;;
         energy <- invoke CallTotalEnergy (extract_total_energy contents) ;;
         m <- resolve (name file) contents ;;
         say_all file (report file bond heat energy) ;;
         if existsb (fun v => negb (is_none v)) [bond; heat; energy] then
           append (record_csv m bond heat energy)
         else say file [Lit (T "Failed Entirely")])
      (fun _ => say file [Lit (T "error processing");
                          Field (PyStr (name file))]).

Fixpoint main_loop_csv (files : list log_file) : M unit :=
  match files with
  | [] => mret tt
  | file :: files' => loop_body_csv file ;; main_loop_csv files'
  end.

(** The rows one file adds to the CSV variant's [results]. *)
Definition emitted_csv (file : log_file) : list row :=
  results (snd (loop_body_csv file start)).

Local Close Scope loop_scope.

(** Is the row labelled Completed? *)
Definition completed (r : row) : bool :=
  match cell "Completion" r with
  | Some (PyStr s) => text_eqb s (T "Completed")
  | _ => false
  end.

(** The row part of the bond-length pattern: what follows [.*?]. *)
Definition starred_row : Re.regex :=
  Pattern.cat
    [ Re.RLit [10%N]; Pattern.star Re.CSpace; Pattern.plus Re.CDigit;
      Pattern.plus Re.CSpace; Pattern.plus Pattern.capital;
      Pattern.plus Re.CSpace;
      Re.RGroup 1 (Pattern.cat [Pattern.plus Pattern.ascii_digit;
                                Pattern.lit "."; Pattern.plus Re.CDigit]);
      Pattern.plus Re.CSpace; Pattern.lit "*" ].

(** [s] starts, at a line break, with a table row whose first entry is the
    starred decimal [g]: an index, a symbol in capitals, [g], blanks and
    [*]. *)
Definition starred_entry (s g : text) : Prop :=
  exists ws0 idx ws1 el ws2 d1 d2 ws3 rest,
    s = [10%N] ++ ws0 ++ idx ++ ws1 ++ el ++ ws2 ++ g ++ ws3 ++ T "*" ++ rest
    /\ g = d1 ++ [46%N] ++ d2
    /\ blanks ws0 /\ digits idx /\ some_blanks ws1 /\ capitals el
    /\ some_blanks ws2 /\ ascii_digits d1 /\ digits d2 /\ some_blanks ws3.

(** ** The export: the sheet and the colours of its rows *)

(** The code points of a literal of the source whose bytes are UTF-8 (the
    labels of the columns hold [Å]). *)
Fixpoint utf8 (bs : list N) : text :=
  match bs with
  | [] => []
  | b :: r =>
      if (b <? 128)%N then b :: utf8 r
      else if (b <? 224)%N then
        match r with
        | b1 :: r1 => ((b mod 32) * 64 + b1 mod 64)%N :: utf8 r1
        | [] => [b]
        end
      else if (b <? 240)%N then
        match r with
        | b1 :: b2 :: r2 =>
            ((b mod 16) * 4096 + (b1 mod 64) * 64 + b2 mod 64)%N :: utf8 r2
        | _ => [b]
        end
      else
        match r with
        | b1 :: b2 :: b3 :: r3 =>
            ((b mod 8) * 262144 + (b1 mod 64) * 4096 + (b2 mod 64) * 64
             + b3 mod 64)%N :: utf8 r3
        | _ => [b]
        end
  end.

Definition U (s : String.string) : text := utf8 (T s).

(** [green_fill] and [red_fill] *)
Inductive colour : Type := Green | Red.

(** A cell of the sheet: its value and its fill, if it has one. *)
Record xcell : Type := XCell { value : pyval; fill : option colour }.

(** A cell that holds nothing and has no fill. Reading a cell the sheet
    lacks makes one; the workbook is saved without such cells, so a sheet
    is the same with and without them. *)
Definition blank : xcell := XCell PyNone None.

(** The sheet: its rows from the top, each with its cells from the left,
    as far as the row has cells. *)
Definition worksheet : Type := list (list xcell).

(** The keys of [ks] that are not in [seen], each once, in the order in
    which they first come. *)
Fixpoint uniq (seen ks : list String.string) : list String.string :=
  match ks with
  | [] => []
  | k :: ks' =>
      if existsb (String.eqb k) seen then uniq seen ks'
      else k :: uniq (k :: seen) ks'
  end.

(** The columns of [pd.DataFrame(results)]: the keys of the rows. *)
Definition columns (rs : list row) : list String.string :=
  uniq [] (flat_map (List.map fst) rs).

Section Sheet.

(** What a value of a row is in the sheet, once [to_excel] has written it
  and [load_workbook] has read it. *)
Variable excel : pyval -> pyval.

(** The sheet [load_workbook(excel_file).active] gives once
  [pd.DataFrame(results).to_excel(excel_file, index=False)] has written
  the rows: a row of labels, then a row for each dict, with nothing
  where a dict lacks the key; no cell at all for an empty list. Whether
  the two calls return is for [export] to say. *)
Definition sheet_of (rs : list row) : worksheet :=
match rs with
| [] => []
| _ :: _ =>
    List.map (fun k => XCell (PyStr (U k)) None) (columns rs)
    :: List.map
         (fun r =>
            List.map
              (fun k => XCell match cell k r with
                              | Some v => excel v
                              | None => PyNone
                              end None)
              (columns rs))
         rs
end.

End Sheet.

(** The number of the last row that has a cell, counting from [i]; 0 when
    no row has one. *)
Fixpoint last_filled (i : nat) (ws : worksheet) : nat :=
  match ws with
  | [] => 0
  | r :: ws' =>
      match last_filled (S i) ws' with
      | 0 => match r with [] => 0 | _ :: _ => i end
      | n => n
      end
  end.

(** [ws.max_row] and [ws.max_column]: 1 for a sheet without cells. *)
Definition max_row (ws : worksheet) : nat := Nat.max 1 (last_filled 1 ws).

Definition max_column (ws : worksheet) : nat :=
  Nat.max 1 (list_max (List.map (@length xcell) ws)).

(** [ws[1]]: the cells of the first row in the columns 1 to
    [ws.max_column]. *)
Definition first_row (ws : worksheet) : list xcell :=
  let r := hd [] ws in
  r ++ repeat blank (max_column ws - length r).

(** [v == s] for a [str] [s] *)
Definition is_text (v : pyval) (s : text) : bool :=
  match v with
  | PyStr t => text_eqb t s
  | _ => false
  end.

(** The first loop of the export, over [enumerate(cells, idx)]: the number
    of the first cell that holds "Completion"; [None] is the value
    [completion_col] starts with. *)
Fixpoint find_completion (idx : nat) (cells : list xcell) : option nat :=
  match cells with
  | [] => None
  | c :: cells' =>
      if is_text (value c) (T "Completion") then Some idx
      else find_completion (S idx) cells'
  end.

(** The [if]/[elif] of the second loop on one cell. *)
Definition paint_cell (c : xcell) : xcell :=
  if is_text (value c) (T "Completed") then XCell (value c) (Some Green)
  else if is_text (value c) (T "Incomplete") then XCell (value c) (Some Red)
  else c.

(** The body of the second loop on the cell in the column [column] of a
    row, columns counted from 1. A row that ends before the column gets a
    [blank] cell there, which neither test changes. *)
Fixpoint paint (column : nat) (r : list xcell) {struct r} : list xcell :=
  match r with
  | [] => []
  | c :: r' =>
      match column with
      | 0 => c :: r'
      | 1 => paint_cell c :: r'
      | S n => c :: paint n r'
      end
  end.

(** The second loop over [rows]. [ws.cell(row=row, column=completion_col)]
    raises when the column is [None] (it is compared with 1) and when it
    is less than 1. *)
Fixpoint colour_rows (completion_col : option nat) (rows : worksheet)
  : result worksheet :=
  match rows with
  | [] => Returns []
  | r :: rows' =>
      match completion_col with
      | None => Raises TypeError
      | Some 0 => Raises ValueError
      | Some column =>
          rbind (colour_rows completion_col rows')
                (fun rows'' => Returns (paint column r :: rows''))
      end
  end.

(** The export once the sheet is loaded: the two loops. The rows of the
    second loop are the rows 2 to [ws.max_row]. *)
Definition colour_completion (ws : worksheet) : result worksheet :=
  let completion_col := find_completion 1 (first_row ws) in
  let n := max_row ws in
  rbind (colour_rows completion_col (firstn (n - 1) (skipn 1 ws)))
        (fun rows => Returns (firstn 1 ws ++ rows ++ skipn n ws)).

(** The cell in the row [row] and the column [column] of the sheet, both
    counted from 1, when the sheet has it. *)
Definition cell_at (ws : worksheet) (row column : nat) : option xcell :=
  match row, column with
  | S i, S j =>
      match nth_error ws i with
      | Some r => nth_error r j
      | None => None
      end
  | _, _ => None
  end.

(** The export, from [pd.DataFrame(results)] to the end of the second
    loop. [to_excel] says whether writing the rows and loading the workbook
    return: they raise for a text with a character a sheet cannot hold, for
    a file that cannot be written, and the like. *)
Definition export (to_excel : list row -> result unit) (excel : pyval -> pyval)
           (rs : list row) : result worksheet :=
  rbind (to_excel rs) (fun _ => colour_completion (sheet_of excel rs)).


Unset Implicit Arguments.


(* ===================================================================== *)
(** * Part II. The library model                                          *)
(* ===================================================================== *)

(** ** Strings *)

Section StrFacts.
Import Str.

Lemma strip_prefix_app (p s : text) : strip_prefix p (p ++ s) = Some s.
Proof.
  induction p as [|a p IH]; simpl; [reflexivity|].
  now rewrite N.eqb_refl.
Qed.

Lemma strip_prefix_inv (p s s' : text) :
  strip_prefix p s = Some s' -> s = p ++ s'.
Proof.
  revert s; induction p as [|a p IH]; intros [|b s]; simpl; try congruence.
  destruct (N.eqb_spec a b); [subst|discriminate].
  intros H; now rewrite (IH _ H).
Qed.

Lemma strip_prefix_startswith (p s : text) :
  startswith p s = false -> strip_prefix p s = None.
Proof.
  revert s; induction p as [|a p IH]; intros [|b s]; simpl; try congruence.
  destruct (a =? b)%N; simpl; auto.
Qed.

Lemma startswith_app (p s : text) : startswith p (p ++ s) = true.
Proof.
  induction p as [|a p IH]; simpl; [reflexivity|].
  now rewrite N.eqb_refl.
Qed.

Lemma dropwhile_all (p : char -> bool) (w s : text) :
  forallb p w = true -> dropwhile p (w ++ s) = dropwhile p s.
Proof.
  induction w as [|c w IH]; simpl; [reflexivity|].
  intros H; apply andb_prop in H as [Hc Hw]; now rewrite Hc, IH.
Qed.

Lemma dropwhile_head (p : char -> bool) (c : char) (s : text) :
  p c = false -> dropwhile p (c :: s) = c :: s.
Proof. intros H; simpl; now rewrite H. Qed.

(** What [dropwhile] removes and what it leaves. *)
Lemma dropwhile_split (p : char -> bool) (s : text) :
  exists w, s = w ++ dropwhile p s /\ forallb p w = true.
Proof.
  induction s as [|c s [w [E Hw]]]; simpl.
  - now exists [].
  - destruct (p c) eqn:Hc.
    + exists (c :: w); simpl; rewrite Hc, Hw; split; [now f_equal|reflexivity].
    + now exists [].
Qed.

Lemma dropwhile_starts (p : char -> bool) (s : text) :
  match dropwhile p s with
  | [] => True
  | c :: _ => p c = false
  end.
Proof.
  induction s as [|c s IH]; simpl; [exact I|].
  destruct (p c) eqn:Hc; [exact IH|exact Hc].
Qed.

Lemma dropwhile_idem (p : char -> bool) (s : text) :
  dropwhile p (dropwhile p s) = dropwhile p s.
Proof.
  pose proof (dropwhile_starts p s) as H.
  destruct (dropwhile p s) as [|c t]; [reflexivity|].
  now apply dropwhile_head.
Qed.

(** A text falls into leading blanks, its [strip] and trailing blanks. *)
Lemma strip_split (s : text) :
  exists l r, s = l ++ strip s ++ r
              /\ forallb Unicode.is_space l = true
              /\ forallb Unicode.is_space r = true.
Proof.
  unfold strip, rstrip, lstrip.
  destruct (dropwhile_split Unicode.is_space s) as [l [El Hl]].
  destruct (dropwhile_split Unicode.is_space (rev (dropwhile Unicode.is_space s)))
    as [r [Er Hr]].
  exists l, (rev r); repeat split; auto.
  - rewrite El at 1; f_equal.
    rewrite <- (rev_involutive (dropwhile Unicode.is_space s)) at 1.
    rewrite Er at 1. now rewrite rev_app_distr.
  - rewrite forallb_forall in *; intros x Hx; apply Hr; now apply in_rev.
Qed.

(** The ends of a stripped text are not blank. *)
Lemma strip_first (s : text) :
  match strip s with
  | [] => True
  | c :: _ => Unicode.is_space c = false
  end.
Proof.
  unfold strip, rstrip, lstrip.
  pose proof (dropwhile_starts Unicode.is_space s) as H.
  destruct (dropwhile Unicode.is_space s) as [|c t] eqn:E; [exact I|].
  destruct (dropwhile_split Unicode.is_space (rev (c :: t))) as [r [Er Hr]].
  assert (E2 : c :: t = rev (dropwhile Unicode.is_space (rev (c :: t))) ++ rev r).
  { rewrite <- rev_app_distr, <- Er; now rewrite rev_involutive. }
  destruct (rev (dropwhile Unicode.is_space (rev (c :: t)))) as [|c' t'] eqn:E3;
    [exact I|].
  simpl in E2; now injection E2 as -> _.
Qed.

Lemma strip_last (s : text) :
  match rev (strip s) with
  | [] => True
  | c :: _ => Unicode.is_space c = false
  end.
Proof.
  unfold strip, rstrip; rewrite rev_involutive.
  apply dropwhile_starts.
Qed.

Lemma strip_idem (s : text) : strip (strip s) = strip s.
Proof.
  pose proof (strip_first s) as Hf. pose proof (strip_last s) as Hl.
  set (u := strip s) in *.
  unfold strip at 1, rstrip, lstrip.
  assert (E1 : dropwhile Unicode.is_space u = u).
  { destruct u as [|c t]; [reflexivity|now apply dropwhile_head]. }
  rewrite E1.
  destruct (rev u) as [|c t] eqn:E2.
  - simpl. rewrite <- (rev_involutive u), E2; reflexivity.
  - rewrite dropwhile_head by exact Hl.
    rewrite <- E2; apply rev_involutive.
Qed.


(** [strip] of blanks around a text with no blank end. *)
Lemma strip_around (l u r : text) :
  forallb Unicode.is_space l = true ->
  forallb Unicode.is_space r = true ->
  match u with [] => True | c :: _ => Unicode.is_space c = false end ->
  match rev u with [] => True | c :: _ => Unicode.is_space c = false end ->
  strip (l ++ u ++ r) = u.
Proof.
  intros Hl Hr Hf Hlast. unfold strip, rstrip, lstrip.
  rewrite dropwhile_all by exact Hl.
  destruct u as [|c t].
  - simpl.
    assert (D : dropwhile Unicode.is_space r = []).
    { rewrite <- (app_nil_r r) at 1. now rewrite dropwhile_all. }
    rewrite D; reflexivity.
  - rewrite <- app_comm_cons, dropwhile_head by exact Hf.
    rewrite app_comm_cons, rev_app_distr.
    rewrite dropwhile_all.
    2:{ rewrite forallb_forall in *; intros x Hx; apply Hr; now apply in_rev. }
    destruct (rev (c :: t)) as [|c' t'] eqn:E2.
    + apply (f_equal (@length _)) in E2; rewrite length_rev in E2; discriminate.
    + rewrite dropwhile_head by exact Hlast.
      rewrite <- E2; apply rev_involutive.
Qed.

End StrFacts.


(** ** The matcher *)

Section ReFacts.
Import Re.

Lemma firstn_consumed (g s' : text) :
  firstn (length (g ++ s') - length s') (g ++ s') = g.
Proof.
  rewrite length_app, Nat.add_sub.
  now rewrite firstn_app, Nat.sub_diag, firstn_all, app_nil_r.
Qed.

(** *** Soundness: a success of the matcher is a match of the pattern *)

Lemma rep_greedy_sound (A : Type) (k : cclass) (cont : text -> option A) (a : A) :
  forall s n, rep_greedy k n s cont = Some a ->
  exists w s', s = w ++ s' /\ forallb (cmatch k) w = true
               /\ n <= length w /\ cont s' = Some a.
Proof.
  assert (Base : forall s n,
             match n with 0 => cont s | S _ => None end = Some a ->
             exists w s', s = w ++ s' /\ forallb (cmatch k) w = true
                          /\ n <= length w /\ cont s' = Some a).
  { intros s [|n] H; [|discriminate]. exists [], s; auto. }
  induction s as [|c s IH]; intros n H; simpl in H.
  - now apply Base.
  - destruct (cmatch k c) eqn:Hc; [|now apply Base].
    destruct (rep_greedy k (pred n) s cont) eqn:E.
    + injection H as ->.
      destruct (IH _ E) as (w & s' & -> & Hw & Hn & Hk).
      exists (c :: w), s'; simpl; rewrite Hc, Hw; repeat split; auto; lia.
    + now apply Base.
Qed.

Lemma rep_lazy_sound (A : Type) (k : cclass) (cont : text -> option A) (a : A) :
  forall s n, rep_lazy k n s cont = Some a ->
  exists w s', s = w ++ s' /\ forallb (cmatch k) w = true
               /\ n <= length w /\ cont s' = Some a.
Proof.
  induction s as [|c s IH]; intros n H.
  - destruct n; simpl in H; [|discriminate].
    destruct (cont []) eqn:E; [|discriminate].
    injection H as ->. exists [], []; auto.
  - destruct n as [|n]; simpl in H.
    + destruct (cont (c :: s)) eqn:E.
      * injection H as ->. exists [], (c :: s); auto.
      * destruct (cmatch k c) eqn:Hc; [|discriminate].
        destruct (IH _ H) as (w & s' & -> & Hw & Hn & Hk).
        exists (c :: w), s'; simpl; rewrite Hc, Hw; repeat split; auto; lia.
    + destruct (cmatch k c) eqn:Hc; [|discriminate].
      destruct (IH _ H) as (w & s' & -> & Hw & Hn & Hk).
      exists (c :: w), s'; simpl; rewrite Hc, Hw; repeat split; auto; lia.
Qed.

(** What a pattern leaves is the end of what it was given. *)
Lemma denote_suffix (r : regex) :
  forall s gs s' gs', denote r s gs s' gs' -> exists g, s = g ++ s'.
Proof.
  induction r as [l|k n g|k|i r IH|r1 IH1 r2 IH2|m]; simpl; intros s gs s' gs' H.
  - destruct H as [-> _]; now exists l.
  - destruct H as (w & -> & _); now exists w.
  - destruct H as [[->|(c & -> & _)] _]; [now exists []|now exists [c]].
  - destruct H as (g & _ & -> & _); now exists g.
  - destruct H as (s1 & gs1 & H1 & H2).
    destruct (IH1 _ _ _ _ H1) as [g1 ->], (IH2 _ _ _ _ H2) as [g2 ->].
    exists (g1 ++ g2); now rewrite app_assoc.
  - destruct H as (-> & _); now exists [].
Qed.

Theorem run_sound (A : Type) (r : regex) :
  forall s gs (cont : text -> captures -> option A) a,
    run r s gs cont = Some a ->
    exists s' gs', denote r s gs s' gs' /\ cont s' gs' = Some a.
Proof.
  induction r as [l|k n g|k|i r IH|r1 IH1 r2 IH2|m]; simpl; intros s gs cont a H.
  - destruct (Str.strip_prefix l s) as [s'|] eqn:E; [|discriminate].
    apply strip_prefix_inv in E. now exists s', gs.
  - destruct g.
    + apply rep_greedy_sound in H as (w & s' & -> & Hw & Hn & Hk).
      exists s', gs; split; [now exists w|exact Hk].
    + apply rep_lazy_sound in H as (w & s' & -> & Hw & Hn & Hk).
      exists s', gs; split; [now exists w|exact Hk].
  - destruct s as [|c s]; [exists [], gs; auto|].
    destruct (cmatch k c) eqn:Hc; [|exists (c :: s), gs; auto].
    destruct (cont s gs) eqn:E.
    + injection H as ->. exists s, gs; split; [|exact E].
      split; [right; now exists c|reflexivity].
    + exists (c :: s), gs; auto.
  - apply IH in H as (s' & gs' & Hd & Hk).
    destruct (denote_suffix _ _ _ _ _ Hd) as [g ->].
    rewrite firstn_consumed in Hk.
    exists s', ((i, g) :: gs'); split; [now exists g, gs'|exact Hk].
  - apply IH1 in H as (s1 & gs1 & H1 & H).
    apply IH2 in H as (s' & gs' & H2 & Hk).
    exists s', gs'; split; [now exists s1, gs1|exact Hk].
  - destruct (at_eol m s) eqn:E; [|discriminate]. now exists s, gs.
Qed.

Lemma match_at_sound (b : bool) (r : regex) (s : text) (m : match_obj) :
  match_at b r s = Some m -> denote r s [] (after m) (groups m).
Proof.
  unfold match_at; intros H.
  apply run_sound in H as (s' & gs' & Hd & Hk).
  destruct (b && (length s' =? length s)); [discriminate|].
  now injection Hk as <-.
Qed.

(** [search] finds a match at some place of the text. *)
Lemma search_sound (r : regex) (m : match_obj) :
  forall s, search r s = Some m ->
  exists pre s0, s = pre ++ s0 /\ match_at false r s0 = Some m.
Proof.
  induction s as [|c s IH]; simpl; intros H.
  - destruct (match_at false r []) eqn:E; [|discriminate].
    exists [], []; split; [reflexivity|congruence].
  - destruct (match_at false r (c :: s)) eqn:E.
    + exists [], (c :: s); split; [reflexivity|congruence].
    + destruct (IH H) as (pre & s0 & -> & Hm).
      now exists (c :: pre), s0.
Qed.

(** *** The order of the choices *)

(** A greedy repetition that can take all of [w], and no more, hands the
    rest to the continuation first. *)
Lemma rep_greedy_first (A : Type) (k : cclass) (cont : text -> option A) (a : A) :
  forall w s n,
    forallb (cmatch k) w = true ->
    match s with [] => True | c :: _ => cmatch k c = false end ->
    n <= length w ->
    cont s = Some a ->
    rep_greedy k n (w ++ s) cont = Some a.
Proof.
  induction w as [|c w IH]; intros s n Hw Hs Hn Hk; simpl in *.
  - assert (n = 0) as -> by lia.
    destruct s as [|c s]; simpl; [exact Hk|]. now rewrite Hs.
  - apply andb_prop in Hw as [Hc Hw]. rewrite Hc.
    rewrite (IH s (pred n) Hw Hs) by (auto; lia). reflexivity.
Qed.

(** A greedy repetition fails when the continuation fails wherever the
    repetition can stop. *)
Lemma rep_greedy_none (A : Type) (k : cclass) (cont : text -> option A) :
  forall s n,
    (forall w s', s = w ++ s' -> forallb (cmatch k) w = true -> cont s' = None) ->
    rep_greedy k n s cont = None.
Proof.
  induction s as [|c s IH]; intros n H; simpl.
  - destruct n; [apply (H [] []); auto|reflexivity].
  - assert (H0 : match n with 0 => cont (c :: s) | S _ => None end = None).
    { destruct n; [apply (H [] (c :: s)); auto|reflexivity]. }
    destruct (cmatch k c) eqn:Hc; [|exact H0].
    rewrite IH; [exact H0|].
    intros w s' -> Hw. apply (H (c :: w) s'); simpl; [reflexivity|].
    now rewrite Hc.
Qed.

(** A lazy repetition stops at the first place where the continuation
    succeeds. *)
Lemma rep_lazy_first (A : Type) (k : cclass) (cont : text -> option A) (a : A) :
  forall w s,
    forallb (cmatch k) w = true ->
    (forall w1 w2, w = w1 ++ w2 -> w2 <> [] -> cont (w2 ++ s) = None) ->
    cont s = Some a ->
    rep_lazy k 0 (w ++ s) cont = Some a.
Proof.
  induction w as [|c w IH]; intros s Hw H Hk.
  - simpl. destruct s as [|c s]; simpl; now rewrite Hk.
  - simpl in Hw; apply andb_prop in Hw as [Hc Hw].
    assert (H0 : cont (c :: w ++ s) = None)
      by (apply (H [] (c :: w)); auto; discriminate).
    simpl. rewrite H0, Hc. apply IH; auto.
    intros w1 w2 -> Hne. apply (H (c :: w1) w2); auto.
Qed.

(** A greedy repetition succeeds as soon as the continuation succeeds at
    one of the places where the repetition can stop. *)
Lemma rep_greedy_complete (A : Type) (k : cclass) (cont : text -> option A) :
  forall w s n a,
    forallb (cmatch k) w = true ->
    n <= length w ->
    cont s = Some a ->
    exists a', rep_greedy k n (w ++ s) cont = Some a'.
Proof.
  induction w as [|c w IH]; intros s n a Hw Hn Hk; simpl in *.
  - assert (n = 0) as -> by lia.
    destruct s as [|c s]; simpl; [now exists a|].
    destruct (cmatch k c).
    + destruct (rep_greedy k 0 s cont); eauto.
    + eauto.
  - apply andb_prop in Hw as [Hc Hw]. rewrite Hc.
    destruct (IH s (pred n) a Hw) as [a' E]; [lia|exact Hk|].
    rewrite E; eauto.
Qed.

(** *** The same, for results with a property *)

Lemma yields_Some (A : Type) (P : A -> Prop) (a : A) :
  P a -> yields P (Some a).
Proof. intros H; now exists a. Qed.

Lemma yields_lit (A : Type) (P : A -> Prop) (l s : text) (gs : captures)
      (cont : text -> captures -> option A) :
  yields P (cont s gs) -> yields P (run (RLit l) (l ++ s) gs cont).
Proof. simpl; now rewrite strip_prefix_app. Qed.

Lemma yields_greedy (A : Type) (P : A -> Prop) (k : cclass) (n : nat)
      (w s : text) (cont : text -> option A) :
  forallb (cmatch k) w = true ->
  match s with [] => True | c :: _ => cmatch k c = false end ->
  n <= length w ->
  yields P (cont s) ->
  yields P (rep_greedy k n (w ++ s) cont).
Proof.
  intros Hw Hs Hn (a & Hk & Ha). exists a; split; [|exact Ha].
  now apply rep_greedy_first.
Qed.

Lemma yields_greedy_any (A : Type) (P : A -> Prop) (k : cclass) (n : nat)
      (w s : text) (cont : text -> option A) :
  forallb (cmatch k) w = true ->
  n <= length w ->
  (exists a, cont s = Some a) ->
  (forall s' a, cont s' = Some a -> P a) ->
  yields P (rep_greedy k n (w ++ s) cont).
Proof.
  intros Hw Hn [a Hk] HP.
  destruct (rep_greedy_complete A k cont w s n a Hw Hn Hk) as [a' E].
  exists a'; split; [exact E|].
  apply rep_greedy_sound in E as (w' & s' & _ & _ & _ & Hk').
  now apply (HP s').
Qed.

Lemma yields_lazy (A : Type) (P : A -> Prop) (k : cclass)
      (w s : text) (cont : text -> option A) :
  forallb (cmatch k) w = true ->
  (forall w1 w2, w = w1 ++ w2 -> w2 <> [] -> cont (w2 ++ s) = None) ->
  yields P (cont s) ->
  yields P (rep_lazy k 0 (w ++ s) cont).
Proof.
  intros Hw H (a & Hk & Ha). exists a; split; [|exact Ha].
  now apply rep_lazy_first.
Qed.

(** [search] skips the places where the pattern does not match. *)
Lemma search_skip (r : regex) :
  forall pre s,
    (forall p1 p2, pre = p1 ++ p2 -> p2 <> [] ->
                   match_at false r (p2 ++ s) = None) ->
    search r (pre ++ s) = search r s.
Proof.
  induction pre as [|c pre IH]; intros s H; [reflexivity|].
  assert (H0 : match_at false r (c :: pre ++ s) = None)
    by (apply (H [] (c :: pre)); auto; discriminate).
  simpl. rewrite H0.
  apply IH. intros p1 p2 -> Hne. now apply (H (c :: p1) p2).
Qed.

Lemma search_here (r : regex) (s : text) (m : match_obj) :
  match_at false r s = Some m -> search r s = Some m.
Proof. intros H; destruct s; simpl; now rewrite H. Qed.

(** A pattern that opens with a literal matches only where the literal
    stands. *)
Lemma match_at_lit (b : bool) (l : text) (r : regex) (s : text) :
  Str.startswith l s = false -> match_at b (RSeq (RLit l) r) s = None.
Proof.
  intros H; unfold match_at; simpl. now rewrite strip_prefix_startswith.
Qed.

End ReFacts.


(** ** Unicode tables *)

Section UnicodeFacts.
Import Unicode.
Local Open Scope N_scope.

Lemma decimal_in_spec (zs : list N) (c d : N) :
  decimal_in zs c = Some d -> exists z, In z zs /\ c = z + d /\ d <= 9.
Proof.
  induction zs as [|z zs IH]; simpl; [discriminate|].
  destruct ((z <=? c) && (c <=? z + 9)) eqn:E.
  - intros [= <-]. apply andb_prop in E as [E1 E2].
    apply N.leb_le in E1, E2. exists z; repeat split; auto; lia.
  - intros H; destruct (IH H) as (z' & Hin & Hc & Hd). exists z'; auto.
Qed.

(** Below 128 the only decimal digits are the ASCII ones. *)
Lemma decimal_zeros_ascii :
  forallb (fun z => (z =? 48) || (128 <=? z)) decimal_zeros = true.
Proof. vm_compute; reflexivity. Qed.

(** No decimal digit is a space. *)
Lemma decimal_zeros_not_space :
  forallb (fun z => forallb (fun d => negb (is_space (z + d)))
                            [0; 1; 2; 3; 4; 5; 6; 7; 8; 9])
          decimal_zeros = true.
Proof. vm_compute; reflexivity. Qed.

Lemma digit_cases (d : N) :
  d <= 9 -> In d [0; 1; 2; 3; 4; 5; 6; 7; 8; 9].
Proof.
  intros H. simpl.
  destruct (N.eq_dec d 0); [auto|]. destruct (N.eq_dec d 1); [auto|].
  destruct (N.eq_dec d 2); [auto 10|]. destruct (N.eq_dec d 3); [auto 10|].
  destruct (N.eq_dec d 4); [auto 10|]. destruct (N.eq_dec d 5); [auto 10|].
  destruct (N.eq_dec d 6); [auto 10|]. destruct (N.eq_dec d 7); [auto 10|].
  destruct (N.eq_dec d 8); [auto 10|]. destruct (N.eq_dec d 9); [auto 15|].
  lia.
Qed.

Lemma decimal_value (c d : N) : decimal c = Some d -> d <= 9.
Proof. intros H; apply decimal_in_spec in H as (z & _ & _ & Hd); exact Hd. Qed.

Lemma decimal_below_128 (c d : N) :
  decimal c = Some d -> c < 128 -> c = 48 + d.
Proof.
  intros H Hc. apply decimal_in_spec in H as (z & Hin & -> & Hd).
  pose proof decimal_zeros_ascii as Hz.
  rewrite forallb_forall in Hz. specialize (Hz z Hin).
  apply orb_prop in Hz as [Hz|Hz];
    [apply N.eqb_eq in Hz; now subst|apply N.leb_le in Hz; lia].
Qed.

Lemma decimal_not_space (c d : N) :
  decimal c = Some d -> is_space c = false.
Proof.
  intros H. apply decimal_in_spec in H as (z & Hin & -> & Hd).
  pose proof decimal_zeros_not_space as Hz.
  rewrite forallb_forall in Hz. specialize (Hz z Hin).
  rewrite forallb_forall in Hz. specialize (Hz d (digit_cases d Hd)).
  now apply negb_true_iff in Hz.
Qed.

Lemma ascii_digit_decimal (c : N) :
  48 <= c -> c <= 57 -> decimal c = Some (c - 48).
Proof.
  intros H1 H2. unfold decimal, decimal_zeros. cbn [decimal_in].
  apply N.leb_le in H1. change (0x30 + 9) with 57.
  apply N.leb_le in H2. change 0x30 with 48. now rewrite H1, H2.
Qed.

Lemma is_decimal_inv (c : N) :
  is_decimal c = true -> exists d, decimal c = Some d.
Proof. unfold is_decimal; destruct (decimal c); [eauto|discriminate]. Qed.

End UnicodeFacts.

(** ** [float] never fails on what the patterns capture *)

Section FloatFacts.
Import Float.
Local Open Scope N_scope.

Lemma value_is_ascii_digit (v : N) :
  v <= 9 -> is_ascii_digit (48 + v) = true.
Proof.
  intros H; unfold is_ascii_digit.
  apply andb_true_intro; split; apply N.leb_le; lia.
Qed.

Lemma to_ascii_digit (c : char) (s : text) :
  Unicode.is_decimal c = true ->
  exists C, is_ascii_digit C = true /\ to_ascii (c :: s) = C :: to_ascii s.
Proof.
  intros Hc. apply is_decimal_inv in Hc as [v Hv].
  pose proof (decimal_value _ _ Hv) as Hv9.
  exists (48 + v); split; [now apply value_is_ascii_digit|].
  cbn [to_ascii].
  destruct (N.ltb_spec c 128) as [Hlt|Hge].
  - now rewrite (decimal_below_128 _ _ Hv Hlt) at 1.
  - now rewrite (decimal_not_space _ _ Hv), Hv.
Qed.

Lemma to_ascii_digits (d : text) :
  forallb Unicode.is_decimal d = true ->
  exists D, forallb is_ascii_digit D = true
            /\ length D = length d
            /\ forall rest, to_ascii (d ++ rest) = D ++ to_ascii rest.
Proof.
  induction d as [|c d IH]; intros H.
  - now exists [].
  - cbn [forallb] in H. apply andb_prop in H as [Hc Hd].
    destruct (IH Hd) as (D & HD & HL & HE).
    exists (match to_ascii [c] with C :: _ => C | [] => c end :: D).
    destruct (to_ascii_digit c [] Hc) as (C & HC & EC). rewrite EC.
    cbn [forallb length]. rewrite HC, HD, HL. repeat split.
    intros rest. rewrite <- !app_comm_cons.
    destruct (to_ascii_digit c (d ++ rest) Hc) as (C' & HC' & EC').
    rewrite EC', HE. f_equal.
    destruct (to_ascii_digit c [] Hc) as (C2 & _ & EC2).
    cbn [to_ascii] in EC, EC', EC2.
    destruct (c <? 128); [congruence|].
    destruct (Unicode.is_space c); [congruence|].
    destruct (Unicode.decimal c); congruence.
Qed.

Lemma span_digits_app (D rest : text) :
  forallb is_ascii_digit D = true ->
  match rest with [] => True | c :: _ => is_ascii_digit c = false end ->
  span_digits (D ++ rest) = (D, rest).
Proof.
  induction D as [|c D IH]; simpl; intros HD Hr.
  - destruct rest as [|c rest]; [reflexivity|]. simpl; now rewrite Hr.
  - apply andb_prop in HD as [Hc HD]. now rewrite Hc, IH.
Qed.

Lemma digit_not_space (c : char) :
  is_ascii_digit c = true -> is_ascii_space c = false.
Proof.
  unfold is_ascii_digit, is_ascii_space; intros H.
  apply andb_prop in H as [H1 H2]. apply N.leb_le in H1, H2.
  apply orb_false_intro; [apply andb_false_intro2|]; 
    [apply N.leb_gt|apply N.eqb_neq]; lia.
Qed.

Lemma digit_not_underscore (c : char) :
  is_ascii_digit c = true -> negb (c =? 95) = true.
Proof.
  unfold is_ascii_digit; intros H.
  apply andb_prop in H as [H1 H2]. apply N.leb_le in H1, H2.
  apply negb_true_iff, N.eqb_neq; lia.
Qed.

(** Trimming leaves a text whose ends are not blank as it is. *)
Lemma trim_fixed (s : text) :
  match s with [] => True | c :: _ => is_ascii_space c = false end ->
  match rev s with [] => True | c :: _ => is_ascii_space c = false end ->
  trim s = s.
Proof.
  intros Hf Hl. unfold trim.
  assert (E1 : Str.dropwhile is_ascii_space s = s).
  { destruct s as [|c t]; [reflexivity|now apply dropwhile_head]. }
  rewrite E1.
  destruct (rev s) as [|c t] eqn:E2.
  - simpl. rewrite <- (rev_involutive s), E2; reflexivity.
  - rewrite dropwhile_head by exact Hl.
    rewrite <- E2; apply rev_involutive.
Qed.

Lemma underscores_ok_none (s : text) :
  forall prev, negb (prev =? 95) = true ->
  forallb (fun c => negb (c =? 95)) s = true ->
  underscores_ok prev s = true.
Proof.
  induction s as [|c s IH]; simpl; intros prev Hp Hs; [exact Hp|].
  apply andb_prop in Hs as [Hc Hs].
  rewrite (IH c Hc Hs), andb_true_r.
  apply negb_true_iff in Hc; rewrite Hc. now rewrite Hp.
Qed.

Lemma drop_underscores_none (s : text) :
  forallb (fun c => negb (c =? 95)) s = true -> drop_underscores s = s.
Proof.
  unfold drop_underscores. induction s as [|c s IH]; simpl; [reflexivity|].
  intros H; apply andb_prop in H as [Hc Hs]. now rewrite Hc, IH.
Qed.

Lemma forallb_impl (p q : char -> bool) (s : text) :
  (forall c, p c = true -> q c = true) ->
  forallb p s = true -> forallb q s = true.
Proof.
  intros Hpq H. rewrite forallb_forall in *. auto.
Qed.

(** The grammar accepts digits, a point, digits. *)
Lemma parse_digits_point_digits (neg : bool) (D1 D2 : text) :
  D1 <> [] ->
  forallb is_ascii_digit D1 = true ->
  forallb is_ascii_digit D2 = true ->
  exists f, parse ((if neg then [45] else []) ++ D1 ++ [46] ++ D2) = Some f.
Proof.
  intros Hne H1 H2. unfold parse.
  assert (Es : parse_sign ((if neg then [45] else []) ++ D1 ++ [46] ++ D2)
               = (neg, D1 ++ [46] ++ D2)).
  { destruct neg; [reflexivity|].
    destruct D1 as [|c D1]; [congruence|]. simpl in *.
    apply andb_prop in H1 as [Hc _]. unfold is_ascii_digit in Hc.
    apply andb_prop in Hc as [Hc1 Hc2]. apply N.leb_le in Hc1, Hc2.
    destruct (N.eqb_spec c 45); [lia|]. destruct (N.eqb_spec c 43); [lia|].
    reflexivity. }
  rewrite Es.
  rewrite (span_digits_app D1 ([46] ++ D2) H1) by reflexivity.
  cbn [app]. rewrite N.eqb_refl.
  pose proof (span_digits_app D2 [] H2 I) as E2.
  rewrite app_nil_r in E2. rewrite E2.
  destruct D1 as [|c D1]; [congruence|]. cbn [app parse_exponent].
  eauto.
Qed.

Theorem float_of_decimal_text (g : text) :
  decimal_text g -> exists f, of_text g = Some f.
Proof.
  intros (sgn & d1 & d2 & -> & Hs & Hn1 & Hn2 & H1 & H2).
  destruct (to_ascii_digits d1 H1) as (D1 & HD1 & HL1 & HE1).
  destruct (to_ascii_digits d2 H2) as (D2 & HD2 & HL2 & HE2).
  assert (N1 : D1 <> []).
  { intros ->; destruct d1; [congruence|discriminate]. }
  assert (N2 : D2 <> []).
  { intros ->; destruct d2; [congruence|discriminate]. }
  set (neg := match sgn with [] => false | _ => true end).
  assert (Ea : to_ascii (sgn ++ d1 ++ [46] ++ d2)
               = (if neg then [45] else []) ++ D1 ++ [46] ++ D2).
  { assert (E : to_ascii (d1 ++ [46] ++ d2) = D1 ++ [46] ++ D2).
    { rewrite HE1. cbn [app to_ascii]. change (46 <? 128) with true.
      cbn iota. rewrite <- (app_nil_r d2), HE2. cbn [to_ascii].
      now rewrite app_nil_r. }
    destruct Hs as [-> | ->]; subst neg; [exact E|].
    change ([45] ++ d1 ++ [46] ++ d2) with (45 :: (d1 ++ [46] ++ d2)).
    cbn [to_ascii]. change (45 <? 128) with true. cbn iota.
    now rewrite E. }
  set (a := (if neg then [45] else []) ++ D1 ++ [46] ++ D2) in *.
  assert (Hclean : forallb (fun c => negb (c =? 95)) a = true).
  { subst a. rewrite !forallb_app.
    repeat (apply andb_true_intro; split); try reflexivity.
    - now destruct neg.
    - exact (forallb_impl _ _ D1 digit_not_underscore HD1).
    - exact (forallb_impl _ _ D2 digit_not_underscore HD2). }
  assert (Hfirst : match a with [] => True | c :: _ => is_ascii_space c = false end).
  { subst a. destruct neg; [reflexivity|].
    destruct D1 as [|c D1]; [congruence|]. simpl in HD1.
    apply andb_prop in HD1 as [Hc _]. now apply digit_not_space. }
  assert (Hlast : match rev a with [] => True | c :: _ => is_ascii_space c = false end).
  { subst a. destruct (exists_last N2) as (D2' & x & ->).
    rewrite !app_assoc, rev_app_distr. simpl.
    rewrite forallb_app in HD2. apply andb_prop in HD2 as [_ Hx].
    simpl in Hx. rewrite andb_true_r in Hx. now apply digit_not_space. }
  unfold of_text. rewrite Ea, (trim_fixed a Hfirst Hlast).
  rewrite (underscores_ok_none a 0 eq_refl Hclean).
  rewrite (drop_underscores_none a Hclean).
  subst a. now apply parse_digits_point_digits.
Qed.

End FloatFacts.


(* ===================================================================== *)
(** * Part III. The script                                                *)
(* ===================================================================== *)

(** ** What the groups of the numeric patterns hold *)

Section Groups.
Import Re Pattern.

Lemma ascii_digits_decimal (w : text) :
  forallb (cmatch ascii_digit) w = true ->
  forallb Unicode.is_decimal w = true.
Proof.
  apply forallb_impl. intros c H. unfold ascii_digit in H; simpl in H.
  apply andb_prop in H as [H1 H2]. apply N.leb_le in H1, H2.
  unfold Unicode.is_decimal. now rewrite ascii_digit_decimal.
Qed.

Lemma nonempty_length (w : text) : 1 <= length w -> w <> [].
Proof. destruct w; simpl; [lia|discriminate]. Qed.

(** [-?\d+\.\d+] *)
Lemma signed_decimal_shape (s gs s' gs' : _) :
  denote (cat [ROpt (CChar 45%N); plus CDigit; lit "."; plus CDigit])
         s gs s' gs' ->
  gs' = gs /\ exists g, s = g ++ s' /\ decimal_text g.
Proof.
  intros H. cbn [denote cat lit plus] in H.
  destruct H as (s1 & gs1 & [Hopt ->] & s2 & gs2 & (d1 & -> & Hd1 & Hn1 & ->)
                 & s3 & gs3 & [-> ->] & d2 & -> & Hd2 & Hn2 & ->).
  split; [reflexivity|].
  destruct Hopt as [->|(c & -> & Hc)].
  - exists ([] ++ d1 ++ T "." ++ d2); split.
    + now rewrite <- !app_assoc.
    + exists [], d1, d2; repeat split; auto using nonempty_length.
  - simpl in Hc; apply N.eqb_eq in Hc; subst c.
    exists ([45%N] ++ d1 ++ T "." ++ d2); split.
    + now rewrite <- !app_assoc.
    + exists [45%N], d1, d2; repeat split; auto using nonempty_length.
Qed.

(** [[0-9]+\.\d+] *)
Lemma unsigned_decimal_shape (s gs s' gs' : _) :
  denote (cat [plus ascii_digit; lit "."; plus CDigit]) s gs s' gs' ->
  gs' = gs /\ exists g, s = g ++ s' /\ decimal_text g
                        /\ Forall (fun c => c <> 84%N) g.
Proof.
  intros H. cbn [denote cat lit plus] in H.
  destruct H as (s2 & gs2 & (d1 & -> & Hd1 & Hn1 & ->)
                 & s3 & gs3 & [-> ->] & d2 & -> & Hd2 & Hn2 & ->).
  split; [reflexivity|].
  exists ([] ++ d1 ++ T "." ++ d2); split; [|split].
  - now rewrite <- !app_assoc.
  - exists [], d1, d2; repeat split;
      auto using nonempty_length, ascii_digits_decimal.
  - apply ascii_digits_decimal in Hd1.
    rewrite forallb_forall in Hd1, Hd2.
    apply Forall_forall. intros c Hc -> .
    simpl in Hc. rewrite in_app_iff in Hc. simpl in Hc.
    destruct Hc as [Hc|[Hc|Hc]]; [|discriminate|].
    + now apply Hd1 in Hc.
    + now apply Hd2 in Hc.
Qed.

Lemma group_is_consumed (i : nat) (r : regex) (s gs s' gs' : _) (g : text) :
  denote (RGroup i r) s gs s' gs' -> s = g ++ s' ->
  exists gs1, gs' = (i, g) :: gs1 /\ denote r s gs s' gs1.
Proof.
  cbn [denote]. intros (g' & gs1 & E & Hd & ->) E'.
  rewrite E in E'. apply app_inv_tail in E'. subst g'. now exists gs1.
Qed.

(** The first group of a match of the heat-of-formation pattern. *)
Lemma heat_of_formation_group (b : bool) (s : text) (m : match_obj) :
  match_at b heat_of_formation s = Some m ->
  exists g, group m 1 = PyStr g /\ decimal_text g.
Proof.
  intros H. apply match_at_sound in H. unfold heat_of_formation in H.
  cbn [cat] in H. 
  destruct H as (s1 & gs1 & [-> ->] & s2 & gs2 & (w & -> & _ & _ & ->) & H).
  destruct H as (g & gs3 & E & Hd & Hg).
  apply signed_decimal_shape in Hd as [-> (g' & E' & Hdec)].
  rewrite E in E'. apply app_inv_tail in E'. subst g'.
  exists g; split; [|exact Hdec].
  unfold group; rewrite Hg; reflexivity.
Qed.

Lemma total_energy_group (b : bool) (s : text) (m : match_obj) :
  match_at b total_energy s = Some m ->
  exists g, group m 1 = PyStr g /\ decimal_text g.
Proof.
  intros H. apply match_at_sound in H. unfold total_energy in H.
  cbn [cat] in H.
  destruct H as (s1 & gs1 & [-> ->] & s2 & gs2 & (w & -> & _ & _ & ->)
                 & s3 & gs3 & [-> ->] & s4 & gs4 & (w' & -> & _ & _ & ->) & H).
  destruct H as (g & gs5 & E & Hd & Hg).
  apply signed_decimal_shape in Hd as [-> (g' & E' & Hdec)].
  rewrite E in E'. apply app_inv_tail in E'. subst g'.
  exists g; split; [|exact Hdec].
  unfold group; rewrite Hg; reflexivity.
Qed.

Lemma bond_length_group (b : bool) (s : text) (m : match_obj) :
  match_at b bond_length s = Some m ->
  exists g, group m 1 = PyStr g /\ decimal_text g.
Proof.
  intros H. apply match_at_sound in H. unfold bond_length in H.
  cbn [cat] in H.
  destruct H as (s1 & gs1 & [-> ->] & s2 & gs2 & (w1 & -> & _ & _ & ->)
                 & s3 & gs3 & [-> ->] & s4 & gs4 & (w2 & -> & _ & _ & ->)
                 & s5 & gs5 & (w3 & -> & _ & _ & ->)
                 & s6 & gs6 & (w4 & -> & _ & _ & ->)
                 & s7 & gs7 & (w5 & -> & _ & _ & ->)
                 & s8 & gs8 & (w6 & -> & _ & _ & ->)
                 & s9 & gs9 & (g & gs10 & E & Hd & ->)
                 & s10 & gs11 & (w7 & -> & _ & _ & ->) & [-> Hg]).
  apply unsigned_decimal_shape in Hd as [-> (g' & E' & Hdec & _)].
  rewrite E in E'. apply app_inv_tail in E'. subst g'.
  exists g; split; [|exact Hdec].
  unfold group; rewrite Hg; reflexivity.
Qed.

(** A match of the wall-clock pattern: the literal, blanks, the
    decimal. *)
Lemma wall_clock_time_shape (b : bool) (s : text) (m : match_obj) :
  match_at b wall_clock_time s = Some m ->
  exists w g,
    s = T "TOTAL WALL CLOCK TIME=" ++ w ++ g ++ after m
    /\ forallb Unicode.is_space w = true
    /\ decimal_text g /\ Forall (fun c => c <> 84%N) g
    /\ group m 1 = PyStr g.
Proof.
  intros H. apply match_at_sound in H. unfold wall_clock_time in H.
  cbn [cat] in H.
  destruct H as (s1 & gs1 & [-> ->] & s2 & gs2 & (w & -> & Hw & _ & ->) & H).
  destruct H as (g & gs3 & E & Hd & Hg).
  apply unsigned_decimal_shape in Hd as [-> (g' & E' & Hdec & H84)].
  rewrite E in E'. apply app_inv_tail in E'. subst g'.
  exists w, g; repeat split; auto.
  - unfold lit. now rewrite E.
  - unfold group; rewrite Hg; reflexivity.
Qed.

End Groups.

(** ** The extractors return, a float or [None] *)

Section Extractors.

Lemma py_float_decimal_text (g : text) :
  decimal_text g -> exists f, py_float (PyStr g) = Returns (PyFloat f).
Proof.
  intros H; destruct (float_of_decimal_text g H) as [f E].
  exists f; simpl; now rewrite E.
Qed.

Lemma extract_heat_of_formation_total (text : text) :
  match Re.search Pattern.heat_of_formation text with
  | None => extract_heat_of_formation text = Returns PyNone
  | Some _ => exists f, extract_heat_of_formation text = Returns (PyFloat f)
  end.
Proof.
  unfold extract_heat_of_formation.
  destruct (Re.search _ text) as [m|] eqn:E; [|reflexivity].
  apply search_sound in E as (pre & s0 & _ & E).
  apply heat_of_formation_group in E as (g & -> & Hg).
  now apply py_float_decimal_text.
Qed.

Lemma extract_total_energy_total (text : text) :
  match Re.search Pattern.total_energy text with
  | None => extract_total_energy text = Returns PyNone
  | Some _ => exists f, extract_total_energy text = Returns (PyFloat f)
  end.
Proof.
  unfold extract_total_energy.
  destruct (Re.search _ text) as [m|] eqn:E; [|reflexivity].
  apply search_sound in E as (pre & s0 & _ & E).
  apply total_energy_group in E as (g & -> & Hg).
  now apply py_float_decimal_text.
Qed.

Lemma extract_bond_length_total (text : text) :
  match Re.search Pattern.bond_length text with
  | None => extract_bond_length text = Returns PyNone
  | Some _ => exists f, extract_bond_length text = Returns (PyFloat f)
  end.
Proof.
  unfold extract_bond_length.
  destruct (Re.search _ text) as [m|] eqn:E; [|reflexivity].
  apply search_sound in E as (pre & s0 & _ & E).
  apply bond_length_group in E as (g & -> & Hg).
  now apply py_float_decimal_text.
Qed.

End Extractors.


(** ** [run_time]: the matches of [findall] are all the occurrences *)

Section RunTime.
Import Re Pattern.

Lemma space_not_T (c : char) : Unicode.is_space c = true -> c <> 84%N.
Proof. intros H ->; discriminate. Qed.

(** Inside a match of the wall-clock pattern the literal does not start
    again. *)
Lemma no_start_inside (body rest : text) (i : nat) :
  Forall (fun c => c <> 84%N) body ->
  1 <= i -> i < 22 + length body ->
  Str.startswith (T "TOTAL WALL CLOCK TIME=")
                 (skipn i (T "TOTAL WALL CLOCK TIME=" ++ body ++ rest)) = false.
Proof.
  intros Hb H1 H2.
  do 22 (destruct i as [|i]; [try lia; vm_compute; reflexivity|]).
  change (skipn _ _) with (skipn i (body ++ rest)).
  assert (Hi : i < length body) by lia.
  clear H1 H2. revert i Hi.
  induction Hb as [|c body Hc Hb IH]; intros i Hi; simpl in Hi; [lia|].
  destruct i as [|i].
  - change (T "TOTAL WALL CLOCK TIME=")
      with (84%N :: T "OTAL WALL CLOCK TIME=").
    cbn [skipn app Str.startswith].
    destruct (N.eqb_spec 84 c); [congruence|reflexivity].
  - apply IH; lia.
Qed.

Lemma wall_clock_time_consumes (s : text) (m : match_obj) :
  match_at false wall_clock_time s = Some m ->
  length (after m) < length s
  /\ forall i, 1 <= i -> i < length s - length (after m) ->
               match_at false wall_clock_time (skipn i s) = None.
Proof.
  intros H.
  apply wall_clock_time_shape in H as (w & g & E & Hw & _ & Hg & _).
  assert (L : length s = 22 + length (w ++ g) + length (after m)).
  { rewrite E, !length_app. simpl. lia. }
  split; [lia|].
  intros i H1 H2. unfold wall_clock_time; cbn [cat].
  apply match_at_lit. rewrite E.
  rewrite (app_assoc w g). apply no_start_inside; [|exact H1|lia].
  apply Forall_app; split; [|exact Hg].
  apply Forall_forall; intros c Hc. apply space_not_T.
  rewrite forallb_forall in Hw; auto.
Qed.

(** [findall] from a place inside the previous match, when no occurrence
    starts in the part that is skipped. *)
Lemma findall_from_occurrences :
  forall s n,
    n <= length s ->
    (forall i, i < n -> match_at false wall_clock_time (skipn i s) = None) ->
    findall_from wall_clock_time n s = occurrences wall_clock_time s.
Proof.
  induction s as [|c s IH]; intros n Hn Hskip.
  - cbn [length] in Hn. assert (n = 0) as -> by lia.
    cbn [findall_from occurrences].
    destruct (match_at false wall_clock_time []) as [m|] eqn:E;
      [|reflexivity].
    apply wall_clock_time_consumes in E as [E _]; cbn [length] in E; lia.
  - destruct n as [|n].
    + cbn [findall_from occurrences].
      destruct (match_at false wall_clock_time (c :: s)) as [m|] eqn:E.
      * destruct (wall_clock_time_consumes _ _ E) as [Hlt Hno].
        destruct (Nat.eqb_spec (length (after m)) (length (c :: s))); [lia|].
        cbn [app]. f_equal.
        cbn [length] in *.
        apply IH; [lia|].
        intros i Hi. apply (Hno (S i)); lia.
      * cbn [app]. apply (IH 0); [lia|]. intros i Hi; lia.
    + cbn [findall_from occurrences].
      pose proof (Hskip 0 ltac:(lia)) as H0. cbn [skipn] in H0.
      rewrite H0. cbn [app].
      apply IH; [cbn [length] in Hn; lia|].
      intros i Hi. apply (Hskip (S i)). lia.
Qed.

Theorem findall_wall_clock_time (s : text) :
  findall wall_clock_time s = occurrences wall_clock_time s.
Proof.
  apply findall_from_occurrences; [lia|]. intros i Hi; lia.
Qed.

(** Every occurrence is the text of a decimal. *)
Lemma occurrences_wall_clock_time (s : text) :
  Forall (fun v => exists g, v = PyStr g /\ decimal_text g)
         (occurrences wall_clock_time s).
Proof.
  induction s as [|c s IH]; cbn [occurrences].
  - destruct (match_at false wall_clock_time []) as [m|] eqn:E;
      [|constructor].
    apply wall_clock_time_consumes in E as [E _]; cbn [length] in E; lia.
  - apply Forall_app; split; [|exact IH].
    destruct (match_at false wall_clock_time (c :: s)) as [m|] eqn:E;
      [|constructor].
    apply wall_clock_time_shape in E as (w & g & _ & _ & Hg & _ & Eg).
    constructor; [|constructor]. now exists g.
Qed.

End RunTime.


(** ** The input-echo line *)

Section InputCard.
Import Re Pattern.

Lemma stops_app (p : char -> bool) (u v : text) :
  stops p u -> (u = [] -> stops p v) -> stops p (u ++ v).
Proof. destruct u; simpl; auto. Qed.

(** A text falls into leading blanks, its [strip] and trailing blanks;
    when the [strip] is empty, so are the trailing blanks. *)
Lemma strip_parts (s : text) :
  exists l r, s = l ++ Str.strip s ++ r
              /\ forallb Unicode.is_space l = true
              /\ forallb Unicode.is_space r = true
              /\ (Str.strip s = [] -> r = []).
Proof.
  unfold Str.strip, Str.rstrip, Str.lstrip.
  destruct (dropwhile_split Unicode.is_space s) as [l [El Hl]].
  pose proof (dropwhile_starts Unicode.is_space s) as Hs.
  set (s1 := Str.dropwhile Unicode.is_space s) in *.
  destruct (dropwhile_split Unicode.is_space (rev s1)) as [r [Er Hr]].
  set (s2 := Str.dropwhile Unicode.is_space (rev s1)) in *.
  assert (E1 : s1 = rev s2 ++ rev r).
  { rewrite <- rev_app_distr, <- Er. now rewrite rev_involutive. }
  assert (Hr' : forallb Unicode.is_space (rev r) = true).
  { rewrite forallb_forall in *; intros c Hc; apply Hr; now apply in_rev. }
  exists l, (rev r); repeat split; auto.
  - rewrite El at 1. now rewrite E1.
  - intros E2. rewrite E2 in E1. simpl in E1.
    destruct s1 as [|c t]; [now rewrite <- E1|].
    rewrite <- E1 in Hr'. simpl in Hr'. now rewrite Hs in Hr'.
Qed.

(** Past blanks, inside a text that ends with a character that is not
    blank, stands a character of that text. *)
Lemma stop_inside (p : char -> bool) (z : char) :
  p z = false ->
  forall u rest w s,
    (u ++ [z]) ++ rest = w ++ s -> forallb p w = true ->
    exists c t, s = c :: t /\ In c (u ++ [z]).
Proof.
  intros Hz. induction u as [|a u IH]; intros rest w s E Hw.
  - destruct w as [|b w]; simpl in *.
    + exists z, rest; split; auto.
    + injection E as <- _. apply andb_prop in Hw as [Hb _]. congruence.
  - destruct w as [|b w]; simpl in *.
    + exists a, ((u ++ [z]) ++ rest); split; auto.
    + injection E as <- E. apply andb_prop in Hw as [_ Hw].
      destruct (IH _ _ _ E Hw) as (c & t & -> & Hc). exists c, t; auto.
Qed.

Lemma ends_not_blank (u : text) :
  u <> [] ->
  match rev u with [] => True | c :: _ => Unicode.is_space c = false end ->
  exists u' z, u = u' ++ [z] /\ Unicode.is_space z = false.
Proof.
  intros Hne Hl. destruct (exists_last Hne) as (u' & z & ->).
  rewrite rev_app_distr in Hl. simpl in Hl. now exists u', z.
Qed.

Lemma forallb_parts (p : char -> bool) (a b c : text) :
  forallb p (a ++ b ++ c) = true ->
  forallb p a = true /\ forallb p b = true /\ forallb p c = true.
Proof.
  rewrite !forallb_app. intros H.
  apply andb_prop in H as [Ha H]. apply andb_prop in H as [Hb Hc]. auto.
Qed.

Lemma plain_dot (s : text) :
  forallb plain s = true -> forallb (cmatch (CDot false)) s = true.
Proof.
  apply forallb_impl. intros c H. unfold plain in H.
  apply andb_prop in H as [_ H]. exact H.
Qed.

Lemma not_newline_dot (s : text) :
  forallb not_newline s = true -> forallb (cmatch (CDot false)) s = true.
Proof. apply forallb_impl. intros c H. exact H. Qed.

Lemma last_of_suffix (u w1 w2 : text) :
  u = w1 ++ w2 -> w2 <> [] ->
  match rev u with [] => True | c :: _ => Unicode.is_space c = false end ->
  exists u' z, w2 = u' ++ [z] /\ Unicode.is_space z = false.
Proof.
  intros -> Hne Hl. destruct (exists_last Hne) as (u' & z & ->).
  rewrite !rev_app_distr in Hl. simpl in Hl. now exists u', z.
Qed.

(** Blanks cannot lead out of a piece that ends with a character that is
    not blank: the rest of the pattern is tried inside the piece only. *)
Lemma inside_fails (A : Type) (cont : text -> option A) (u w1 w2 rest : text) :
  u = w1 ++ w2 -> w2 <> [] ->
  match rev u with [] => True | c :: _ => Unicode.is_space c = false end ->
  (forall c t, In c u -> cont (c :: t) = None) ->
  rep_greedy CSpace 0 (w2 ++ rest) cont = None.
Proof.
  intros E Hne Hl Hfail.
  destruct (last_of_suffix u w1 w2 E Hne Hl) as (u' & z & -> & Hz).
  apply rep_greedy_none. intros w s' E' Hw.
  destruct (stop_inside Unicode.is_space z Hz u' rest w s' E' Hw)
    as (c & t & -> & Hc).
  apply Hfail. rewrite E. apply in_or_app; now right.
Qed.

Lemma pipe_fails (A : Type) (c : char) (t : text) (k : text -> option A) :
  plain c = true ->
  match Str.strip_prefix (T "|") (c :: t) with
  | Some s' => k s'
  | None => None
  end = None.
Proof.
  unfold plain; intros H. apply andb_prop in H as [H _].
  apply negb_true_iff in H. change (T "|") with [124%N].
  cbn [Str.strip_prefix]. rewrite N.eqb_sym. now rewrite H.
Qed.

Theorem input_card_line (m x y post : text) :
  forallb plain m = true ->
  forallb plain x = true ->
  forallb not_newline y = true ->
  Str.strip y <> [] ->
  at_eol true post = true ->
  yields (fun mo => groups mo = [(2, Str.strip y); (1, Str.strip m)])
         (match_at false input_card
                   (T "INPUT CARD>!" ++ m ++ T "|" ++ x ++ T "|" ++ y ++ post)).
Proof.
  intros Hm Hx Hy Hne Hpost.
  destruct (strip_parts m) as (lm & rm & Em & Hlm & Hrm & Hm0).
  destruct (dropwhile_split Unicode.is_space x) as (lx & Ex & Hlx).
  pose proof (dropwhile_starts Unicode.is_space x) as Hx0.
  destruct (strip_parts y) as (ly & ry & Ey & Hly & Hry & _).
  pose proof (strip_first m) as Hmf. pose proof (strip_last m) as Hml.
  pose proof (strip_first y) as Hyf. pose proof (strip_last y) as Hyl.
  set (um := Str.strip m) in *. set (uy := Str.strip y) in *.
  set (ux := Str.dropwhile Unicode.is_space x) in *.
  rewrite Em in Hm. rewrite Ex in Hx. rewrite Ey in Hy.
  apply forallb_parts in Hm as (_ & Hum & _).
  rewrite forallb_app in Hx. apply andb_prop in Hx as [_ Hux].
  apply forallb_parts in Hy as (_ & Huy & _).
  rewrite Em, Ex, Ey. rewrite <- !app_assoc.
  unfold match_at, input_card.
  cbn [cat run lit star star_lazy andb].
  rewrite strip_prefix_app.
  (* \s* : the blanks before the molecule *)
  apply yields_greedy; [exact Hlm| |cbn [length]; lia|].
  { apply stops_app; [exact Hmf|]. intros E0. rewrite (Hm0 E0). exact eq_refl. }
  (* (.*?) : the molecule *)
  apply yields_lazy; [now apply plain_dot| |].
  { intros w1 w2 E Hw2.
    apply (inside_fails _ _ um w1 w2 _ E Hw2 Hml).
    intros c t Hc. apply pipe_fails.
    rewrite forallb_forall in Hum; auto. }
  rewrite firstn_consumed.
  (* \s*\| *)
  apply yields_greedy; [exact Hrm|exact eq_refl|cbn [length]; lia|].
  rewrite strip_prefix_app.
  (* \s*.*?\| *)
  apply yields_greedy; [exact Hlx| |cbn [length]; lia|].
  { apply stops_app; [exact Hx0|]. intros _. exact eq_refl. }
  apply yields_lazy; [now apply plain_dot| |].
  { intros w1 w2 E Hw2. destruct w2 as [|c t]; [congruence|].
    rewrite <- app_comm_cons. apply pipe_fails.
    rewrite forallb_forall in Hux. apply Hux. rewrite E.
    apply in_or_app; right; now left. }
  rewrite strip_prefix_app.
  (* \s*(.*?) : the method and the basis *)
  apply yields_greedy; [exact Hly| |cbn [length]; lia|].
  { apply stops_app; [exact Hyf|]. intros E0. congruence. }
  apply yields_lazy; [now apply not_newline_dot| |].
  { intros w1 w2 E Hw2.
    apply (inside_fails _ _ uy w1 w2 _ E Hw2 Hyl).
    intros c t Hc. rewrite forallb_forall in Huy. specialize (Huy c Hc).
    unfold not_newline in Huy. apply negb_true_iff in Huy.
    cbn [at_eol]. now rewrite Huy. }
  rewrite firstn_consumed.
  (* \s*$ *)
  apply yields_greedy_any; [exact Hry|cbn [length]; lia| |].
  - rewrite Hpost. eauto.
  - intros s' a H. destruct (at_eol true s'); [|discriminate].
    now injection H as <-.
Qed.

End InputCard.


(** ** [split] *)

Section SplitFacts.
Import Str.

Lemma split_nonempty (sep : char) (k : option nat) (s : text) :
  split sep k s <> [].
Proof.
  destruct s as [|c s]; simpl; [discriminate|].
  destruct (c =? sep)%N.
  - destruct k as [[|n]|]; discriminate.
  - destruct (split sep k s); discriminate.
Qed.

Lemma split_zero (sep : char) (s : text) : split sep (Some 0) s = [s].
Proof.
  induction s as [|c s IH]; simpl; [reflexivity|].
  destruct (c =? sep)%N; [reflexivity|]. now rewrite IH.
Qed.

(** With [maxsplit = 1] the text is cut at its first separator. *)
Lemma split_once (sep : char) (a b : text) :
  ~ In sep a -> split sep (Some 1) (a ++ sep :: b) = [a; b].
Proof.
  induction a as [|c a IH]; simpl; intros H.
  - now rewrite N.eqb_refl, split_zero.
  - destruct (N.eqb_spec c sep) as [->|Hc]; [tauto|].
    rewrite IH by tauto. reflexivity.
Qed.

(** The pieces put together with the separator give the text back. *)
Lemma join_split (sep : char) (s : text) : join sep (split sep None s) = s.
Proof.
  induction s as [|c s IH]; simpl; [reflexivity|].
  destruct (N.eqb_spec c sep) as [->|Hc].
  - pose proof (split_nonempty sep None s) as Hne.
    destruct (split sep None s) as [|p ps]; [congruence|].
    cbn [join app]. cbn [join] in IH. now rewrite IH.
  - pose proof (split_nonempty sep None s) as Hne.
    destruct (split sep None s) as [|p ps]; [congruence|].
    destruct ps as [|q ps]; cbn [join] in *; [now rewrite IH|].
    rewrite <- app_comm_cons. now rewrite IH.
Qed.

(** No piece holds the separator. *)
Lemma split_pieces (sep : char) (s : text) :
  Forall (fun p => ~ In sep p) (split sep None s).
Proof.
  induction s as [|c s IH]; simpl; [constructor; auto|].
  destruct (N.eqb_spec c sep) as [->|Hc].
  - constructor; auto.
  - destruct (split sep None s) as [|p ps]; [constructor; [|constructor]|].
    + simpl; intros [E|[]]; congruence.
    + inversion IH as [|? ? Hp Hps]; subst. constructor; [|exact Hps].
      simpl; intros [E|E]; [congruence|tauto].
Qed.

(** One piece more than there are separators. *)
Lemma split_length (sep : char) (s : text) :
  length (split sep None s) = S (count_occ N.eq_dec s sep).
Proof.
  induction s as [|c s IH]; simpl; [reflexivity|].
  destruct (N.eqb_spec c sep) as [->|Hc].
  - destruct (N.eq_dec sep sep); [|congruence]. simpl. now rewrite IH.
  - destruct (N.eq_dec c sep); [congruence|].
    pose proof (split_nonempty sep None s) as Hne.
    destruct (split sep None s) as [|p ps]; [congruence|]. exact IH.
Qed.

Lemma contains_char (c : char) (s : text) :
  contains [c] s = true <-> In c s.
Proof.
  induction s as [|b s IH]; simpl; [split; [discriminate|tauto]|].
  rewrite orb_true_iff, andb_true_r, IH, N.eqb_eq. intuition congruence.
Qed.

Lemma in_split_first (c : char) (s : text) :
  In c s -> exists a b, s = a ++ c :: b /\ ~ In c a.
Proof.
  induction s as [|x s IH]; simpl; [tauto|].
  destruct (N.eq_dec x c) as [->|Hx].
  - intros _. exists [], s; auto.
  - intros [E|H]; [congruence|].
    destruct (IH H) as (a & b & -> & Ha). exists (x :: a), b; split; auto.
    simpl; tauto.
Qed.

(** Before the first occurrence of [sub], [sub] does not start. *)
Lemma find_first (sub : text) :
  forall pre s,
    find sub (pre ++ s) = Some (length pre) ->
    forall p1 p2, pre = p1 ++ p2 -> p2 <> [] ->
                  startswith sub (p2 ++ s) = false.
Proof.
  induction pre as [|c pre IH]; intros s H p1 p2 E Hne.
  - destruct p1, p2; simpl in E; congruence.
  - cbn [app find length] in H.
    destruct (startswith sub (c :: pre ++ s)) eqn:Hs; [discriminate|].
    destruct (find sub (pre ++ s)) as [n|] eqn:Hf; [|discriminate].
    simpl in H. injection H as ->.
    destruct p1 as [|c' p1]; simpl in E.
    + subst p2. exact Hs.
    + injection E as <- E. now apply (IH s Hf p1 p2).
Qed.

End SplitFacts.


(** ** The two parsers of the metadata *)

Section Parsers.

(** The cut of the method/basis segment at its first [/]. *)
Lemma method_basis_cut (mb : text) :
  (exists a b, mb = a ++ [47%N] ++ b /\ ~ In 47%N a
               /\ (if Str.contains (T "/") mb
                   then unpack2 (Str.split 47%N (Some 1) mb)
                   else Returns (mb, T "Unknown")) = Returns (a, b))
  \/ (~ In 47%N mb
      /\ (if Str.contains (T "/") mb
          then unpack2 (Str.split 47%N (Some 1) mb)
          else Returns (mb, T "Unknown")) = Returns (mb, T "Unknown")).
Proof.
  change (T "/") with [47%N].
  destruct (Str.contains [47%N] mb) eqn:E.
  - left. apply contains_char, in_split_first in E as (a & b & -> & Ha).
    exists a, b; repeat split; auto.
    cbn [app]. now rewrite split_once.
  - right. split; [|reflexivity].
    intros H. apply (proj2 (contains_char _ _)) in H.
    exact (eq_true_false_abs _ H E).
Qed.

(** What the fallback parser makes of the two groups of a match. *)
Lemma fallback_of_groups (log : text) (mo : Re.match_obj) (g1 g2 : text) :
  Re.search Pattern.input_card log = Some mo ->
  Re.group mo 1 = PyStr g1 -> Re.group mo 2 = PyStr g2 ->
  exists method basis,
    fallback_parse_input_section log
    = Returns (PyStr (Str.strip g1), PyStr (T "Unknown"),
               PyStr (Str.strip basis), PyStr (Str.strip method))
    /\ ((exists a b, Str.strip g2 = a ++ [47%N] ++ b /\ ~ In 47%N a
                     /\ method = a /\ basis = b)
        \/ (~ In 47%N (Str.strip g2)
            /\ method = Str.strip g2 /\ basis = T "Unknown")).
Proof.
  intros Hs H1 H2. unfold fallback_parse_input_section.
  rewrite Hs, H1, H2. cbn [py_strip rbind].
  destruct (method_basis_cut (Str.strip g2))
    as [(a & b & E & Ha & ->)|(Hn & ->)]; cbn [rbind try_except].
  - exists a, b; split; [reflexivity|]. left; now exists a, b.
  - exists (Str.strip g2), (T "Unknown"); split; [reflexivity|]. now right.
Qed.

(** Both groups take part in every match of the input-card pattern. *)
Lemma input_card_groups (b : bool) (s : text) (mo : Re.match_obj) :
  Re.match_at b Pattern.input_card s = Some mo ->
  exists g1 g2, Re.groups mo = [(2, g2); (1, g1)].
Proof.
  intros H. apply match_at_sound in H. unfold Pattern.input_card in H.
  cbn [Pattern.cat Pattern.lit Pattern.star Pattern.star_lazy Re.denote] in H.
  destruct H as (s1 & gs1 & [_ ->] & s2 & gs2 & (w1 & _ & _ & _ & ->)
                 & s3 & gs3 & (g1 & gs3' & _ & (w2 & _ & _ & _ & ->) & ->)
                 & s4 & gs4 & (w3 & _ & _ & _ & ->)
                 & s5 & gs5 & [_ ->]
                 & s6 & gs6 & (w4 & _ & _ & _ & ->)
                 & s7 & gs7 & (w5 & _ & _ & _ & ->)
                 & s8 & gs8 & [_ ->]
                 & s9 & gs9 & (w6 & _ & _ & _ & ->)
                 & s10 & gs10 & (g2 & gs10' & _ & (w7 & _ & _ & _ & ->) & ->)
                 & s11 & gs11 & (w8 & _ & _ & _ & ->)
                 & _ & Hg & _).
  now exists g1, g2.
Qed.

(** The fallback parser returns: nothing at all, or four texts, each
    with nothing left to strip. *)
Theorem fallback_parse_input_section_total (text : text) :
  fallback_parse_input_section text = Returns all_none
  \/ exists molecule basis method,
       fallback_parse_input_section text
       = Returns (PyStr (Str.strip molecule), PyStr (T "Unknown"),
                  PyStr (Str.strip basis), PyStr (Str.strip method)).
Proof.
  destruct (Re.search Pattern.input_card text) as [mo|] eqn:Hs.
  - right.
    destruct (search_sound _ _ _ Hs) as (pre & s0 & _ & Hm).
    destruct (input_card_groups _ _ _ Hm) as (g1 & g2 & Hg).
    destruct (fallback_of_groups text mo g1 g2 Hs) as (method & basis & E & _).
    + unfold Re.group; now rewrite Hg.
    + unfold Re.group; now rewrite Hg.
    + now exists g1, basis, method.
  - left. unfold fallback_parse_input_section. now rewrite Hs.
Qed.

(** The file-name parser: four pieces, or nothing at all. *)
Theorem parse_filename_cases (file : text) :
  (exists a b c d,
      Str.split 95%N None (stem file) = [a; b; c; d]
      /\ parse_filename file = Returns (PyStr a, PyStr b, PyStr c, PyStr d))
  \/ (length (Str.split 95%N None (stem file)) <> 4
      /\ parse_filename file = Returns all_none).
Proof.
  unfold parse_filename.
  destruct (Str.split 95%N None (stem file)) as [|a [|b [|c [|d [|e l]]]]] eqn:E;
    try (right; split; [simpl; lia|reflexivity]).
  left. exists a, b, c, d; split; reflexivity.
Qed.

End Parsers.


(** ** The main loop *)

Section Loop.

Lemma extract_bond_length_returns (text : text) :
exists v, extract_bond_length text = Returns v
          /\ (v = PyNone \/ exists f, v = PyFloat f).
Proof.
pose proof (extract_bond_length_total text) as H.
destruct (Re.search Pattern.bond_length text); [destruct H as [f H]|]; eauto.
Qed.

Lemma extract_heat_of_formation_returns (text : text) :
exists v, extract_heat_of_formation text = Returns v
          /\ (v = PyNone \/ exists f, v = PyFloat f).
Proof.
pose proof (extract_heat_of_formation_total text) as H.
destruct (Re.search Pattern.heat_of_formation text);
  [destruct H as [f H]|]; eauto.
Qed.

Lemma extract_total_energy_returns (text : text) :
exists v, extract_total_energy text = Returns v
          /\ (v = PyNone \/ exists f, v = PyFloat f).
Proof.
pose proof (extract_total_energy_total text) as H.
destruct (Re.search Pattern.total_energy text);
  [destruct H as [f H]|]; eauto.
Qed.

Lemma run_time_last (text : text) :
run_time text = Returns (last (occurrences Pattern.wall_clock_time text) PyNone).
Proof.
unfold run_time. rewrite findall_wall_clock_time.
now destruct (occurrences Pattern.wall_clock_time text).
Qed.

Lemma last_Forall (A : Type) (P : A -> Prop) (l : list A) (d : A) :
Forall P l -> l <> [] -> P (last l d).
Proof.
induction 1 as [|x l Hx Hl IH]; [congruence|]. intros _.
destruct l as [|y l]; [exact Hx|]. apply IH. discriminate.
Qed.

Lemma run_time_returns (text : text) :
run_time text = Returns PyNone
\/ exists d, run_time text = Returns (PyStr d) /\ decimal_text d.
Proof.
rewrite run_time_last.
pose proof (occurrences_wall_clock_time text) as H.
destruct (occurrences Pattern.wall_clock_time text) as [|v l] eqn:E;
  [now left|right].
destruct (last_Forall _ _ (v :: l) PyNone H) as (d & -> & Hd);
  [discriminate|]. now exists d.
Qed.

(** The metadata come from the file name when it has four pieces, from
  the log otherwise; the trace tells which parsers ran. *)
Lemma resolve_cases (file_name contents : text) (w : world) :
(exists a b c d,
    Str.split 95%N None (stem file_name) = [a; b; c; d]
    /\ resolve file_name contents w
       = (Returns (PyStr a, PyStr b, PyStr c, PyStr d),
          World (results w) (calls w ++ [CallParseFilename])))
\/ (length (Str.split 95%N None (stem file_name)) <> 4
    /\ resolve file_name contents w
       = (fallback_parse_input_section contents,
          World (results w)
                ((calls w ++ [CallParseFilename]) ++ [CallFallback]))).
Proof.
unfold resolve, mbind, invoke.
destruct (parse_filename_cases file_name)
  as [(a & b & c & d & Es & ->)|(Hn & ->)].
- left. exists a, b, c, d; split; [exact Es|reflexivity].
- right. split; [exact Hn|reflexivity].
Qed.

(** [resolve] does not raise, and what it returns does not depend on the
  rows gathered so far. *)
Lemma resolve_returns (file_name contents : text) :
exists m tr, forall w,
    resolve file_name contents w
    = (Returns m, World (results w) (calls w ++ tr)).
Proof.
destruct (resolve_cases file_name contents start)
  as [(a & b & c & d & Es & _)|(Hn & _)].
- exists (PyStr a, PyStr b, PyStr c, PyStr d), [CallParseFilename].
  intros w. destruct (resolve_cases file_name contents w)
    as [(a' & b' & c' & d' & Es' & ->)|(Hn & _)]; [|rewrite Es in Hn; simpl in Hn; lia].
  rewrite Es in Es'. now injection Es' as <- <- <- <-.
- assert (exists m, fallback_parse_input_section contents = Returns m)
    as [m Em].
  { destruct (fallback_parse_input_section_total contents)
      as [->|(x & y & z & ->)]; eauto. }
  exists m, [CallParseFilename; CallFallback].
  intros w. destruct (resolve_cases file_name contents w)
    as [(a' & b' & c' & d' & Es' & _)|(_ & ->)].
  + rewrite Es' in Hn; simpl in Hn; lia.
  + now rewrite Em, <- app_assoc.
Qed.

(** What one turn of the loop does, for a file that is read: the rows it
  adds, and how it ends. Only the turn that appends nothing prints. *)
Lemma loop_body_read (file : log_file) (contents : text) :
read file = Returns contents ->
text_eqb (Str.lower (name file)) (T "readme.txt") = false ->
exists m tr bond heat energy time tr',
  (forall w, resolve (name file) contents w
             = (Returns m, World (results w) (calls w ++ tr)))
  /\ extract_bond_length contents = Returns bond
  /\ extract_heat_of_formation contents = Returns heat
  /\ extract_total_energy contents = Returns energy
  /\ run_time contents = Returns time
  /\ forall w,
      loop_body file w
      = (match classify (Str.contains marker contents)
                        bond heat energy with
         | Rejected =>
             try_except
               (print file [Lit (T "Failed Entirely")])
               (fun _ => print file [Lit (T "error processing");
                                     Field (PyStr (name file))])
         | _ => Returns tt
         end,
         World (results w ++
                match classify (Str.contains marker contents)
                               bond heat energy with
                | Incomplete => [record m bond heat energy time "Incomplete"]
                | Completed => [record m bond heat energy time "Completed"]
                | Rejected => []
                end)
               (calls w ++ tr')).
Proof.
intros Hread Hname.
destruct (resolve_returns (name file) contents) as (m & tr & Hres).
destruct (extract_bond_length_returns contents) as (bond & Hb & _).
destruct (extract_heat_of_formation_returns contents) as (heat & Hh & _).
destruct (extract_total_energy_returns contents) as (energy & He & _).
pose proof (run_time_last contents) as Ht.
set (time := last (occurrences Pattern.wall_clock_time contents) PyNone) in *.
exists m, tr, bond, heat, energy, time,
  (tr ++ [CallBondLength; CallHeatOfFormation; CallTotalEnergy; CallRunTime]).
repeat split; auto.
intros w. unfold loop_body. rewrite Hname.
unfold mtry, mbind at 1. rewrite Hread.
unfold mbind at 1. rewrite Hres.
unfold mbind, invoke. rewrite Hb, Hh, He, Ht. cbn [results calls].
unfold classify.
destruct (Str.contains marker contents); cbn [negb].
- cbn [existsb]. rewrite orb_false_r, orb_assoc.
  destruct (negb (is_none bond) || negb (is_none heat) || negb (is_none energy)).
  + unfold append; cbn [results calls].
    repeat rewrite <- app_assoc; reflexivity.
  + unfold say, try_except. rewrite app_nil_r.
    destruct (print file [Lit (T "Failed Entirely")]);
      repeat rewrite <- app_assoc; reflexivity.
- unfold append; cbn [results calls].
  repeat rewrite <- app_assoc; reflexivity.
Qed.

(** One turn of the loop adds to [results] the rows [emitted], whatever
  was gathered before, and ends the same way. *)
Lemma loop_body_frame (file : log_file) :
exists res tr, forall w,
    loop_body file w
    = (res, World (results w ++ emitted file) (calls w ++ tr)).
Proof.
destruct (text_eqb (Str.lower (name file)) (T "readme.txt")) eqn:Hname.
- exists (print file [Lit (T "Skipping "); Field (PyStr (name file))]), [].
  unfold emitted, loop_body. rewrite Hname. intros w.
  unfold say; cbn [snd results start]. rewrite !app_nil_r. now destruct w.
- destruct (read file) as [contents|e] eqn:Hread.
  + destruct (loop_body_read file contents Hread Hname)
      as (m & tr & bond & heat & energy & time & tr' & _ & _ & _ & _ & _ & H).
    eexists. exists tr'. intros w. unfold emitted. rewrite (H start), (H w).
    reflexivity.
  + exists (print file [Lit (T "error processing");
                        Field (PyStr (name file))]), [].
    unfold emitted, loop_body. rewrite Hname. intros w.
    unfold mtry, mbind, say. rewrite Hread. cbn [snd results start].
    rewrite !app_nil_r. now destruct w.
Qed.

(** The loop adds the rows of the files it comes to, in their order. *)
Lemma main_loop_rows (files : list log_file) :
exists res tr, forall w,
    main_loop files w
    = (res, World (results w ++ flat_map emitted (reached files))
                  (calls w ++ tr)).
Proof.
induction files as [|file files (res & tr & IH)].
- exists (Returns tt), []. intros w. cbn [main_loop reached flat_map].
  unfold mret. rewrite !app_nil_r. now destruct w.
- destruct (loop_body_frame file) as (res1 & tr1 & H1).
  cbn [reached flat_map]. rewrite (H1 start). cbn [fst].
  destruct res1 as [u|e].
  + exists res, (tr1 ++ tr). intros w.
    cbn [main_loop]. unfold mbind. rewrite (H1 w), IH.
    cbn [results calls]. now rewrite !app_assoc.
  + exists (Raises e), tr1. intros w.
    cbn [main_loop]. unfold mbind. rewrite (H1 w).
    cbn [flat_map]. now rewrite app_nil_r.
Qed.

(** The rows the loop adds are those it adds to an empty list. *)
Lemma main_loop_frame (files : list log_file) (w : world) :
results (run_loop files w)
= results w ++ results (run_loop files start).
Proof.
destruct (main_loop_rows files) as (res & tr & H).
unfold run_loop. rewrite (H w), (H start). cbn [fst snd results start app].
reflexivity.
Qed.

End Loop.


(** ** Where the search matches *)

Lemma search_start_skip (r : Re.regex) :
  forall pre s,
    search_start r (pre ++ s) = Some (length pre) ->
    forall p1 p2, pre = p1 ++ p2 -> p2 <> [] ->
                  Re.match_at false r (p2 ++ s) = None.
Proof.
  induction pre as [|c pre IH]; intros s H p1 p2 E Hne.
  - destruct p1, p2; try discriminate. now contradiction Hne.
  - cbn [app search_start length] in H.
    change (c :: pre ++ s) with ((c :: pre) ++ s) in H.
    destruct (Re.match_at false r ((c :: pre) ++ s)) eqn:Em; [discriminate|].
    destruct (search_start r (pre ++ s)) as [n|] eqn:En; [|discriminate].
    injection H as ->.
    destruct p1 as [|c1 p1].
    + cbn [app] in E. subst p2. exact Em.
    + injection E as <- E. now apply (IH s En p1 p2).
Qed.

(** ** The properties of the specification *)

(** C1. A log without the termination marker gives one row, whose
    Completion cell holds Incomplete; a log with the marker and at least
    one of bond length, heat of formation and total energy gives one row,
    whose Completion cell holds Completed. In both cases the turn ends
    without an exception and the row has the nine cells, with the metadata
    the resolver returned and each field that was extracted, "NA" standing
    for a field that was not. A log with the marker and none of the three
    is rejected: nothing is appended to [results], whatever [print]
    does. *)
Theorem classification (file : log_file) (contents : text) (w : world) :
  read file = Returns contents ->
  text_eqb (Str.lower (name file)) (T "readme.txt") = false ->
  exists m bond heat energy time,
    fst (resolve (name file) contents w) = Returns m
    /\ extract_bond_length contents = Returns bond
    /\ extract_heat_of_formation contents = Returns heat
    /\ extract_total_energy contents = Returns energy
    /\ run_time contents = Returns time
    /\ match classify (Str.contains marker contents) bond heat energy with
       | Rejected => results (snd (loop_body file w)) = results w
       | label =>
           fst (loop_body file w) = Returns tt
           /\ exists r,
               results (snd (loop_body file w)) = results w ++ [r]
               /\ List.map fst r
                  = ["molecule"; "force_field"; "basis"; "comp_method";
                     "bond_length (Å)"; "heat_of_formation (kcal/mol)";
                     "Total Energy (Hartrees)"; "Run_Time (s)"; "Completion"]
               /\ [cell "molecule" r; cell "force_field" r; cell "basis" r;
                   cell "comp_method" r] = List.map Some (cells m)
               /\ cell "bond_length (Å)" r
                  = Some (if is_none bond then PyStr (T "NA") else bond)
               /\ cell "heat_of_formation (kcal/mol)" r
                  = Some (if is_none heat then PyStr (T "NA") else heat)
               /\ cell "Total Energy (Hartrees)" r
                  = Some (if is_none energy then PyStr (T "NA") else energy)
               /\ cell "Run_Time (s)" r
                  = Some (if is_none time then PyStr (T "NA") else time)
               /\ cell "Completion" r
                  = Some (PyStr (match label with
                                 | Incomplete => T "Incomplete"
                                 | _ => T "Completed"
                                 end))
       end.
Proof.
  intros Hread Hname.
  destruct (loop_body_read file contents Hread Hname)
    as (m & tr & bond & heat & energy & time & tr' & Hres & Hb & Hh & He & Ht & H).
  exists m, bond, heat, energy, time. rewrite Hres, H. cbn [fst snd results].
  do 5 (split; [reflexivity || assumption|]).
  destruct m as [[[molecule ff] basis] method].
  destruct (classify _ _ _ _).
  - split; [reflexivity|]. eexists. split; [reflexivity|].
    unfold record, or_NA. repeat split; reflexivity.
  - split; [reflexivity|]. eexists. split; [reflexivity|].
    unfold record, or_NA. repeat split; reflexivity.
  - apply app_nil_r.
Qed.

Lemma classification_witness :
  exists r,
    results
      (snd (loop_body
              (LogFile (T "Water_FF1_631G_HF.log")
                       (Returns (T "TOTAL ENERGY = -74.96")) takes_all)
              start))
    = results start ++ [r]
    /\ cell "Completion" r = Some (PyStr (T "Incomplete"))
    /\ cell "molecule" r = Some (PyStr (T "Water"))
    /\ exists f, cell "Total Energy (Hartrees)" r = Some (PyFloat f).
Proof.
  destruct (classification
              (LogFile (T "Water_FF1_631G_HF.log")
                       (Returns (T "TOTAL ENERGY = -74.96")) takes_all)
              (T "TOTAL ENERGY = -74.96") start eq_refl eq_refl)
    as (m & bond & heat & energy & time & Hm & _ & _ & He & _ & H).
  change (classify (Str.contains marker (T "TOTAL ENERGY = -74.96"))
                   bond heat energy) with Incomplete in H.
  destruct H as (_ & r & Hr & _ & Hcells & _ & _ & Henergy & _ & Hlabel).
  exists r. split; [exact Hr|]. split; [exact Hlabel|].
  injection Hm as <-. injection He as <-.
  injection Hcells as Hmol _ _ _.
  split; [exact Hmol|]. eexists. exact Henergy.
Defined.

(** C2. The metadata of a file come from one tier: when the base name
    splits into four pieces, all four cells are those pieces and the
    fallback parser is not called; otherwise all four cells are what the
    fallback parser returns, four texts or four times [None]. *)
Theorem metadata_from_one_tier (file_name contents : text) (w : world) :
  (exists a b c d,
      Str.split 95%N None (stem file_name) = [a; b; c; d]
      /\ resolve file_name contents w
         = (Returns (PyStr a, PyStr b, PyStr c, PyStr d),
            World (results w) (calls w ++ [CallParseFilename])))
  \/ (length (Str.split 95%N None (stem file_name)) <> 4
      /\ resolve file_name contents w
         = (fallback_parse_input_section contents,
            World (results w) (calls w ++ [CallParseFilename; CallFallback]))
      /\ (fallback_parse_input_section contents = Returns all_none
          \/ exists molecule ff basis method,
               fallback_parse_input_section contents
               = Returns (PyStr molecule, PyStr ff, PyStr basis, PyStr method))).
Proof.
  destruct (resolve_cases file_name contents w)
    as [(a & b & c & d & Es & E)|(Hn & E)].
  - left. now exists a, b, c, d.
  - right. rewrite <- app_assoc in E. repeat split; auto.
    destruct (fallback_parse_input_section_total contents)
      as [H|(x & y & z & H)]; [now left|right]; eauto.
Qed.

(** C3. [run_time] returns the decimal of the last occurrence of
    [TOTAL WALL CLOCK TIME= <decimal>] in the text, as the text of that
    decimal, and [None] when there is no occurrence; with 12.3 and later
    45.6 in the text it returns 45.6. *)
Theorem run_time_last_occurrence :
  (forall text,
      run_time text
      = Returns (last (occurrences Pattern.wall_clock_time text) PyNone))
  /\ (forall text,
         Forall (fun v => exists d, v = PyStr d /\ decimal_text d)
                (occurrences Pattern.wall_clock_time text))
  /\ occurrences Pattern.wall_clock_time
       (T "TOTAL WALL CLOCK TIME= 12.3 then TOTAL WALL CLOCK TIME= 45.6 SECONDS")
     = [PyStr (T "12.3"); PyStr (T "45.6")]
  /\ run_time
       (T "TOTAL WALL CLOCK TIME= 12.3 then TOTAL WALL CLOCK TIME= 45.6 SECONDS")
     = Returns (PyStr (T "45.6")).
Proof.
  split; [exact run_time_last|]. split; [exact occurrences_wall_clock_time|].
  split; vm_compute; reflexivity.
Qed.

(** C4, as the code has it. Let the match of the pattern begin at an
    [INPUT CARD>!] that is followed by [m | x | y] up to the end of its
    line, [m] and [x] without [|], and [y] not blank; cards before it at
    which the pattern does not match are passed over. Then the molecule is
    [m] stripped, and the method and basis segment is [y] stripped: what
    stands after the second [|], later [|] included. The segment is cut at
    its first [/] into method and basis, the basis being "Unknown" without
    a [/]; the force field is "Unknown". *)
Theorem fallback_input_echo_line (pre m x y post : text) :
  search_start Pattern.input_card
               (pre ++ T "INPUT CARD>!" ++ m ++ T "|" ++ x ++ T "|" ++ y ++ post)
  = Some (length pre) ->
  forallb plain m = true ->
  forallb plain x = true ->
  forallb not_newline y = true ->
  Str.strip y <> [] ->
  Re.at_eol true post = true ->
  exists method basis,
    fallback_parse_input_section
      (pre ++ T "INPUT CARD>!" ++ m ++ T "|" ++ x ++ T "|" ++ y ++ post)
    = Returns (PyStr (Str.strip m), PyStr (T "Unknown"),
               PyStr (Str.strip basis), PyStr (Str.strip method))
    /\ ((exists a b, Str.strip y = a ++ [47%N] ++ b /\ ~ In 47%N a
                     /\ method = a /\ basis = b)
        \/ (~ In 47%N (Str.strip y)
            /\ method = Str.strip y /\ basis = T "Unknown")).
Proof.
  intros Hstart Hm Hx Hy Hne Hpost.
  set (line := T "INPUT CARD>!" ++ m ++ T "|" ++ x ++ T "|" ++ y ++ post) in *.
  destruct (input_card_line m x y post Hm Hx Hy Hne Hpost) as (mo & Hmo & Hg).
  fold line in Hmo.
  assert (Hs : Re.search Pattern.input_card (pre ++ line) = Some mo).
  { rewrite search_skip; [now apply search_here|].
    now apply search_start_skip. }
  destruct (fallback_of_groups (pre ++ line) mo (Str.strip m) (Str.strip y) Hs)
    as (method & basis & E & Hcut).
  - unfold Re.group; now rewrite Hg.
  - unfold Re.group; now rewrite Hg.
  - rewrite ?strip_idem in E. rewrite ?strip_idem in Hcut.
    now exists method, basis.
Qed.

Lemma fallback_input_echo_line_witness :
  search_start Pattern.input_card
               ((T "INPUT CARD>! a comment" ++ [10%N])
                  ++ T "INPUT CARD>!" ++ T " Methane " ++ T "|" ++ T " ignored "
                  ++ T "|" ++ T " B3LYP/6-31G*" ++ [])
  = Some (length (T "INPUT CARD>! a comment" ++ [10%N]))
  /\ fallback_parse_input_section
       ((T "INPUT CARD>! a comment" ++ [10%N])
          ++ T "INPUT CARD>!" ++ T " Methane " ++ T "|" ++ T " ignored "
          ++ T "|" ++ T " B3LYP/6-31G*" ++ [])
     = Returns (PyStr (T "Methane"), PyStr (T "Unknown"),
                PyStr (T "6-31G*"), PyStr (T "B3LYP"))
  /\ exists method basis,
      fallback_parse_input_section
        ((T "INPUT CARD>! a comment" ++ [10%N])
           ++ T "INPUT CARD>!" ++ T " Methane " ++ T "|" ++ T " ignored "
           ++ T "|" ++ T " B3LYP/6-31G*" ++ [])
      = Returns (PyStr (Str.strip (T " Methane ")), PyStr (T "Unknown"),
                 PyStr (Str.strip basis), PyStr (Str.strip method))
      /\ ((exists a b, Str.strip (T " B3LYP/6-31G*") = a ++ [47%N] ++ b
                       /\ ~ In 47%N a /\ method = a /\ basis = b)
          \/ (~ In 47%N (Str.strip (T " B3LYP/6-31G*"))
              /\ method = Str.strip (T " B3LYP/6-31G*")
              /\ basis = T "Unknown")).
Proof.
  split; [vm_compute; reflexivity|]. split; [vm_compute; reflexivity|].
  apply (fallback_input_echo_line (T "INPUT CARD>! a comment" ++ [10%N])
                                  (T " Methane ") (T " ignored ")
                                  (T " B3LYP/6-31G*") []);
    try (vm_compute; reflexivity).
  vm_compute; discriminate.
Defined.

(** C4 as the specification words it fails on a line with a third [|]: the
    segment after the last [|] is [D/E], which would give the method [D];
    the code takes what follows the second [|] and returns the method
    [C | D]. *)
Lemma fallback_last_pipe_counterexample :
  fallback_parse_input_section (T "INPUT CARD>! A | B | C | D/E")
  = Returns (PyStr (T "A"), PyStr (T "Unknown"), PyStr (T "E"), PyStr (T "C | D"))
  /\ Str.strip (after_last 124%N (T "INPUT CARD>! A | B | C | D/E")) = T "D/E"
  /\ T "C | D" <> T "D".
Proof.
  split; [vm_compute; reflexivity|]. split; [vm_compute; reflexivity|].
  vm_compute; discriminate.
Qed.


(** The four pieces of a base name with three [_]. *)
Lemma four_pieces (s a b c d : text) :
  Str.split 95%N None s = [a; b; c; d] ->
  s = a ++ [95%N] ++ b ++ [95%N] ++ c ++ [95%N] ++ d
  /\ ~ In 95%N a /\ ~ In 95%N b /\ ~ In 95%N c /\ ~ In 95%N d.
Proof.
  intros E. pose proof (join_split 95%N s) as J.
  pose proof (split_pieces 95%N s) as P. rewrite E in J, P.
  split; [now rewrite <- J|].
  inversion P as [|? ? Ha P1]; subst. inversion P1 as [|? ? Hb P2]; subst.
  inversion P2 as [|? ? Hc P3]; subst. inversion P3 as [|? ? Hd _]; subst.
  auto.
Qed.

(** C5. The file-name tier splits the base name on [_]: with exactly three
    [_] the four pieces are, in order, molecule, force field, basis and
    method; with any other number of [_] all four are [None]. *)
Theorem parse_filename_four_segments :
  (forall file,
      (count_occ N.eq_dec (stem file) 95%N = 3
       /\ exists a b c d,
           stem file = a ++ [95%N] ++ b ++ [95%N] ++ c ++ [95%N] ++ d
           /\ ~ In 95%N a /\ ~ In 95%N b /\ ~ In 95%N c /\ ~ In 95%N d
           /\ parse_filename file
              = Returns (PyStr a, PyStr b, PyStr c, PyStr d))
      \/ (count_occ N.eq_dec (stem file) 95%N <> 3
          /\ parse_filename file = Returns all_none))
  /\ parse_filename (T "Water_FF1_631G_HF.log")
     = Returns (PyStr (T "Water"), PyStr (T "FF1"), PyStr (T "631G"),
                PyStr (T "HF")).
Proof.
  split; [|vm_compute; reflexivity].
  intros file. pose proof (split_length 95%N (stem file)) as L.
  destruct (parse_filename_cases file) as [(a & b & c & d & Es & E)|(Hn & E)].
  - left. rewrite Es in L. simpl in L. split; [lia|].
    destruct (four_pieces _ _ _ _ _ Es) as (J & Ha & Hb & Hc & Hd).
    exists a, b, c, d. auto 10.
  - right. split; [lia|exact E].
Qed.

(** C6, as the code has it. The four cells are all [None] or all texts.
    From the file name they are the pieces of the base name between its
    [_], as they stand, empty or blank-edged as they may be; from the log
    each has nothing left to strip, and may be empty. *)
Theorem metadata_cells (file_name contents : text) (w : world) :
  exists m w',
    resolve file_name contents w = (Returns m, w')
    /\ (m = all_none
        \/ (exists a b c d,
               m = (PyStr a, PyStr b, PyStr c, PyStr d)
               /\ stem file_name
                  = a ++ [95%N] ++ b ++ [95%N] ++ c ++ [95%N] ++ d
               /\ ~ In 95%N a /\ ~ In 95%N b /\ ~ In 95%N c /\ ~ In 95%N d)
        \/ (length (Str.split 95%N None (stem file_name)) <> 4
            /\ Forall trimmed (cells m))).
Proof.
  destruct (resolve_cases file_name contents w)
    as [(a & b & c & d & Es & E)|(Hn & E)]; rewrite E.
  - eexists; eexists; split; [reflexivity|]. right; left.
    destruct (four_pieces _ _ _ _ _ Es) as (J & Ha & Hb & Hc & Hd).
    exists a, b, c, d. auto 10.
  - destruct (fallback_parse_input_section_total contents)
      as [->|(x & y & z & ->)];
      (eexists; eexists; split; [reflexivity|]); [now left|right; right].
    split; [exact Hn|]. cbn [cells].
    repeat constructor; cbn [trimmed]; apply strip_idem.
Qed.

(** C6 as the specification words it fails: a piece of the file name can
    be empty or keep a blank, and the fallback parser can return an empty
    molecule. *)
Lemma metadata_cells_counterexample :
  fst (resolve (T "_a_b_c.log") [] start)
  = Returns (PyStr [], PyStr (T "a"), PyStr (T "b"), PyStr (T "c"))
  /\ ~ nonempty_str (PyStr [])
  /\ fst (resolve (T " Water_FF1_631G_HF.log") [] start)
     = Returns (PyStr (T " Water"), PyStr (T "FF1"), PyStr (T "631G"),
                PyStr (T "HF"))
  /\ ~ trimmed (PyStr (T " Water"))
  /\ fst (resolve (T "badname.log") (T "INPUT CARD>! | x | y") start)
     = Returns (PyStr [], PyStr (T "Unknown"), PyStr (T "Unknown"),
                PyStr (T "y")).
Proof.
  split; [vm_compute; reflexivity|]. split; [cbn; congruence|].
  split; [vm_compute; reflexivity|]. split; [vm_compute; discriminate|].
  vm_compute; reflexivity.
Qed.

(** C7. Each of the four extractors returns for every text, a value or
    [None], and raises nothing; where its pattern is not found it returns
    [None]. *)
Theorem extractors_total (text : text) :
  match Re.search Pattern.bond_length text with
  | None => extract_bond_length text = Returns PyNone
  | Some _ => exists f, extract_bond_length text = Returns (PyFloat f)
  end
  /\ match Re.search Pattern.heat_of_formation text with
     | None => extract_heat_of_formation text = Returns PyNone
     | Some _ => exists f, extract_heat_of_formation text = Returns (PyFloat f)
     end
  /\ match Re.search Pattern.total_energy text with
     | None => extract_total_energy text = Returns PyNone
     | Some _ => exists f, extract_total_energy text = Returns (PyFloat f)
     end
  /\ match Re.findall Pattern.wall_clock_time text with
     | [] => run_time text = Returns PyNone
     | _ :: _ => exists d, run_time text = Returns (PyStr d)
     end.
Proof.
  split; [apply extract_bond_length_total|].
  split; [apply extract_heat_of_formation_total|].
  split; [apply extract_total_energy_total|].
  unfold run_time. rewrite findall_wall_clock_time.
  pose proof (occurrences_wall_clock_time text) as H.
  destruct (occurrences Pattern.wall_clock_time text) as [|v l];
    [reflexivity|].
  destruct (last_Forall _ _ (v :: l) PyNone H) as (d & E & _);
    [discriminate|].
  exists d. now rewrite E.
Qed.

(** C8, as the code has it. Bond length, heat of formation and total
    energy are each [None] or a float; the run time is [None] or the text of
    the decimal that was matched, a [str]. *)
Theorem extracted_field_types (text : text) :
  (extract_bond_length text = Returns PyNone
   \/ exists f, extract_bond_length text = Returns (PyFloat f))
  /\ (extract_heat_of_formation text = Returns PyNone
      \/ exists f, extract_heat_of_formation text = Returns (PyFloat f))
  /\ (extract_total_energy text = Returns PyNone
      \/ exists f, extract_total_energy text = Returns (PyFloat f))
  /\ (run_time text = Returns PyNone
      \/ exists d, run_time text = Returns (PyStr d) /\ decimal_text d).
Proof.
  split; [|split; [|split]].
  - destruct (extract_bond_length_returns text) as (v & -> & [->|[f ->]]); eauto.
  - destruct (extract_heat_of_formation_returns text) as (v & -> & [->|[f ->]]);
      eauto.
  - destruct (extract_total_energy_returns text) as (v & -> & [->|[f ->]]);
      eauto.
  - apply run_time_returns.
Qed.

(** C8 as the specification words it fails: the run time that is returned
    is a text, not a float. *)
Lemma run_time_float_counterexample :
  run_time (T "TOTAL WALL CLOCK TIME= 45.6") = Returns (PyStr (T "45.6"))
  /\ ~ (exists f, PyStr (T "45.6") = PyFloat f).
Proof.
  split; [vm_compute; reflexivity|]. intros [f H]; discriminate.
Qed.

(** C9, as the code has it. A row that is appended has the nine cells, in
    order. Each of bond length, heat of formation, total energy and run
    time holds the value that was extracted, or the text "NA" when there is
    none, and is never [None]. The four metadata cells hold what the
    resolver returned, which is [None] when both tiers fail. *)
Theorem emitted_cells (file : log_file) (r : row) :
  In r (emitted file) ->
  exists contents m bond heat energy time,
    read file = Returns contents
    /\ fst (resolve (name file) contents start) = Returns m
    /\ extract_bond_length contents = Returns bond
    /\ extract_heat_of_formation contents = Returns heat
    /\ extract_total_energy contents = Returns energy
    /\ run_time contents = Returns time
    /\ List.map fst r
       = ["molecule"; "force_field"; "basis"; "comp_method";
          "bond_length (Å)"; "heat_of_formation (kcal/mol)";
          "Total Energy (Hartrees)"; "Run_Time (s)"; "Completion"]
    /\ [cell "molecule" r; cell "force_field" r; cell "basis" r;
        cell "comp_method" r] = List.map Some (cells m)
    /\ cell "bond_length (Å)" r
       = Some (if is_none bond then PyStr (T "NA") else bond)
    /\ cell "heat_of_formation (kcal/mol)" r
       = Some (if is_none heat then PyStr (T "NA") else heat)
    /\ cell "Total Energy (Hartrees)" r
       = Some (if is_none energy then PyStr (T "NA") else energy)
    /\ cell "Run_Time (s)" r
       = Some (if is_none time then PyStr (T "NA") else time)
    /\ (cell "Completion" r = Some (PyStr (T "Completed"))
        \/ cell "Completion" r = Some (PyStr (T "Incomplete")))
    /\ Forall (fun key => exists v, cell key r = Some v /\ v <> PyNone)
              ["bond_length (Å)"; "heat_of_formation (kcal/mol)";
               "Total Energy (Hartrees)"; "Run_Time (s)"; "Completion"].
Proof.
  intros Hin.
  destruct (text_eqb (Str.lower (name file)) (T "readme.txt")) eqn:Hname.
  { unfold emitted, loop_body in Hin. rewrite Hname in Hin.
    unfold say in Hin. destruct Hin. }
  destruct (read file) as [contents|e] eqn:Hread.
  2:{ unfold emitted, loop_body in Hin. rewrite Hname in Hin.
      unfold mtry, mbind, say in Hin. rewrite Hread in Hin. destruct Hin. }
  destruct (loop_body_read file contents Hread Hname)
    as (m & tr & bond & heat & energy & time & tr' & Hres & Hb & Hh & He & Ht & H).
  unfold emitted in Hin. rewrite (H start) in Hin. cbn [snd results start app] in Hin.
  exists contents, m, bond, heat, energy, time.
  rewrite Hres. cbn [fst].
  do 6 (split; [reflexivity || assumption|]).
  assert (Hna : forall v, (if is_none v then PyStr (T "NA") else v) <> PyNone).
  { intros [| |]; discriminate. }
  destruct m as [[[molecule ff] basis] method].
  assert (Hr : r = record (molecule, ff, basis, method) bond heat energy time "Incomplete"
               \/ r = record (molecule, ff, basis, method) bond heat energy time "Completed").
  { destruct (classify _ _ _ _);
      [destruct Hin as [<-|[]]; auto|destruct Hin as [<-|[]]; auto|destruct Hin]. }
  destruct Hr as [-> | ->]; unfold record, or_NA; cbn [List.map fst cells];
    repeat split; auto;
      repeat constructor; eexists; (split; [reflexivity|]);
      try apply Hna; discriminate.
Qed.

Lemma emitted_cells_witness :
  In (record (PyStr (T "Water"), PyStr (T "FF1"), PyStr (T "631G"), PyStr (T "HF"))
             PyNone PyNone PyNone PyNone "Incomplete")
     (emitted (LogFile (T "Water_FF1_631G_HF.log") (Returns []) takes_all))
  /\ exists contents m bond heat energy time,
      read (LogFile (T "Water_FF1_631G_HF.log") (Returns []) takes_all) = Returns contents
      /\ fst (resolve (name (LogFile (T "Water_FF1_631G_HF.log") (Returns []) takes_all))
                      contents start) = Returns m
      /\ extract_bond_length contents = Returns bond
      /\ extract_heat_of_formation contents = Returns heat
      /\ extract_total_energy contents = Returns energy
      /\ run_time contents = Returns time
      /\ List.map fst
           (record (PyStr (T "Water"), PyStr (T "FF1"), PyStr (T "631G"),
                    PyStr (T "HF")) PyNone PyNone PyNone PyNone "Incomplete")
         = ["molecule"; "force_field"; "basis"; "comp_method";
            "bond_length (Å)"; "heat_of_formation (kcal/mol)";
            "Total Energy (Hartrees)"; "Run_Time (s)"; "Completion"].
Proof.
  split; [left; vm_compute; reflexivity|].
  destruct (emitted_cells
              (LogFile (T "Water_FF1_631G_HF.log") (Returns []) takes_all)
              (record (PyStr (T "Water"), PyStr (T "FF1"), PyStr (T "631G"),
                       PyStr (T "HF")) PyNone PyNone PyNone PyNone "Incomplete"))
    as (contents & m & bond & heat & energy & time & H1 & H2 & H3 & H4 & H5
        & H6 & H7 & _).
  - left; vm_compute; reflexivity.
  - exists contents, m, bond, heat, energy, time. auto 10.
Defined.

(** C9 as the specification words it fails for the metadata: with a file
    name that does not split in four and a log without an input card, the
    row is appended with [None] in its metadata cells. *)
Lemma metadata_NA_counterexample :
  emitted (LogFile (T "badname.log") (Returns []) takes_all)
  = [record all_none PyNone PyNone PyNone PyNone "Incomplete"]
  /\ cell "molecule" (record all_none PyNone PyNone PyNone PyNone "Incomplete")
     = Some PyNone
  /\ PyNone <> PyStr (T "NA").
Proof.
  split; [vm_compute; reflexivity|]. split; [reflexivity|discriminate].
Qed.

(** C10. The rows a run of the loop adds do not depend on what was
    gathered before: a second run over the same files adds the same rows
    as the first. *)
Theorem rerun_same_records (files : list log_file) (w : world) :
  results (run_loop files w) = results w ++ results (run_loop files start)
  /\ results (run_loop files (run_loop files w))
     = (results w ++ results (run_loop files start))
         ++ results (run_loop files start).
Proof.
  pose proof (main_loop_frame files w) as H1.
  pose proof (main_loop_frame files (run_loop files w)) as H2.
  split; [exact H1|]. now rewrite H2, H1.
Qed.


(* ===================================================================== *)
(** * Part IV. Further properties of the script                           *)
(* ===================================================================== *)

(** ** File names *)

Section FileNames.
Import Str.

Lemma split_whole (sep : char) (a : text) :
~ In sep a -> split sep None a = [a].
Proof.
induction a as [|c a IH]; simpl; intros H; [reflexivity|].
destruct (N.eqb_spec c sep) as [->|Hc]; [tauto|].
rewrite IH by tauto. reflexivity.
Qed.

Lemma split_at_sep (sep : char) (a s : text) :
~ In sep a -> split sep None (a ++ sep :: s) = a :: split sep None s.
Proof.
induction a as [|c a IH]; simpl; intros H.
- now rewrite N.eqb_refl.
- destruct (N.eqb_spec c sep) as [->|Hc]; [tauto|].
  rewrite IH by tauto. reflexivity.
Qed.

Lemma rfind_from_app (c : char) (s1 s2 : text) :
forall i best,
  rfind_from c i best (s1 ++ s2)
  = rfind_from c (i + length s1) (rfind_from c i best s1) s2.
Proof.
induction s1 as [|x s1 IH]; intros i best; simpl.
- now rewrite Nat.add_0_r.
- rewrite IH. f_equal. lia.
Qed.

(** The base name of [s.log] is [s]. *)
Lemma stem_log (s : text) : s <> [] -> stem (s ++ T ".log") = s.
Proof.
intros Hne. unfold stem, rfind.
rewrite rfind_from_app. cbn [Nat.add].
change (rfind_from 46%N (length s) (rfind_from 46%N 0 None s) (T ".log"))
  with (Some (length s)).
rewrite length_app. change (length (T ".log")) with 4.
destruct s as [|c s]; [congruence|].
replace (0 <? length (c :: s)) with true
  by (symmetry; apply Nat.ltb_lt; simpl; lia).
replace (length (c :: s) <? length (c :: s) + 4 - 1) with true
  by (symmetry; apply Nat.ltb_lt; lia).
cbn [andb]. now rewrite firstn_app, Nat.sub_diag, firstn_all, app_nil_r.
Qed.

Lemma lower_app (a b : text) : lower (a ++ b) = lower a ++ lower b.
Proof. apply map_app. Qed.

End FileNames.

(** A file named by the convention gives its four fields back: for
    fields without [_], the name [molecule_forcefield_basis_method.log] is
    parsed into exactly these fields, whatever else they hold (dots,
    blanks, nothing at all). *)
Theorem parse_filename_of_convention (molecule forcefield basis comp : text) :
  ~ In 95%N molecule -> ~ In 95%N forcefield -> ~ In 95%N basis ->
  ~ In 95%N comp ->
  parse_filename (molecule ++ T "_" ++ forcefield ++ T "_" ++ basis ++ T "_"
                           ++ comp ++ T ".log")
  = Returns (PyStr molecule, PyStr forcefield, PyStr basis, PyStr comp).
Proof.
  intros Ha Hb Hc Hd. unfold parse_filename.
  replace (molecule ++ T "_" ++ forcefield ++ T "_" ++ basis ++ T "_"
                    ++ comp ++ T ".log")
    with ((molecule ++ T "_" ++ forcefield ++ T "_" ++ basis ++ T "_" ++ comp)
            ++ T ".log")
    by (now rewrite <- !app_assoc).
  rewrite stem_log by (destruct molecule; discriminate).
  change (T "_") with [95%N]. cbn [app].
  rewrite !split_at_sep, split_whole by assumption.
  reflexivity.
Qed.

Lemma parse_filename_of_convention_witness :
  ~ In 95%N (T "Water") /\ ~ In 95%N (T "FF1") /\ ~ In 95%N (T "6.31G")
  /\ ~ In 95%N (T "HF")
  /\ parse_filename (T "Water" ++ T "_" ++ T "FF1" ++ T "_" ++ T "6.31G"
                       ++ T "_" ++ T "HF" ++ T ".log")
     = Returns (PyStr (T "Water"), PyStr (T "FF1"), PyStr (T "6.31G"),
                PyStr (T "HF")).
Proof.
  assert (H : forall s, existsb (N.eqb 95) s = false -> ~ In 95%N s).
  { intros s E Hin. assert (existsb (N.eqb 95) s = true); [|congruence].
    apply existsb_exists. exists 95%N. split; [exact Hin|apply N.eqb_refl]. }
  split; [apply H; reflexivity|]. split; [apply H; reflexivity|].
  split; [apply H; reflexivity|]. split; [apply H; reflexivity|].
  apply (parse_filename_of_convention (T "Water") (T "FF1") (T "6.31G") (T "HF"));
    apply H; reflexivity.
Defined.

(** The [readme.txt] test of the loop never holds for a file the glob
    [*.log] yields: a name that ends in [.log], in any letter case, is not
    skipped. *)
Theorem log_name_not_readme (base ext : text) :
  Str.lower ext = T ".log" ->
  text_eqb (Str.lower (base ++ ext)) (T "readme.txt") = false.
Proof.
  intros He. unfold text_eqb.
  destruct (list_eq_dec N.eq_dec (Str.lower (base ++ ext)) (T "readme.txt"))
    as [E|_]; [|reflexivity].
  rewrite lower_app, He in E. apply (f_equal (@rev char)) in E.
  rewrite rev_app_distr in E. discriminate.
Qed.

Lemma log_name_not_readme_witness :
  Str.lower (T ".LOG") = T ".log"
  /\ text_eqb (Str.lower (T "README" ++ T ".LOG")) (T "readme.txt") = false.
Proof.
  split; [reflexivity|].
  apply (log_name_not_readme (T "README") (T ".LOG")). reflexivity.
Defined.


(** ** The numeric extractors *)

Section Numbers.
Import Re Pattern.

Lemma yields_or_else (A : Type) (P : A -> Prop) (x y : option A) :
yields P x ->
yields P (match x with Some a => Some a | None => y end).
Proof. intros (a & -> & Ha). now exists a. Qed.

Lemma minus_not_decimal (c : char) :
Unicode.is_decimal c = true -> (c =? 45)%N = false.
Proof.
intros H. destruct (N.eqb_spec c 45) as [->|]; [discriminate|reflexivity].
Qed.

Lemma digits_decimal_text (sgn d1 d2 : text) :
sign sgn -> digits d1 -> digits d2 ->
decimal_text (sgn ++ d1 ++ [46%N] ++ d2).
Proof.
intros Hs [N1 H1] [N2 H2]. exists sgn, d1, d2. repeat split; auto.
Qed.

(** The group [(-?\d+\.\d+)] takes a signed decimal whole, when no digit
  follows it. *)
Lemma signed_decimal_group (A : Type) (P : A -> Prop) (sgn d1 d2 rest : text)
    (gs : captures) (cont : text -> captures -> option A) :
sign sgn -> digits d1 -> digits d2 ->
stops Unicode.is_decimal rest ->
yields P (cont rest ((1, sgn ++ d1 ++ [46%N] ++ d2) :: gs)) ->
yields P (run (RGroup 1 (cat [ROpt (CChar 45%N); plus CDigit; lit ".";
                              plus CDigit]))
              (sgn ++ d1 ++ [46%N] ++ d2 ++ rest) gs cont).
Proof.
intros Hs [N1 H1] [N2 H2] Hrest Hk.
assert (Hlen : 1 <= length d1) by (destruct d1; [congruence|simpl; lia]).
assert (Hlen2 : 1 <= length d2) by (destruct d2; [congruence|simpl; lia]).
assert (Hcap : firstn (length (sgn ++ d1 ++ [46%N] ++ d2 ++ rest) - length rest)
                      (sgn ++ d1 ++ [46%N] ++ d2 ++ rest)
               = sgn ++ d1 ++ [46%N] ++ d2).
{ replace (sgn ++ d1 ++ [46%N] ++ d2 ++ rest)
    with ((sgn ++ d1 ++ [46%N] ++ d2) ++ rest)
    by (now rewrite <- !app_assoc).
  apply firstn_consumed. }
cbn [run cat lit plus].
assert (Hbody :
          yields P
            (rep_greedy CDigit 1 (d1 ++ [46%N] ++ d2 ++ rest)
               (fun s' =>
                  match Str.strip_prefix (T ".") s' with
                  | Some s'0 =>
                      rep_greedy CDigit 1 s'0
                        (fun s'1 =>
                           cont s'1
                             ((1, firstn
                                    (length (sgn ++ d1 ++ [46%N] ++ d2 ++ rest)
                                     - length s'1)
                                    (sgn ++ d1 ++ [46%N] ++ d2 ++ rest)) :: gs))
                  | None => None
                  end))).
{ apply yields_greedy; [exact H1|exact eq_refl|exact Hlen|].
  change (T ".") with [46%N]. rewrite strip_prefix_app.
  apply yields_greedy; [exact H2|exact Hrest|exact Hlen2|].
  rewrite Hcap. exact Hk. }
clear Hcap Hk. destruct Hs as [-> | ->].
- cbn [app] in *. destruct d1 as [|c d1]; [congruence|].
  cbn [app forallb] in *. apply andb_prop in H1 as [Hc _].
  cbn [cmatch]. rewrite (minus_not_decimal c Hc). exact Hbody.
- cbn [app cmatch] in *. rewrite N.eqb_refl.
  apply yields_or_else. exact Hbody.
Qed.

Lemma yields_seq (A : Type) (P : A -> Prop) (r1 r2 : regex) (s : text)
    (gs : captures) (cont : text -> captures -> option A) :
yields P (run r1 s gs (fun s' gs' => run r2 s' gs' cont)) ->
yields P (run (RSeq r1 r2) s gs cont).
Proof. exact (fun H => H). Qed.

Lemma yields_run_greedy (A : Type) (P : A -> Prop) (k : cclass) (n : nat)
    (w s : text) (gs : captures) (cont : text -> captures -> option A) :
forallb (cmatch k) w = true ->
stops (cmatch k) s ->
n <= length w ->
yields P (cont s gs) ->
yields P (run (RRep k n Greedy) (w ++ s) gs cont).
Proof. intros Hw Hs Hn Hk. cbn [run]. now apply yields_greedy. Qed.

(** Where the literal does not stand, a pattern that opens with it is
  not found. *)
Lemma search_without_literal (l : text) (r : regex) :
forall s, Str.contains l s = false -> search (RSeq (RLit l) r) s = None.
Proof.
induction s as [|c s IH]; intros H; cbn [Str.contains] in H;
  apply orb_false_elim in H as [H1 H2]; cbn [search];
  rewrite (match_at_lit false l r _ H1); auto.
Qed.

Lemma occurrences_without_literal (l : text) (r : regex) :
forall s, Str.contains l s = false ->
          occurrences (RSeq (RLit l) r) s = [].
Proof.
induction s as [|c s IH]; intros H; cbn [Str.contains] in H;
  apply orb_false_elim in H as [H1 H2]; cbn [occurrences];
  rewrite (match_at_lit false l r _ H1); auto.
Qed.

(** [search] finds the match at the first place of the literal when the
  pattern matches there. *)
Lemma search_at_first_literal (l : text) (r : regex) (pre s : text)
    (P : match_obj -> Prop) :
Str.find l (pre ++ s) = Some (length pre) ->
yields P (match_at false (RSeq (RLit l) r) s) ->
yields P (search (RSeq (RLit l) r) (pre ++ s)).
Proof.
intros Hfind (mo & Hmo & HP). exists mo; split; [|exact HP].
rewrite search_skip; [now apply search_here|].
intros p1 p2 E Hp2. apply match_at_lit.
now apply (find_first l pre s Hfind p1 p2).
Qed.

End Numbers.

(** The heat of formation is the decimal that follows the first
    [HEAT OF FORMATION IS] of the log: after blanks, an optional minus
    sign, digits, a point and digits, up to the last digit; it is returned
    as [float] makes it, and what the log holds further on does not count. *)
Theorem extract_heat_of_formation_first (pre ws sgn d1 d2 rest : text) :
  Str.find (T "HEAT OF FORMATION IS")
           (pre ++ T "HEAT OF FORMATION IS" ++ ws ++ sgn ++ d1 ++ [46%N] ++ d2
                ++ rest)
  = Some (length pre) ->
  ws <> [] -> blanks ws ->
  sign sgn -> digits d1 -> digits d2 ->
  stops Unicode.is_decimal rest ->
  exists f,
    Float.of_text (sgn ++ d1 ++ [46%N] ++ d2) = Some f
    /\ extract_heat_of_formation
         (pre ++ T "HEAT OF FORMATION IS" ++ ws ++ sgn ++ d1 ++ [46%N] ++ d2
              ++ rest)
       = Returns (PyFloat f).
Proof.
  intros Hfind Hws Hb Hs Hd1 Hd2 Hrest.
  destruct (float_of_decimal_text _ (digits_decimal_text _ _ _ Hs Hd1 Hd2))
    as [f Hf].
  exists f; split; [exact Hf|].
  assert (Hm : Re.yields
                 (fun mo => Re.group mo 1 = PyStr (sgn ++ d1 ++ [46%N] ++ d2))
                 (Re.search Pattern.heat_of_formation
                    (pre ++ T "HEAT OF FORMATION IS" ++ ws ++ sgn ++ d1
                         ++ [46%N] ++ d2 ++ rest))).
  { unfold Pattern.heat_of_formation. cbn [Pattern.cat].
    apply search_at_first_literal; [exact Hfind|].
    unfold Re.match_at. cbn [andb].
    apply yields_seq, yields_lit. cbn beta.
    apply yields_seq, yields_run_greedy;
      [exact Hb| |destruct ws; [congruence|simpl; lia]|].
    - destruct Hs as [-> | ->]; [|exact eq_refl].
      destruct Hd1 as [N1 H1]. destruct d1 as [|c d1]; [congruence|].
      cbn [app forallb] in *. apply andb_prop in H1 as [Hc _].
      apply is_decimal_inv in Hc as [v Hv].
      exact (decimal_not_space _ _ Hv).
    - apply signed_decimal_group; auto. now apply yields_Some. }
  destruct Hm as (mo & Hmo & Hg).
  unfold extract_heat_of_formation. rewrite Hmo, Hg.
  cbn [py_float]. now rewrite Hf.
Qed.


Lemma extract_heat_of_formation_first_witness :
  Str.find (T "HEAT OF FORMATION IS")
           (T "AM1 " ++ T "HEAT OF FORMATION IS" ++ T "   " ++ [45%N] ++ T "57"
              ++ [46%N] ++ T "79" ++ T " KCAL/MOL, HEAT OF FORMATION IS 1.0")
  = Some (length (T "AM1 "))
  /\ T "   " <> [] /\ blanks (T "   ")
  /\ sign [45%N] /\ digits (T "57") /\ digits (T "79")
  /\ stops Unicode.is_decimal (T " KCAL/MOL, HEAT OF FORMATION IS 1.0")
  /\ exists f,
      Float.of_text ([45%N] ++ T "57" ++ [46%N] ++ T "79") = Some f
      /\ extract_heat_of_formation
           (T "AM1 " ++ T "HEAT OF FORMATION IS" ++ T "   " ++ [45%N] ++ T "57"
              ++ [46%N] ++ T "79" ++ T " KCAL/MOL, HEAT OF FORMATION IS 1.0")
         = Returns (PyFloat f).
Proof.
  assert (Hd : forall d, d <> [] -> forallb Unicode.is_decimal d = true -> digits d)
    by (intros d H1 H2; split; assumption).
  split; [reflexivity|]. split; [discriminate|]. split; [reflexivity|].
  split; [right; reflexivity|].
  split; [apply Hd; [discriminate|reflexivity]|].
  split; [apply Hd; [discriminate|reflexivity]|].
  split; [reflexivity|].
  apply (extract_heat_of_formation_first
           (T "AM1 ") (T "   ") [45%N] (T "57") (T "79")
           (T " KCAL/MOL, HEAT OF FORMATION IS 1.0"));
    [reflexivity|discriminate|reflexivity|right; reflexivity
     |apply Hd; [discriminate|reflexivity]
     |apply Hd; [discriminate|reflexivity]|reflexivity].
Defined.

(** The total energy is the decimal that follows the first [TOTAL ENERGY]
    of the log, blanks, [=] and blanks: an optional minus sign, digits, a
    point and digits, up to the last digit, as [float] makes it. *)
Theorem extract_total_energy_first (pre ws1 ws2 sgn d1 d2 rest : text) :
  Str.find (T "TOTAL ENERGY")
           (pre ++ T "TOTAL ENERGY" ++ ws1 ++ T "=" ++ ws2 ++ sgn ++ d1
                ++ [46%N] ++ d2 ++ rest)
  = Some (length pre) ->
  some_blanks ws1 -> some_blanks ws2 ->
  sign sgn -> digits d1 -> digits d2 ->
  stops Unicode.is_decimal rest ->
  exists f,
    Float.of_text (sgn ++ d1 ++ [46%N] ++ d2) = Some f
    /\ extract_total_energy
         (pre ++ T "TOTAL ENERGY" ++ ws1 ++ T "=" ++ ws2 ++ sgn ++ d1
              ++ [46%N] ++ d2 ++ rest)
       = Returns (PyFloat f).
Proof.
  intros Hfind [Hn1 Hb1] [Hn2 Hb2] Hs Hd1 Hd2 Hrest.
  destruct (float_of_decimal_text _ (digits_decimal_text _ _ _ Hs Hd1 Hd2))
    as [f Hf].
  exists f; split; [exact Hf|].
  assert (Hm : Re.yields
                 (fun mo => Re.group mo 1 = PyStr (sgn ++ d1 ++ [46%N] ++ d2))
                 (Re.search Pattern.total_energy
                    (pre ++ T "TOTAL ENERGY" ++ ws1 ++ T "=" ++ ws2 ++ sgn
                         ++ d1 ++ [46%N] ++ d2 ++ rest))).
  { unfold Pattern.total_energy. cbn [Pattern.cat].
    apply search_at_first_literal; [exact Hfind|].
    unfold Re.match_at. cbn [andb].
    apply yields_seq, yields_lit. cbn beta.
    apply yields_seq, yields_run_greedy;
      [exact Hb1|exact eq_refl|destruct ws1; [congruence|simpl; lia]|].
    apply yields_seq, yields_lit. cbn beta.
    apply yields_seq, yields_run_greedy;
      [exact Hb2| |destruct ws2; [congruence|simpl; lia]|].
    - destruct Hs as [-> | ->]; [|exact eq_refl].
      destruct Hd1 as [N1 H1]. destruct d1 as [|c d1]; [congruence|].
      cbn [app forallb] in *. apply andb_prop in H1 as [Hc _].
      apply is_decimal_inv in Hc as [v Hv].
      exact (decimal_not_space _ _ Hv).
    - apply signed_decimal_group; auto. now apply yields_Some. }
  destruct Hm as (mo & Hmo & Hg).
  unfold extract_total_energy. rewrite Hmo, Hg.
  cbn [py_float]. now rewrite Hf.
Qed.

Lemma extract_total_energy_first_witness :
  Str.find (T "TOTAL ENERGY")
           (T "" ++ T "TOTAL ENERGY" ++ T " " ++ T "=" ++ T "     " ++ [45%N]
              ++ T "74" ++ [46%N] ++ T "9659012170" ++ T "")
  = Some (length (T ""))
  /\ some_blanks (T " ") /\ some_blanks (T "     ")
  /\ sign [45%N] /\ digits (T "74") /\ digits (T "9659012170")
  /\ stops Unicode.is_decimal (T "")
  /\ exists f,
      Float.of_text ([45%N] ++ T "74" ++ [46%N] ++ T "9659012170") = Some f
      /\ extract_total_energy
           (T "" ++ T "TOTAL ENERGY" ++ T " " ++ T "=" ++ T "     " ++ [45%N]
              ++ T "74" ++ [46%N] ++ T "9659012170" ++ T "")
         = Returns (PyFloat f).
Proof.
  assert (Hd : forall d, d <> [] -> forallb Unicode.is_decimal d = true -> digits d)
    by (intros d H1 H2; split; assumption).
  assert (Hb : forall w, w <> [] -> forallb Unicode.is_space w = true -> some_blanks w)
    by (intros w H1 H2; split; assumption).
  split; [reflexivity|].
  split; [apply Hb; [discriminate|reflexivity]|].
  split; [apply Hb; [discriminate|reflexivity]|].
  split; [right; reflexivity|].
  split; [apply Hd; [discriminate|reflexivity]|].
  split; [apply Hd; [discriminate|reflexivity]|].
  split; [exact I|].
  apply (extract_total_energy_first
           (T "") (T " ") (T "     ") [45%N] (T "74") (T "9659012170") (T ""));
    [reflexivity|apply Hb; [discriminate|reflexivity]
     |apply Hb; [discriminate|reflexivity]|right; reflexivity
     |apply Hd; [discriminate|reflexivity]
     |apply Hd; [discriminate|reflexivity]|exact I].
Defined.

(** Without its literal in the log an extractor returns [None], and so
    does the fallback parser, four times. *)
Theorem absent_literal_gives_None (log : text) :
  (Str.contains (T "INTERNUCLEAR DISTANCES (ANGS.)") log = true
   \/ extract_bond_length log = Returns PyNone)
  /\ (Str.contains (T "HEAT OF FORMATION IS") log = true
      \/ extract_heat_of_formation log = Returns PyNone)
  /\ (Str.contains (T "TOTAL ENERGY") log = true
      \/ extract_total_energy log = Returns PyNone)
  /\ (Str.contains (T "TOTAL WALL CLOCK TIME=") log = true
      \/ run_time log = Returns PyNone)
  /\ (Str.contains (T "INPUT CARD>!") log = true
      \/ fallback_parse_input_section log = Returns all_none).
Proof.
  repeat split.
  - destruct (Str.contains (T "INTERNUCLEAR DISTANCES (ANGS.)") log) eqn:E;
      [now left|right].
    unfold extract_bond_length, Pattern.bond_length. cbn [Pattern.cat].
    now rewrite (search_without_literal _ _ _ E).
  - destruct (Str.contains (T "HEAT OF FORMATION IS") log) eqn:E;
      [now left|right].
    unfold extract_heat_of_formation, Pattern.heat_of_formation.
    cbn [Pattern.cat]. now rewrite (search_without_literal _ _ _ E).
  - destruct (Str.contains (T "TOTAL ENERGY") log) eqn:E; [now left|right].
    unfold extract_total_energy, Pattern.total_energy.
    cbn [Pattern.cat]. now rewrite (search_without_literal _ _ _ E).
  - destruct (Str.contains (T "TOTAL WALL CLOCK TIME=") log) eqn:E;
      [now left|right].
    rewrite run_time_last. unfold Pattern.wall_clock_time.
    cbn [Pattern.cat]. now rewrite (occurrences_without_literal _ _ _ E).
  - destruct (Str.contains (T "INPUT CARD>!") log) eqn:E; [now left|right].
    unfold fallback_parse_input_section, Pattern.input_card.
    cbn [Pattern.cat]. now rewrite (search_without_literal _ _ _ E).
Qed.


Lemma py_float_str_inv (g : text) (f : spec_float) :
  py_float (PyStr g) = Returns (PyFloat f) -> Float.of_text g = Some f.
Proof.
  cbn [py_float]. destruct (Float.of_text g); [|discriminate].
  now intros [= ->].
Qed.

(** ** The run time *)

Lemma occurrences_app (r : Re.regex) (s1 s2 : text) :
  exists l, occurrences r (s1 ++ s2) = l ++ occurrences r s2.
Proof.
  induction s1 as [|c s1 [l IH]].
  - now exists [].
  - cbn [app occurrences]. rewrite IH.
    eexists. now rewrite app_assoc.
Qed.

Lemma last_app_nonempty (A : Type) (l1 l2 : list A) (d : A) :
  l2 <> [] -> last (l1 ++ l2) d = last l2 d.
Proof.
  intros H. induction l1 as [|x l1 IH]; [reflexivity|].
  cbn [app last]. destruct (l1 ++ l2) eqn:E; [|exact IH].
  apply app_eq_nil in E as [_ E]. congruence.
Qed.

(** What stands before the last report of the wall-clock time does not
    count: when a log gives a run time, the same log behind any text gives
    the same run time. *)
Theorem run_time_newest (earlier later : text) :
  run_time later <> Returns PyNone ->
  run_time (earlier ++ later) = run_time later.
Proof.
  rewrite !run_time_last. intros H.
  destruct (occurrences_app Pattern.wall_clock_time earlier later) as [l ->].
  rewrite last_app_nonempty; [reflexivity|].
  intros E. rewrite E in H. now apply H.
Qed.

Lemma run_time_newest_witness :
  run_time (T "TOTAL WALL CLOCK TIME= 45.6") <> Returns PyNone
  /\ run_time (T "TOTAL WALL CLOCK TIME= 12.3 SECONDS, "
                 ++ T "TOTAL WALL CLOCK TIME= 45.6")
     = run_time (T "TOTAL WALL CLOCK TIME= 45.6").
Proof.
  split; [vm_compute; discriminate|].
  apply (run_time_newest (T "TOTAL WALL CLOCK TIME= 12.3 SECONDS, ")
                         (T "TOTAL WALL CLOCK TIME= 45.6")).
  vm_compute; discriminate.
Defined.

(** ** The fallback parser *)

(** The pieces of a match of the input-card pattern. *)
Lemma input_card_shape (b : bool) (s : text) (mo : Re.match_obj) :
  Re.match_at b Pattern.input_card s = Some mo ->
  exists w1 g1 w2 w3 x w4 g2 rest,
    s = T "INPUT CARD>!" ++ w1 ++ g1 ++ w2 ++ T "|" ++ w3 ++ x ++ T "|" ++ w4
          ++ g2 ++ rest
    /\ forallb (Re.cmatch (Re.CDot false)) g1 = true
    /\ forallb (Re.cmatch (Re.CDot false)) g2 = true
    /\ Re.groups mo = [(2, g2); (1, g1)].
Proof.
  intros H. apply match_at_sound in H. unfold Pattern.input_card in H.
  cbn [Pattern.cat Pattern.lit Pattern.star Pattern.star_lazy Re.denote] in H.
  destruct H as (s1 & gs1 & [-> ->] & s2 & gs2 & (w1 & -> & _ & _ & ->)
                 & s3 & gs3 & (g1 & gs3' & E1 & (g1' & E1' & Hg1 & _ & ->) & ->)
                 & s4 & gs4 & (w2 & -> & _ & _ & ->)
                 & s5 & gs5 & [-> ->]
                 & s6 & gs6 & (w3 & -> & _ & _ & ->)
                 & s7 & gs7 & (x & -> & _ & _ & ->)
                 & s8 & gs8 & [-> ->]
                 & s9 & gs9 & (w4 & -> & _ & _ & ->)
                 & s10 & gs10
                 & (g2 & gs10' & E2 & (g2' & E2' & Hg2 & _ & ->) & ->)
                 & s11 & gs11 & (w5 & -> & _ & _ & ->)
                 & Ha & Hg & _).
  rewrite E1 in E1'. apply app_inv_tail in E1'. subst g1'.
  rewrite E2 in E2'. apply app_inv_tail in E2'. subst g2'.
  exists w1, g1, w2, w3, x, w4, g2, (w5 ++ Re.after mo).
  repeat split; auto. now rewrite E1, E2, Ha.
Qed.

(** With fewer than two [|] in the log the fallback parser returns
    nothing. *)
Theorem fallback_needs_two_pipes (log : text) :
  count_occ N.eq_dec log 124%N < 2 ->
  fallback_parse_input_section log = Returns all_none.
Proof.
  intros Hc. unfold fallback_parse_input_section.
  destruct (Re.search Pattern.input_card log) as [mo|] eqn:Hs;
    [exfalso|reflexivity].
  apply search_sound in Hs as (pre & s0 & -> & Hm).
  apply input_card_shape in Hm
    as (w1 & g1 & w2 & w3 & x & w4 & g2 & rest & -> & _).
  rewrite !count_occ_app in Hc.
  change (count_occ N.eq_dec (T "|") 124%N) with 1 in Hc. lia.
Qed.

Lemma fallback_needs_two_pipes_witness :
  count_occ N.eq_dec (T "INPUT CARD>! Methane | B3LYP/6-31G*") 124%N < 2
  /\ fallback_parse_input_section (T "INPUT CARD>! Methane | B3LYP/6-31G*")
     = Returns all_none.
Proof.
  split; [vm_compute; lia|].
  apply (fallback_needs_two_pipes (T "INPUT CARD>! Methane | B3LYP/6-31G*")).
  vm_compute; lia.
Defined.


Section InputCardLines.
Import Re Pattern.


End InputCardLines.




Lemma strip_incl (c : char) (s : text) : In c (Str.strip s) -> In c s.
Proof.
  intros H. destruct (strip_split s) as (l & r & E & _).
  rewrite E. apply in_or_app; right. apply in_or_app; now left.
Qed.

Lemma dot_run_no_newline (g : text) :
  forallb (Re.cmatch (Re.CDot false)) g = true -> ~ In 10%N g.
Proof.
  intros H Hin. rewrite forallb_forall in H. specialize (H _ Hin).
  discriminate.
Qed.

(** What the fallback parser returns, when it returns texts: the force
    field is "Unknown", no text holds a line break, and the method holds
    no [/]. *)
Theorem fallback_values (log molecule ff basis method : text) :
  fallback_parse_input_section log
  = Returns (PyStr molecule, PyStr ff, PyStr basis, PyStr method) ->
  ff = T "Unknown"
  /\ ~ In 10%N molecule /\ ~ In 10%N basis /\ ~ In 10%N method
  /\ ~ In 47%N method.
Proof.
  intros H.
  destruct (Re.search Pattern.input_card log) as [mo|] eqn:Hs.
  2:{ unfold fallback_parse_input_section in H. rewrite Hs in H.
      discriminate. }
  destruct (search_sound _ _ _ Hs) as (pre & s0 & _ & Hm).
  destruct (input_card_shape _ _ _ Hm)
    as (w1 & g1 & w2 & w3 & x & w4 & g2 & rest & _ & Hg1 & Hg2 & Hg).
  apply dot_run_no_newline in Hg1, Hg2.
  destruct (fallback_of_groups log mo g1 g2 Hs) as (m0 & b0 & E & Hcut).
  { unfold Re.group; now rewrite Hg. }
  { unfold Re.group; now rewrite Hg. }
  rewrite E in H. injection H as <- <- <- <-.
  assert (Hu : ~ In 10%N (T "Unknown")).
  { cbv. intuition discriminate. }
  split; [reflexivity|]. split; [intros Hin; apply Hg1; now apply strip_incl|].
  destruct Hcut as [(a & b & Eg & Ha & -> & ->)|(Hn & -> & ->)].
  - assert (Hsub : forall c, In c a \/ In c b -> In c g2).
    { intros c Hc. apply strip_incl. rewrite Eg.
      destruct Hc as [Hc|Hc]; apply in_or_app; [now left|right].
      apply in_or_app; now right. }
    repeat split; intros Hin; apply strip_incl in Hin; auto.
  - repeat split; intros Hin; apply strip_incl in Hin; auto.
    apply Hg2. now apply strip_incl.
Qed.

Lemma fallback_values_witness :
  fallback_parse_input_section (T "INPUT CARD>! Methane | x | B3LYP/6-31G*/d")
  = Returns (PyStr (T "Methane"), PyStr (T "Unknown"), PyStr (T "6-31G*/d"),
             PyStr (T "B3LYP"))
  /\ T "Unknown" = T "Unknown"
  /\ ~ In 10%N (T "Methane") /\ ~ In 10%N (T "6-31G*/d")
  /\ ~ In 10%N (T "B3LYP") /\ ~ In 47%N (T "B3LYP").
Proof.
  split; [vm_compute; reflexivity|].
  apply (fallback_values (T "INPUT CARD>! Methane | x | B3LYP/6-31G*/d")
                         (T "Methane") (T "Unknown") (T "6-31G*/d")
                         (T "B3LYP")).
  vm_compute; reflexivity.
Defined.


(** ** The loop over the files *)

Section LoopRows.

(** The rows of a file that is read. *)
Lemma emitted_read (file : log_file) (contents : text) :
read file = Returns contents ->
text_eqb (Str.lower (name file)) (T "readme.txt") = false ->
exists m bond heat energy time,
fst (resolve (name file) contents start) = Returns m
/\ extract_bond_length contents = Returns bond
/\ extract_heat_of_formation contents = Returns heat
/\ extract_total_energy contents = Returns energy
/\ run_time contents = Returns time
/\ emitted file
   = match classify (Str.contains marker contents) bond heat energy with
     | Incomplete => [record m bond heat energy time "Incomplete"]
     | Completed => [record m bond heat energy time "Completed"]
     | Rejected => []
     end.
Proof.
intros Hread Hname.
destruct (loop_body_read file contents Hread Hname)
as (m & tr & bond & heat & energy & time & tr' & Hres & Hb & Hh & He & Ht & H).
exists m, bond, heat, energy, time. unfold emitted.
rewrite Hres, (H start). cbn [fst snd results start app]. auto 10.
Qed.

Lemma emitted_skipped (file : log_file) :
text_eqb (Str.lower (name file)) (T "readme.txt") = true ->
emitted file = [].
Proof. intros H. unfold emitted, loop_body. now rewrite H. Qed.

(** How a turn ends does not depend on what was gathered before. *)
Lemma loop_body_outcome (file : log_file) (w : world) :
fst (loop_body file w) = fst (loop_body file start).
Proof.
destruct (loop_body_frame file) as (res & tr & H).
now rewrite (H w), (H start).
Qed.

Lemma emitted_unread (file : log_file) (e : exn) :
read file = Raises e -> emitted file = [].
Proof.
intros H. unfold emitted, loop_body.
destruct (text_eqb _ _); [reflexivity|].
unfold mtry, mbind, say. now rewrite H.
Qed.

Lemma run_loop_rows (files : list log_file) :
forall w,
results (run_loop files w) = results w ++ flat_map emitted (reached files).
Proof.
intros w. destruct (main_loop_rows files) as (res & tr & H).
unfold run_loop. now rewrite (H w).
Qed.

(** The files the loop comes to, by the way the loop ends. *)
Lemma reached_outcome (files : list log_file) :
forall w,
match fst (main_loop files w) with
| Returns _ => reached files = files
| Raises e =>
    exists before file after,
      files = before ++ file :: after
      /\ reached files = before ++ [file]
      /\ Forall (fun f => fst (loop_body f start) = Returns tt) before
      /\ fst (loop_body file start) = Raises e
end.
Proof.
induction files as [|file files IH]; intros w; [reflexivity|].
destruct (loop_body_frame file) as (res & tr & H).
cbn [main_loop reached]. unfold mbind. rewrite (H w), (H start). cbn [fst].
destruct res as [[]|e].
- specialize (IH (World (results w ++ emitted file) (calls w ++ tr))).
destruct (fst (main_loop files _)) as [u|e].
+ now rewrite IH.
+ destruct IH as (before & f & after & -> & -> & Hb & Hf).
  exists (file :: before), f, after. repeat split; auto.
  constructor; [|exact Hb]. now rewrite (H start).
- cbn [fst]. exists [], file, files. repeat split; auto.
now rewrite (H start).
Qed.

Lemma emitted_at_most_one (file : log_file) : length (emitted file) <= 1.
Proof.
destruct (text_eqb (Str.lower (name file)) (T "readme.txt")) eqn:Hname.
- rewrite emitted_skipped by exact Hname. simpl; lia.
- destruct (read file) as [contents|e] eqn:Hread.
+ destruct (emitted_read file contents Hread Hname)
    as (m & bond & heat & energy & time & _ & _ & _ & _ & _ & ->).
  destruct (classify _ _ _ _); simpl; lia.
+ rewrite (emitted_unread file e Hread). simpl; lia.
Qed.

End LoopRows.

(** The rows of [results] stand in the order of the files. The loop
    adds, for each file it comes to and in turn, the rows of that file; a
    file gives one row at most. It comes to every file when it ends
    without an exception; when an exception leaves it, that is the
    exception of the turn of one file, the turns before that one ended
    well, and the files after it give no row. *)
Theorem rows_in_file_order (files : list log_file) (w : world) :
  results (run_loop files w) = results w ++ flat_map emitted (reached files)
  /\ Forall (fun file => length (emitted file) <= 1) files
  /\ match fst (main_loop files w) with
     | Returns _ => reached files = files
     | Raises e =>
         exists before file after,
           files = before ++ file :: after
           /\ reached files = before ++ [file]
           /\ Forall (fun f => fst (loop_body f start) = Returns tt) before
           /\ fst (loop_body file start) = Raises e
     end.
Proof.
  split; [apply run_loop_rows|]. split; [|apply reached_outcome].
  apply Forall_forall. intros file _. apply emitted_at_most_one.
Qed.

(** A file that cannot be opened or read: the exception is caught, no
    parser and no extractor is called, nothing is appended, and the file
    name is printed. When that [print] returns, the loop goes on with the
    other files as if the file were not there; when it raises (stdout has
    no bytes for a character of the name), the exception leaves the loop
    and the other files are not looked at. *)
Theorem unreadable_file_skipped (file : log_file) (files : list log_file)
        (e : exn) (w : world) :
  text_eqb (Str.lower (name file)) (T "readme.txt") = false ->
  read file = Raises e ->
  match print file [Lit (T "error processing"); Field (PyStr (name file))] with
  | Returns _ => main_loop (file :: files) w = main_loop files w
  | Raises e' => main_loop (file :: files) w = (Raises e', w)
  end.
Proof.
  intros Hname Hread.
  assert (H : loop_body file w
              = (print file [Lit (T "error processing");
                             Field (PyStr (name file))], w)).
  { unfold loop_body. rewrite Hname.
    unfold mtry, mbind, say. now rewrite Hread. }
  destruct (print file [Lit (T "error processing");
                        Field (PyStr (name file))]) as [[]|e'];
    cbn [main_loop]; unfold mbind at 1; now rewrite H.
Qed.

Lemma unreadable_file_skipped_witness :
  main_loop [LogFile (T "a_b_c_d.log") (Raises OSError) takes_all;
             LogFile (T "w_x_y_z.log") (Returns []) takes_all] start
  = main_loop [LogFile (T "w_x_y_z.log") (Returns []) takes_all] start
  /\ main_loop [LogFile ([945%N] ++ T "_b_c_d.log") (Raises OSError) ascii_only;
                LogFile (T "w_x_y_z.log") (Returns []) ascii_only] start
     = (Raises ValueError, start).
Proof.
  split.
  - apply (unreadable_file_skipped
             (LogFile (T "a_b_c_d.log") (Raises OSError) takes_all)
             [LogFile (T "w_x_y_z.log") (Returns []) takes_all] OSError start);
      reflexivity.
  - apply (unreadable_file_skipped
             (LogFile ([945%N] ++ T "_b_c_d.log") (Raises OSError) ascii_only)
             [LogFile (T "w_x_y_z.log") (Returns []) ascii_only] OSError start);
      reflexivity.
Defined.

(** A row labelled Completed comes from a log that holds the termination
    marker, and one of its bond length, heat of formation and total energy
    is a float; a row labelled Incomplete comes from a log without the
    marker. *)
Theorem label_tells_marker (file : log_file) (r : row) :
  In r (emitted file) ->
  exists contents,
    read file = Returns contents
    /\ ((cell "Completion" r = Some (PyStr (T "Incomplete"))
         /\ Str.contains marker contents = false)
        \/ (cell "Completion" r = Some (PyStr (T "Completed"))
            /\ Str.contains marker contents = true
            /\ exists key f,
                In key ["bond_length (Å)"; "heat_of_formation (kcal/mol)";
                        "Total Energy (Hartrees)"]
                /\ cell key r = Some (PyFloat f))).
Proof.
  intros Hin.
  destruct (text_eqb (Str.lower (name file)) (T "readme.txt")) eqn:Hname.
  { rewrite emitted_skipped in Hin by exact Hname. destruct Hin. }
  destruct (read file) as [contents|e] eqn:Hread.
  2:{ rewrite (emitted_unread file e Hread) in Hin. destruct Hin. }
  destruct (emitted_read file contents Hread Hname)
    as (m & bond & heat & energy & time & _ & Hb & Hh & He & _ & E).
  rewrite E in Hin. exists contents; split; [reflexivity|].
  destruct m as [[[molecule ff] basis] method].
  unfold classify in Hin.
  destruct (Str.contains marker contents); cbn [negb] in Hin.
  - right.
    destruct (extract_bond_length_returns contents) as (v1 & Hb' & Hv1).
    destruct (extract_heat_of_formation_returns contents) as (v2 & Hh' & Hv2).
    destruct (extract_total_energy_returns contents) as (v3 & He' & Hv3).
    rewrite Hb in Hb'. injection Hb' as <-.
    rewrite Hh in Hh'. injection Hh' as <-.
    rewrite He in He'. injection He' as <-.
    destruct Hv1 as [->|[f1 ->]].
    + destruct Hv2 as [->|[f2 ->]].
      * destruct Hv3 as [->|[f3 ->]]; [destruct Hin|].
        destruct Hin as [<-|[]]. repeat split.
        exists "Total Energy (Hartrees)", f3. split; [simpl; auto|reflexivity].
      * destruct Hin as [<-|[]]. repeat split.
        exists "heat_of_formation (kcal/mol)", f2.
        split; [simpl; auto|reflexivity].
    + destruct Hin as [<-|[]]. repeat split.
      exists "bond_length (Å)", f1. split; [simpl; auto|reflexivity].
  - left. destruct Hin as [<-|[]]. split; reflexivity.
Qed.

Lemma label_tells_marker_witness :
  In (record (PyStr (T "Water"), PyStr (T "FF1"), PyStr (T "631G"), PyStr (T "HF"))
             PyNone PyNone PyNone PyNone "Incomplete")
     (emitted (LogFile (T "Water_FF1_631G_HF.log") (Returns []) takes_all))
  /\ exists contents,
      read (LogFile (T "Water_FF1_631G_HF.log") (Returns []) takes_all) = Returns contents
      /\ ((cell "Completion"
                (record (PyStr (T "Water"), PyStr (T "FF1"), PyStr (T "631G"),
                         PyStr (T "HF")) PyNone PyNone PyNone PyNone "Incomplete")
           = Some (PyStr (T "Incomplete"))
           /\ Str.contains marker contents = false)
          \/ (cell "Completion"
                   (record (PyStr (T "Water"), PyStr (T "FF1"), PyStr (T "631G"),
                            PyStr (T "HF")) PyNone PyNone PyNone PyNone "Incomplete")
              = Some (PyStr (T "Completed"))
              /\ Str.contains marker contents = true
              /\ exists key f,
                  In key ["bond_length (Å)"; "heat_of_formation (kcal/mol)";
                          "Total Energy (Hartrees)"]
                  /\ cell key
                          (record (PyStr (T "Water"), PyStr (T "FF1"),
                                   PyStr (T "631G"), PyStr (T "HF"))
                                  PyNone PyNone PyNone PyNone "Incomplete")
                     = Some (PyFloat f))).
Proof.
  split; [left; vm_compute; reflexivity|].
  apply (label_tells_marker
           (LogFile (T "Water_FF1_631G_HF.log") (Returns []) takes_all)).
  left; vm_compute; reflexivity.
Defined.


(** ** The two variants of the loop *)

Section Report.

Lemma say_all_returns (file : log_file) (messages : list (list piece))
    (w : world) :
Forall (fun message => print file message = Returns tt) messages ->
say_all file messages w = (Returns tt, w).
Proof.
induction 1 as [|message messages Hm _ IH]; [reflexivity|].
cbn [say_all]. unfold mbind, say. now rewrite Hm.
Qed.

Lemma say_all_raises (file : log_file) (messages : list (list piece))
    (w : world) :
~ Forall (fun message => print file message = Returns tt) messages ->
exists e, say_all file messages w = (Raises e, w).
Proof.
induction messages as [|message messages IH]; intros H.
- contradiction H. constructor.
- cbn [say_all]. unfold mbind, say.
destruct (print file message) as [[]|e] eqn:E; [|now exists e].
apply IH. intros HF. apply H. now constructor.
Qed.

Lemma print_returns_dec (file : log_file) (messages : list (list piece)) :
Forall (fun message => print file message = Returns tt) messages
\/ ~ Forall (fun message => print file message = Returns tt) messages.
Proof.
induction messages as [|message messages [IH|IH]].
- left. constructor.
- destruct (print file message) as [[]|e] eqn:E.
+ left. now constructor.
+ right. intros H. inversion H; congruence.
- right. intros H. inversion H; contradiction.
Qed.

(** The rows of the CSV variant for a file that is read: those of the
  other variant that are labelled Completed, cut to seven cells, when
  the four [print]s return; none when one of them raises. *)
Lemma emitted_csv_read (file : log_file) (contents : text) :
read file = Returns contents ->
text_eqb (Str.lower (name file)) (T "readme.txt") = false ->
exists bond heat energy,
extract_bond_length contents = Returns bond
/\ extract_heat_of_formation contents = Returns heat
/\ extract_total_energy contents = Returns energy
/\ (Forall (fun message => print file message = Returns tt)
           (report file bond heat energy) ->
    emitted_csv file = List.map (firstn 7) (filter completed (emitted file)))
/\ (~ Forall (fun message => print file message = Returns tt)
             (report file bond heat energy) ->
    emitted_csv file = []).
Proof.
intros Hread Hname.
destruct (loop_body_read file contents Hread Hname)
as (m & tr & bond & heat & energy & time & tr' & Hres & Hb & Hh & He & Ht & H).
exists bond, heat, energy. do 3 (split; [assumption|]).
unfold emitted. rewrite (H start). cbn [snd results start app]. clear H.
destruct m as [[[molecule ff] basis] method].
unfold classify.
assert (Hstep : forall w,
        loop_body_csv file w
        = if Str.contains marker contents then
            mtry
              (say_all file (report file bond heat energy) ;;
               if existsb (fun v => negb (is_none v)) [bond; heat; energy]
               then append (record_csv (molecule, ff, basis, method)
                                       bond heat energy)
               else say file [Lit (T "Failed Entirely")])%loop
              (fun _ => say file [Lit (T "error processing");
                                  Field (PyStr (name file))])
              (World (results w)
                     ((((calls w ++ [CallBondLength])
                          ++ [CallHeatOfFormation]) ++ [CallTotalEnergy])
                        ++ tr))
          else
            mtry (say file [Lit (T "failed to execute")])
                 (fun _ => say file [Lit (T "error processing");
                                     Field (PyStr (name file))]) w).
{ intros w. unfold loop_body_csv. rewrite Hname.
unfold mtry, mbind at 1. rewrite Hread.
destruct (Str.contains marker contents); cbn [negb]; [|reflexivity].
unfold mbind at 1 2 3 4, invoke. rewrite Hb, Hh, He, Hres. reflexivity. }
unfold emitted_csv. rewrite Hstep. clear Hstep.
destruct (Str.contains marker contents); cbn [negb].
- split; intros Hp; unfold mtry, mbind.
+ rewrite (say_all_returns file _ _ Hp).
  cbn [existsb]. rewrite orb_false_r, orb_assoc.
  destruct (negb (is_none bond) || negb (is_none heat) || negb (is_none energy));
    [reflexivity|].
  unfold say. destruct (print file [Lit (T "Failed Entirely")]);
    [reflexivity|].
  now destruct (print file [Lit (T "error processing");
                            Field (PyStr (name file))]).
+ destruct (say_all_raises file _
              (World (results start)
                     ((((calls start ++ [CallBondLength])
                          ++ [CallHeatOfFormation]) ++ [CallTotalEnergy])
                        ++ tr)) Hp) as [e E].
  rewrite E. unfold say.
  now destruct (print file [Lit (T "error processing");
                            Field (PyStr (name file))]).
- split; intros _; unfold mtry, say;
  (destruct (print file [Lit (T "failed to execute")]); [reflexivity|]);
  now destruct (print file [Lit (T "error processing");
                            Field (PyStr (name file))]).
Qed.

Lemma emitted_csv_skipped (file : log_file) :
text_eqb (Str.lower (name file)) (T "readme.txt") = true ->
emitted_csv file = [].
Proof. intros H. unfold emitted_csv, loop_body_csv. now rewrite H. Qed.

Lemma emitted_csv_unread (file : log_file) (e : exn) :
read file = Raises e -> emitted_csv file = [].
Proof.
intros H. unfold emitted_csv, loop_body_csv.
destruct (text_eqb _ _); [reflexivity|].
unfold mtry, mbind, say. now rewrite H.
Qed.

End Report.

(** The CSV variant prints the file name and the three fields before it
    appends. When these four [print]s return, it keeps the rows the
    spreadsheet variant labels Completed, without their last two cells
    (run time and completion), and nothing else: a log without the
    termination marker, which the spreadsheet variant reports as
    Incomplete, gives no CSV row. When one of the four raises (the first
    holds U+1F50D and the file name), the file gives no CSV row at all. *)
Theorem csv_rows_are_completed_rows (file : log_file) :
  (emitted_csv file = List.map (firstn 7) (filter completed (emitted file))
   \/ emitted_csv file = [])
  /\ forall contents bond heat energy,
      read file = Returns contents ->
      extract_bond_length contents = Returns bond ->
      extract_heat_of_formation contents = Returns heat ->
      extract_total_energy contents = Returns energy ->
      (Forall (fun message => print file message = Returns tt)
              (report file bond heat energy) ->
       emitted_csv file
       = List.map (firstn 7) (filter completed (emitted file)))
      /\ (forall message e,
             In message (report file bond heat energy) ->
             print file message = Raises e ->
             emitted_csv file = []).
Proof.
  destruct (text_eqb (Str.lower (name file)) (T "readme.txt")) eqn:Hname.
  { rewrite emitted_skipped, emitted_csv_skipped by exact Hname.
    split; [now left|]. intros contents bond heat energy _ _ _ _.
    split; reflexivity. }
  destruct (read file) as [contents|e] eqn:Hread.
  2:{ rewrite (emitted_unread file e Hread), (emitted_csv_unread file e Hread).
      split; [now left|]. intros contents bond heat energy _ _ _ _.
      split; reflexivity. }
  destruct (emitted_csv_read file contents Hread Hname)
    as (bond & heat & energy & Hb & Hh & He & Hyes & Hno).
  split.
  - destruct (print_returns_dec file (report file bond heat energy)) as [Hp|Hp];
      [left; now apply Hyes|right; now apply Hno].
  - intros contents' bond' heat' energy' [= <-] Hb' Hh' He'.
    rewrite Hb in Hb'. injection Hb' as <-.
    rewrite Hh in Hh'. injection Hh' as <-.
    rewrite He in He'. injection He' as <-.
    split; [exact Hyes|].
    intros message e Hin Hraise. apply Hno. intros HF.
    rewrite Forall_forall in HF. rewrite (HF message Hin) in Hraise.
    discriminate.
Qed.

Lemma csv_rows_are_completed_rows_witness :
  emitted_csv
    (LogFile (T "Water_FF1_631G_HF.log")
       (Returns (T "TOTAL ENERGY = -76.0 EXECUTION OF GAMESS TERMINATED NORMALLY"))
       takes_all)
  = List.map (firstn 7)
      (filter completed
         (emitted
            (LogFile (T "Water_FF1_631G_HF.log")
               (Returns (T "TOTAL ENERGY = -76.0 EXECUTION OF GAMESS TERMINATED NORMALLY"))
               takes_all)))
  /\ length
       (emitted
          (LogFile (T "Water_FF1_631G_HF.log")
             (Returns (T "TOTAL ENERGY = -76.0 EXECUTION OF GAMESS TERMINATED NORMALLY"))
             ascii_only)) = 1
  /\ emitted_csv
       (LogFile (T "Water_FF1_631G_HF.log")
          (Returns (T "TOTAL ENERGY = -76.0 EXECUTION OF GAMESS TERMINATED NORMALLY"))
          ascii_only)
     = [].
Proof.
  split; [|split; [vm_compute; reflexivity|]].
  - destruct (csv_rows_are_completed_rows
                (LogFile (T "Water_FF1_631G_HF.log")
                   (Returns (T "TOTAL ENERGY = -76.0 EXECUTION OF GAMESS TERMINATED NORMALLY"))
                   takes_all)) as [_ H].
    eapply H; try reflexivity.
    repeat constructor.
  - destruct (csv_rows_are_completed_rows
                (LogFile (T "Water_FF1_631G_HF.log")
                   (Returns (T "TOTAL ENERGY = -76.0 EXECUTION OF GAMESS TERMINATED NORMALLY"))
                   ascii_only)) as [_ H].
    eapply H; try reflexivity.
    + left. reflexivity.
    + reflexivity.
Defined.


Section LastReport.
Import Re Pattern.

Lemma contains_suffix (l p1 p2 : text) :
Str.contains l (p1 ++ p2) = false -> Str.startswith l p2 = false.
Proof.
induction p1 as [|c p1 IH]; cbn [app]; intros H.
- destruct p2; cbn [Str.contains] in H;
    apply orb_false_elim in H as [H _]; exact H.
- cbn [Str.contains] in H. apply orb_false_elim in H as [_ H]. auto.
Qed.

Lemma occurrences_none (l : text) (r : regex) :
forall s,
  (forall p1 p2, s = p1 ++ p2 -> Str.startswith l p2 = false) ->
  occurrences (RSeq (RLit l) r) s = [].
Proof.
induction s as [|c s IH]; intros H; cbn [occurrences].
- rewrite (match_at_lit false l r []); [reflexivity|]. now apply (H [] []).
- rewrite (match_at_lit false l r (c :: s)) by now apply (H [] (c :: s)).
  apply IH. intros p1 p2 ->. now apply (H (c :: p1) p2).
Qed.

(** The group of the wall-clock pattern takes an unsigned decimal whole,
  when no digit follows it. *)
Lemma wall_clock_time_match (ws d1 d2 rest : text) :
some_blanks ws -> ascii_digits d1 -> digits d2 ->
stops Unicode.is_decimal rest ->
yields (fun mo => group mo 1 = PyStr (d1 ++ [46%N] ++ d2))
       (match_at false wall_clock_time
                 (T "TOTAL WALL CLOCK TIME=" ++ ws ++ d1 ++ [46%N] ++ d2
                    ++ rest)).
Proof.
intros [Nw Hw] [N1 H1] [N2 H2] Hrest.
assert (Hcap : firstn (length (d1 ++ [46%N] ++ d2 ++ rest) - length rest)
                      (d1 ++ [46%N] ++ d2 ++ rest)
               = d1 ++ [46%N] ++ d2).
{ replace (d1 ++ [46%N] ++ d2 ++ rest) with ((d1 ++ [46%N] ++ d2) ++ rest)
    by (now rewrite <- !app_assoc).
  apply firstn_consumed. }
unfold match_at, wall_clock_time.
cbn [cat run lit plus andb]. rewrite strip_prefix_app.
apply yields_greedy; [exact Hw| |destruct ws; [congruence|simpl; lia]|].
{ destruct d1 as [|c d1]; [congruence|]. cbn [app forallb] in *.
  apply andb_prop in H1 as [Hc _]. cbn [cmatch ascii_digit] in Hc.
  apply andb_prop in Hc as [Hc1 Hc2]. apply N.leb_le in Hc1, Hc2.
  pose proof (ascii_digit_decimal c Hc1 Hc2) as Hv.
  exact (decimal_not_space _ _ Hv). }
apply yields_greedy;
  [exact H1|exact eq_refl|destruct d1; [congruence|simpl; lia]|].
change (T ".") with [46%N]. rewrite strip_prefix_app.
apply yields_greedy;
  [exact H2|exact Hrest|destruct d2; [congruence|simpl; lia]|].
rewrite Hcap. now apply yields_Some.
Qed.

End LastReport.

(** The run time is the text of the decimal that follows the last
    [TOTAL WALL CLOCK TIME=] of the log: blanks, ASCII digits, a point and
    digits, up to the last digit, whatever stands before. *)
Theorem run_time_after_last_literal (pre ws d1 d2 rest : text) :
  some_blanks ws -> ascii_digits d1 -> digits d2 ->
  stops Unicode.is_decimal rest ->
  Str.contains (T "TOTAL WALL CLOCK TIME=") rest = false ->
  run_time (pre ++ T "TOTAL WALL CLOCK TIME=" ++ ws ++ d1 ++ [46%N] ++ d2
                ++ rest)
  = Returns (PyStr (d1 ++ [46%N] ++ d2)).
Proof.
  intros Hws Hd1 Hd2 Hrest Hlast.
  rewrite run_time_last.
  destruct (occurrences_app Pattern.wall_clock_time pre
              (T "TOTAL WALL CLOCK TIME=" ++ ws ++ d1 ++ [46%N] ++ d2 ++ rest))
    as [l ->].
  destruct (wall_clock_time_match ws d1 d2 rest Hws Hd1 Hd2 Hrest)
    as (mo & Hmo & Hg).
  assert (Hshape := wall_clock_time_shape _ _ _ Hmo).
  assert (E : occurrences Pattern.wall_clock_time
                (T "TOTAL WALL CLOCK TIME=" ++ ws ++ d1 ++ [46%N] ++ d2 ++ rest)
              = [PyStr (d1 ++ [46%N] ++ d2)]).
  { change (T "TOTAL WALL CLOCK TIME=" ++ ws ++ d1 ++ [46%N] ++ d2 ++ rest)
      with (84%N :: (T "OTAL WALL CLOCK TIME=" ++ ws ++ d1 ++ [46%N] ++ d2
                       ++ rest)) in *.
    cbn [occurrences]. rewrite Hmo, Hg. cbn [app]. f_equal.
    unfold Pattern.wall_clock_time. cbn [Pattern.cat].
    apply occurrences_none. intros p1 p2 E.
    assert (Hbody : Forall (fun c => c <> 84%N) (ws ++ d1 ++ [46%N] ++ d2)).
    { destruct Hws as [_ Hw]. destruct Hd1 as [_ H1]. destruct Hd2 as [_ H2].
      apply ascii_digits_decimal in H1.
      unfold blanks in Hw. rewrite forallb_forall in Hw, H1, H2.
      apply Forall_forall. intros c Hc ->.
      rewrite !in_app_iff in Hc. cbn [In] in Hc.
      destruct Hc as [Hc|[Hc|[[Hc|[]]|Hc]]];
        [apply Hw in Hc|apply H1 in Hc| |apply H2 in Hc]; discriminate. }
    destruct (Nat.lt_ge_cases (S (length p1))
                              (22 + length (ws ++ d1 ++ [46%N] ++ d2)))
      as [Hlt|Hge].
    - pose proof (no_start_inside (ws ++ d1 ++ [46%N] ++ d2) rest
                                  (S (length p1)) Hbody ltac:(lia) Hlt) as Hn.
      change (T "TOTAL WALL CLOCK TIME=" ++ (ws ++ d1 ++ [46%N] ++ d2) ++ rest)
        with (84%N :: (T "OTAL WALL CLOCK TIME="
                         ++ (ws ++ d1 ++ [46%N] ++ d2) ++ rest)) in Hn.
      cbn [skipn] in Hn.
      replace (T "OTAL WALL CLOCK TIME=" ++ (ws ++ d1 ++ [46%N] ++ d2) ++ rest)
        with (p1 ++ p2) in Hn by (rewrite <- E; now rewrite <- !app_assoc).
      rewrite skipn_app, Nat.sub_diag, skipn_all in Hn. exact Hn.
    - assert (E' : p1 ++ p2
                   = (T "OTAL WALL CLOCK TIME=" ++ ws ++ d1 ++ [46%N] ++ d2)
                       ++ rest)
        by (rewrite <- E; now rewrite <- !app_assoc).
      assert (Hl : length (T "OTAL WALL CLOCK TIME=" ++ ws ++ d1 ++ [46%N] ++ d2)
                   <= length p1).
      { rewrite !length_app in *. change (length (T "OTAL WALL CLOCK TIME=")) with 21.
        cbn [length] in *. lia. }
      apply (f_equal (skipn (length p1))) in E'.
      rewrite skipn_app, Nat.sub_diag, skipn_all in E'. cbn [app skipn] in E'.
      rewrite skipn_app in E'. rewrite skipn_all2 in E' by exact Hl.
      cbn [app] in E'. rewrite E'.
      apply (contains_suffix _ (firstn (length p1 - length (T "OTAL WALL CLOCK TIME=" ++ ws ++ d1 ++ [46%N] ++ d2)) rest)).
      now rewrite firstn_skipn. }
  rewrite E. rewrite last_app_nonempty by discriminate. reflexivity.
Qed.

Lemma run_time_after_last_literal_witness :
  some_blanks (T "   ") /\ ascii_digits (T "45") /\ digits (T "6")
  /\ stops Unicode.is_decimal (T " SECONDS")
  /\ Str.contains (T "TOTAL WALL CLOCK TIME=") (T " SECONDS") = false
  /\ run_time (T "TOTAL WALL CLOCK TIME= 12.3 ... " ++ T "TOTAL WALL CLOCK TIME="
                 ++ T "   " ++ T "45" ++ [46%N] ++ T "6" ++ T " SECONDS")
     = Returns (PyStr (T "45" ++ [46%N] ++ T "6")).
Proof.
  assert (H1 : some_blanks (T "   ")) by (split; [discriminate|reflexivity]).
  assert (H2 : ascii_digits (T "45")) by (split; [discriminate|reflexivity]).
  assert (H3 : digits (T "6")) by (split; [discriminate|reflexivity]).
  split; [exact H1|]. split; [exact H2|]. split; [exact H3|].
  split; [reflexivity|]. split; [reflexivity|].
  apply (run_time_after_last_literal
           (T "TOTAL WALL CLOCK TIME= 12.3 ... ") (T "   ") (T "45") (T "6")
           (T " SECONDS") H1 H2 H3); reflexivity.
Defined.


(** ** Completeness of the matcher, and the first choice of [.*?] *)

Section Complete.
Import Re Pattern.

Lemma rep_lazy_complete (A : Type) (k : cclass) (cont : text -> option A) :
  forall w s n a,
    forallb (cmatch k) w = true ->
    n <= length w ->
    cont s = Some a ->
    exists a', rep_lazy k n (w ++ s) cont = Some a'.
Proof.
  induction w as [|c w IH]; intros s n a Hw Hn Hk.
  - cbn [length] in Hn. assert (n = 0) as -> by lia. cbn [app].
    exists a. destruct s; cbn [rep_lazy]; now rewrite Hk.
  - cbn [forallb] in Hw. apply andb_prop in Hw as [Hc Hw].
    cbn [app]. destruct n as [|n]; cbn [rep_lazy]; rewrite Hc.
    + destruct (cont (c :: w ++ s)); [eauto|].
      apply (IH s 0 a); auto; lia.
    + apply (IH s n a); auto. cbn [length] in Hn. lia.
Qed.

(** Whatever the pattern can match, the matcher finds a match, if the
    rest of the pattern accepts what is left. *)
Theorem run_complete (A : Type) (r : regex) :
  forall s gs s' gs' (cont : text -> captures -> option A),
    denote r s gs s' gs' ->
    (exists a, cont s' gs' = Some a) ->
    exists a', run r s gs cont = Some a'.
Proof.
  induction r as [l|k n g|k|i r IH|r1 IH1 r2 IH2|m];
    cbn [denote run]; intros s gs s' gs' cont H [a Hk].
  - destruct H as [-> ->]. rewrite strip_prefix_app. eauto.
  - destruct H as (w & -> & Hw & Hn & ->). destruct g.
    + now apply (rep_greedy_complete _ _ _ w s' n a).
    + now apply (rep_lazy_complete _ _ _ w s' n a).
  - destruct H as [[->|(c & -> & Hc)] ->].
    + destruct s' as [|c s']; [eauto|].
      destruct (cmatch k c); [|eauto].
      destruct (cont s' gs); eauto.
    + rewrite Hc, Hk. eauto.
  - destruct H as (g & gs1 & -> & Hd & ->).
    apply (IH _ _ _ _ _ Hd). rewrite firstn_consumed. eauto.
  - destruct H as (s1 & gs1 & H1 & H2).
    apply (IH1 _ _ _ _ _ H1). apply (IH2 _ _ _ _ _ H2). eauto.
  - destruct H as (-> & -> & ->). eauto.
Qed.

(** A lazy repetition stops at the first place where the rest of the
    pattern succeeds: it fails at every place before. *)
Lemma rep_lazy_minimal (A : Type) (k : cclass) (cont : text -> option A) (a : A) :
  forall s,
    rep_lazy k 0 s cont = Some a ->
    exists w s', s = w ++ s' /\ forallb (cmatch k) w = true
                 /\ cont s' = Some a
                 /\ forall w1 w2, w = w1 ++ w2 -> w2 <> [] ->
                                  cont (w2 ++ s') = None.
Proof.
  induction s as [|c s IH]; intros H; cbn [rep_lazy] in H.
  - destruct (cont []) eqn:E; [|discriminate]. injection H as ->.
    exists [], []. repeat split; auto.
    intros w1 w2 E' Hne. destruct w1, w2; try discriminate; congruence.
  - destruct (cont (c :: s)) eqn:E.
    + injection H as ->. exists [], (c :: s). repeat split; auto.
      intros w1 w2 E' Hne. destruct w1, w2; try discriminate; congruence.
    + destruct (cmatch k c) eqn:Hc; [|discriminate].
      destruct (IH H) as (w & s' & -> & Hw & Hk & Hmin).
      exists (c :: w), s'. cbn [forallb]. rewrite Hc, Hw.
      repeat split; auto.
      intros w1 w2 E' Hne. destruct w1 as [|c' w1]; cbn [app] in E'.
      * subst w2. exact E.
      * injection E' as <- E'. now apply (Hmin w1 w2).
Qed.

(** [search] finds the leftmost match. *)
Lemma search_leftmost (r : regex) (m : match_obj) :
  forall s, search r s = Some m ->
  exists pre s0,
    s = pre ++ s0 /\ match_at false r s0 = Some m
    /\ forall p1 p2, pre = p1 ++ p2 -> p2 <> [] ->
                     match_at false r (p2 ++ s0) = None.
Proof.
  induction s as [|c s IH]; cbn [search]; intros H.
  - destruct (match_at false r []) eqn:E; [|discriminate].
    exists [], []. repeat split; [congruence|].
    intros p1 p2 E' Hne. destruct p1, p2; try discriminate; congruence.
  - destruct (match_at false r (c :: s)) eqn:E.
    + exists [], (c :: s). repeat split; [congruence|].
      intros p1 p2 E' Hne. destruct p1, p2; try discriminate; congruence.
    + destruct (IH H) as (pre & s0 & -> & Hm & Hmin).
      exists (c :: pre), s0. repeat split; auto.
      intros p1 p2 E' Hne. destruct p1 as [|c' p1]; cbn [app] in E'.
      * subst p2. exact E.
      * injection E' as <- E'. now apply (Hmin p1 p2).
Qed.

Lemma find_of_first (l : text) :
  forall pre s,
    Str.startswith l s = true ->
    (forall p1 p2, pre = p1 ++ p2 -> p2 <> [] ->
                   Str.startswith l (p2 ++ s) = false) ->
    Str.find l (pre ++ s) = Some (length pre).
Proof.
  induction pre as [|c pre IH]; intros s Hs H.
  - cbn [app length]. destruct s; cbn [Str.find]; now rewrite Hs.
  - assert (H0 : Str.startswith l (c :: pre ++ s) = false)
      by (apply (H [] (c :: pre) eq_refl); discriminate).
    cbn [app length Str.find]. rewrite H0.
    rewrite IH; [reflexivity|exact Hs|].
    intros p1 p2 -> Hne. now apply (H (c :: p1) p2).
Qed.

Lemma startswith_inv (l : text) :
  forall s, Str.startswith l s = true -> exists t, s = l ++ t.
Proof.
  induction l as [|a l IH]; intros s H; [now exists s|].
  destruct s as [|b s]; [discriminate|]. cbn [Str.startswith] in H.
  apply andb_prop in H as [Hab H]. apply N.eqb_eq in Hab. subst b.
  destruct (IH s H) as [t ->]. now exists t.
Qed.

End Complete.

(** ** The bond length is the first starred entry *)

Section BondLength.
Import Re Pattern.

Lemma bond_length_parts :
  bond_length
  = RSeq (RLit (T "INTERNUCLEAR DISTANCES (ANGS.)"))
         (RSeq (RRep (CDot true) 0 Lazy) starred_row).
Proof. reflexivity. Qed.

Lemma starred_row_sound (s : text) (gs : captures) (s' : text) (gs' : captures) :
  denote starred_row s gs s' gs' ->
  exists g, starred_entry s g /\ gs' = (1, g) :: gs.
Proof.
  unfold starred_row.
  cbn [cat lit plus star denote]. intros H.
  destruct H as (s3 & gs3 & [-> ->] & s4 & gs4 & (ws0 & -> & H0 & _ & ->)
                 & s5 & gs5 & (idx & -> & Hidx & Lidx & ->)
                 & s6 & gs6 & (ws1 & -> & H1 & L1 & ->)
                 & s7 & gs7 & (el & -> & Hel & Lel & ->)
                 & s8 & gs8 & (ws2 & -> & H2 & L2 & ->)
                 & s9 & gs9
                 & (g & gs10 & Eg
                    & (s10 & gs11 & (d1 & Ed1 & Hd1 & Ld1 & ->)
                       & s11 & gs12 & [-> ->] & d2 & -> & Hd2 & Ld2 & ->) & ->)
                 & s12 & gs13 & (ws3 & -> & H3 & L3 & ->) & [-> ->]).
  assert (g = d1 ++ [46%N] ++ d2) as Hg.
  { rewrite Ed1 in Eg. change (T ".") with [46%N] in Eg.
    assert (E' : (d1 ++ [46%N] ++ d2) ++ ws3 ++ T "*" ++ s'
                 = g ++ ws3 ++ T "*" ++ s')
      by (rewrite <- !app_assoc; exact Eg).
    apply app_inv_tail in E'. now subst g. }
  exists g; split; [|reflexivity].
  exists ws0, idx, ws1, el, ws2, d1, d2, ws3, s'.
  split; [now rewrite Eg|]. split; [exact Hg|].
  repeat split; auto using nonempty_length.
Qed.

Lemma length_nonempty (w : text) : w <> [] -> 1 <= length w.
Proof. destruct w; [congruence|simpl; lia]. Qed.

Lemma starred_row_complete (s g : text) (gs : captures) :
  starred_entry s g -> exists s', denote starred_row s gs s' ((1, g) :: gs).
Proof.
  intros (ws0 & idx & ws1 & el & ws2 & d1 & d2 & ws3 & rest & -> & -> & H0
          & [Nidx Hidx] & [N1 H1] & [Nel Hel] & [N2 H2] & [Nd1 Hd1]
          & [Nd2 Hd2] & [N3 H3]).
  exists rest. unfold starred_row. cbn [cat lit plus star denote].
  exists (ws0 ++ idx ++ ws1 ++ el ++ ws2 ++ (d1 ++ [46%N] ++ d2) ++ ws3
              ++ T "*" ++ rest), gs.
  split; [split; reflexivity|].
  exists (idx ++ ws1 ++ el ++ ws2 ++ (d1 ++ [46%N] ++ d2) ++ ws3 ++ T "*" ++ rest), gs.
  split; [exists ws0; repeat split; auto; lia|].
  exists (ws1 ++ el ++ ws2 ++ (d1 ++ [46%N] ++ d2) ++ ws3 ++ T "*" ++ rest), gs.
  split; [exists idx; repeat split; auto using length_nonempty|].
  exists (el ++ ws2 ++ (d1 ++ [46%N] ++ d2) ++ ws3 ++ T "*" ++ rest), gs.
  split; [exists ws1; repeat split; auto using length_nonempty|].
  exists (ws2 ++ (d1 ++ [46%N] ++ d2) ++ ws3 ++ T "*" ++ rest), gs.
  split; [exists el; repeat split; auto using length_nonempty|].
  exists ((d1 ++ [46%N] ++ d2) ++ ws3 ++ T "*" ++ rest), gs.
  split; [exists ws2; repeat split; auto using length_nonempty|].
  exists (ws3 ++ T "*" ++ rest), ((1, d1 ++ [46%N] ++ d2) :: gs).
  split.
  - exists (d1 ++ [46%N] ++ d2), gs. split; [reflexivity|]. split; [|reflexivity].
    exists ([46%N] ++ d2 ++ ws3 ++ T "*" ++ rest), gs. split.
    + exists d1. repeat split; auto using length_nonempty.
      now rewrite <- !app_assoc.
    + exists (d2 ++ ws3 ++ T "*" ++ rest), gs. split; [split; reflexivity|].
      exists d2. repeat split; auto using length_nonempty.
  - exists (T "*" ++ rest), ((1, d1 ++ [46%N] ++ d2) :: gs).
    split; [exists ws3; repeat split; auto using length_nonempty|].
    split; reflexivity.
Qed.

Lemma any_char_run (s : text) : forallb (cmatch (CDot true)) s = true.
Proof. induction s; [reflexivity|exact IHs]. Qed.

Lemma skip_same_length (a a' p t u : text) :
  a ++ t = p ++ a' ++ u -> length a = length a' -> exists z, t = z ++ u.
Proof.
  intros E L. apply (f_equal (skipn (length a))) in E.
  rewrite skipn_app, Nat.sub_diag, skipn_all in E. cbn [app skipn] in E.
  rewrite app_assoc, skipn_app in E.
  replace (length a - length (p ++ a')) with 0 in E
    by (rewrite length_app; lia).
  cbn [skipn] in E. eauto.
Qed.

(** A match of the bond-length pattern exists wherever the header stands
    with a starred entry somewhere behind it. *)
Lemma bond_length_match_exists (z row g : text) :
  starred_entry row g ->
  exists mo, match_at false bond_length
                      (T "INTERNUCLEAR DISTANCES (ANGS.)" ++ z ++ row) = Some mo.
Proof.
  intros Hrow. destruct (starred_row_complete row g [] Hrow) as [s' Hd].
  unfold match_at. apply run_complete with (s' := s') (gs' := [(1, g)]).
  - rewrite bond_length_parts. cbn [denote].
    exists (z ++ row), []. split; [split; reflexivity|].
    exists row, []. split; [|exact Hd].
    exists z. repeat split; [apply any_char_run|lia].
  - cbn [andb]. eauto.
Qed.

End BondLength.

(** The bond length is the first starred entry of the table: when a float
    is returned, the log holds the header [INTERNUCLEAR DISTANCES (ANGS.)],
    for the first time at some place, and behind it a line that starts with
    an index, a symbol in capitals and an unsigned decimal followed by
    blanks and [*]; the float is that decimal, and no such line starts
    anywhere between the header and this line. *)
Theorem bond_length_first_starred_entry (log : text) (f : spec_float) :
  extract_bond_length log = Returns (PyFloat f) ->
  exists pre junk row g,
    log = pre ++ T "INTERNUCLEAR DISTANCES (ANGS.)" ++ junk ++ row
    /\ Str.find (T "INTERNUCLEAR DISTANCES (ANGS.)") log = Some (length pre)
    /\ starred_entry row g
    /\ Float.of_text g = Some f
    /\ forall junk1 row1 g1,
        junk ++ row = junk1 ++ row1 -> length junk1 < length junk ->
        ~ starred_entry row1 g1.
Proof.
  unfold extract_bond_length.
  destruct (Re.search Pattern.bond_length log) as [mo|] eqn:Hs;
    [|discriminate].
  intros Hf.
  apply search_leftmost in Hs as (pre & s0 & -> & Hm & Hleft).
  pose proof Hm as Hm'. unfold Re.match_at in Hm'.
  rewrite bond_length_parts in Hm'. cbn [Re.run andb] in Hm'.
  destruct (Str.strip_prefix (T "INTERNUCLEAR DISTANCES (ANGS.)") s0)
    as [t|] eqn:Hp; [|discriminate].
  apply strip_prefix_inv in Hp. subst s0.
  apply rep_lazy_minimal in Hm' as (junk & row & -> & _ & Hk & Hmin).
  apply run_sound in Hk as (s' & gs' & Hd & Hk).
  apply starred_row_sound in Hd as (g & Hrow & ->).
  injection Hk as <-.
  cbn [Re.group Re.groups Re.lookup Nat.eqb] in Hf.
  apply py_float_str_inv in Hf.
  exists pre, junk, row, g. split; [reflexivity|].
  split; [|split; [exact Hrow|split; [exact Hf|]]].
  - apply find_of_first; [apply startswith_app|].
    intros p1 p2 E Hp2.
    destruct (Str.startswith (T "INTERNUCLEAR DISTANCES (ANGS.)")
                (p2 ++ T "INTERNUCLEAR DISTANCES (ANGS.)" ++ junk ++ row))
      eqn:Hst; [exfalso|reflexivity].
    apply startswith_inv in Hst as [t2 E2].
    destruct (skip_same_length _ _ _ _ _ (eq_sym E2) eq_refl) as [z Ez].
    destruct (bond_length_match_exists (z ++ junk) row g Hrow) as [mo' Hmo'].
    rewrite <- app_assoc, <- Ez, <- E2 in Hmo'.
    rewrite (Hleft p1 p2 E Hp2) in Hmo'. discriminate.
  - intros junk1 row1 g1 E Hlen Hrow1.
    apply app_eq_app in E as [w [[E1 E2]|[E1 E2]]].
    + destruct w as [|c w].
      { rewrite app_nil_r in E1. subst junk1. lia. }
      destruct (starred_row_complete row1 g1 [] Hrow1) as [s1 Hd1].
      destruct (run_complete _ starred_row row1 [] s1 [(1, g1)]
                  (fun s' gs =>
                     if false && (length s' =? length
                                    (T "INTERNUCLEAR DISTANCES (ANGS.)"
                                       ++ junk ++ row))
                     then None else Some (Re.MatchObj gs s'))
                  Hd1) as [a' Ha']; [cbn [andb]; eauto|].
      rewrite E2 in Ha'. cbn [andb] in Ha'.
      rewrite (Hmin junk1 (c :: w) E1) in Ha' by discriminate. discriminate.
    + subst junk1. rewrite length_app in Hlen. lia.
Qed.

Lemma bond_length_first_starred_entry_witness :
  extract_bond_length
    (T "INTERNUCLEAR DISTANCES (ANGS.)" ++ [10%N] ++ T " ---" ++ [10%N]
       ++ T " 1 O  0.0000000  0.9894093 *" ++ [10%N]
       ++ T " 2 H  0.9894093 *  0.0000000" ++ [10%N])
  = Returns (PyFloat (S754_finite false 8911806709593807 (-53)))
  /\ exists pre junk row g,
      T "INTERNUCLEAR DISTANCES (ANGS.)" ++ [10%N] ++ T " ---" ++ [10%N]
        ++ T " 1 O  0.0000000  0.9894093 *" ++ [10%N]
        ++ T " 2 H  0.9894093 *  0.0000000" ++ [10%N]
      = pre ++ T "INTERNUCLEAR DISTANCES (ANGS.)" ++ junk ++ row
      /\ Str.find (T "INTERNUCLEAR DISTANCES (ANGS.)")
                  (T "INTERNUCLEAR DISTANCES (ANGS.)" ++ [10%N] ++ T " ---"
                     ++ [10%N] ++ T " 1 O  0.0000000  0.9894093 *" ++ [10%N]
                     ++ T " 2 H  0.9894093 *  0.0000000" ++ [10%N])
         = Some (length pre)
      /\ starred_entry row g
      /\ Float.of_text g = Some (S754_finite false 8911806709593807 (-53))
      /\ forall junk1 row1 g1,
          junk ++ row = junk1 ++ row1 -> length junk1 < length junk ->
          ~ starred_entry row1 g1.
Proof.
  split; [vm_compute; reflexivity|].
  apply (bond_length_first_starred_entry
           (T "INTERNUCLEAR DISTANCES (ANGS.)" ++ [10%N] ++ T " ---" ++ [10%N]
              ++ T " 1 O  0.0000000  0.9894093 *" ++ [10%N]
              ++ T " 2 H  0.9894093 *  0.0000000" ++ [10%N])
           (S754_finite false 8911806709593807 (-53))).
  vm_compute; reflexivity.
Defined.


(** ** The export: which cells the colouring changes *)

Section Colouring.

Lemma text_eqb_true (a b : text) : text_eqb a b = true <-> a = b.
Proof.
unfold text_eqb. destruct (list_eq_dec N.eq_dec a b); split; intros H;
try reflexivity; try assumption; try discriminate; contradiction.
Qed.

Lemma is_text_true (v : pyval) (s : text) :
is_text v s = true <-> v = PyStr s.
Proof.
destruct v as [|t|f]; cbn [is_text]; split; intros H; try discriminate.
- apply text_eqb_true in H. now subst.
- injection H as ->. now apply text_eqb_true.
Qed.

Lemma paint_cell_value (c : xcell) : value (paint_cell c) = value c.
Proof.
unfold paint_cell.
destruct (is_text (value c) (T "Completed")); [reflexivity|].
destruct (is_text (value c) (T "Incomplete")); reflexivity.
Qed.

Lemma paint_cell_fill (c : xcell) :
fill (paint_cell c) <> fill c ->
(value c = PyStr (T "Completed") /\ fill (paint_cell c) = Some Green)
\/ (value c = PyStr (T "Incomplete") /\ fill (paint_cell c) = Some Red).
Proof.
unfold paint_cell.
destruct (is_text (value c) (T "Completed")) eqn:E1.
- intros _. left. split; [now apply is_text_true|reflexivity].
- destruct (is_text (value c) (T "Incomplete")) eqn:E2.
+ intros _. right. split; [now apply is_text_true|reflexivity].
+ intros H. now contradiction H.
Qed.

Lemma paint_cell_completed (c : xcell) :
value c = PyStr (T "Completed") -> paint_cell c = XCell (value c) (Some Green).
Proof. intros H. unfold paint_cell. now rewrite H. Qed.

Lemma paint_cell_incomplete (c : xcell) :
value c = PyStr (T "Incomplete") -> paint_cell c = XCell (value c) (Some Red).
Proof. intros H. unfold paint_cell. now rewrite H. Qed.

Lemma paint_values (r : list xcell) :
forall k, List.map value (paint k r) = List.map value r.
Proof.
induction r as [|c r IH]; intros k; [reflexivity|].
destruct k as [|[|k]]; cbn [paint List.map]; [reflexivity| |].
- now rewrite paint_cell_value.
- now rewrite IH.
Qed.

(** The cell [j] (from 0) of a painted row. *)
Lemma nth_error_paint (r : list xcell) :
forall k j,
nth_error (paint (S k) r) j
= option_map (fun c => if j =? k then paint_cell c else c) (nth_error r j).
Proof.
induction r as [|c r IH]; intros k j.
- cbn [paint]. now destruct j.
- destruct k as [|k]; cbn [paint].
+ destruct j as [|j]; cbn [nth_error option_map Nat.eqb]; [reflexivity|].
  now destruct (nth_error r j).
+ destruct j as [|j]; cbn [nth_error option_map Nat.eqb]; [reflexivity|].
  apply IH.
Qed.

Lemma find_completion_ge (cells : list xcell) :
forall idx k, find_completion idx cells = Some k -> idx <= k.
Proof.
induction cells as [|c cells IH]; intros idx k; cbn [find_completion];
[discriminate|].
destruct (is_text _ _).
- intros [= <-]. lia.
- intros H. apply IH in H. lia.
Qed.

Lemma colour_rows_column (k : nat) (rows : worksheet) :
colour_rows (Some (S k)) rows = Returns (List.map (paint (S k)) rows).
Proof.
induction rows as [|r rows IH]; [reflexivity|].
cbn [colour_rows List.map]. now rewrite IH.
Qed.

Lemma colour_rows_no_column (rows : worksheet) :
colour_rows None rows
= match rows with [] => Returns [] | _ :: _ => Raises TypeError end.
Proof. now destruct rows. Qed.

(** The rows of a sheet between two of its parts, changed by [f]. *)
Lemma nth_error_middle (f : list xcell -> list xcell) (m : nat) :
forall (t : worksheet) i,
nth_error (List.map f (firstn m t) ++ skipn m t) i
= option_map (fun r => if i <? m then f r else r) (nth_error t i).
Proof.
induction m as [|m IH]; intros t i.
- cbn [firstn List.map skipn app]. now destruct (nth_error t i).
- destruct t as [|r t]; [now destruct i|].
cbn [firstn List.map skipn app].
destruct i as [|i]; [reflexivity|].
cbn [nth_error]. rewrite IH.
destruct (nth_error t i); [|reflexivity].
cbn [option_map]. change (S i <? S m) with (i <? m). reflexivity.
Qed.

Lemma last_filled_bound (ws : worksheet) :
forall i, last_filled i ws = 0 \/ (i <= last_filled i ws < i + length ws).
Proof.
induction ws as [|r ws IH]; intros i; [now left|].
cbn [last_filled length].
destruct (IH (S i)) as [E|H].
- rewrite E. destruct r; [now left|right; lia].
- destruct (last_filled (S i) ws) eqn:E; [lia|]. right. lia.
Qed.

Lemma max_row_bound (ws : worksheet) : 2 <= max_row ws -> max_row ws <= length ws.
Proof.
unfold max_row. destruct (last_filled_bound ws 1) as [E|H]; [rewrite E; simpl|]; lia.
Qed.

(** The sheet after the two loops, when they return. *)
Lemma colour_completion_sheet (ws ws' : worksheet) :
colour_completion ws = Returns ws' ->
exists f : list xcell -> list xcell,
ws' = firstn 1 ws ++ List.map f (firstn (max_row ws - 1) (skipn 1 ws))
      ++ skipn (max_row ws) ws
/\ ((f = (fun r => r) /\ find_completion 1 (first_row ws) = None)
    \/ exists k, f = paint (S k)
                 /\ find_completion 1 (first_row ws) = Some (S k)).
Proof.
unfold colour_completion. cbv zeta.
destruct (find_completion 1 (first_row ws)) as [k|] eqn:Ek.
- apply find_completion_ge in Ek as Hk. destruct k as [|k]; [lia|].
rewrite colour_rows_column. cbn [rbind]. intros [= <-].
exists (paint (S k)). split; [reflexivity|]. right. now exists k.
- rewrite colour_rows_no_column.
destruct (firstn (max_row ws - 1) (skipn 1 ws)) eqn:E; [|discriminate].
cbn [rbind]. intros [= <-]. exists (fun r => r). split; [|now left].
reflexivity.
Qed.

Lemma max_row_pos (ws : worksheet) : 1 <= max_row ws.
Proof. unfold max_row. lia. Qed.

(** The rows of the sheet after the loops: the row [i] (from 0) is changed
  when it is one of the rows 2 to [max_row]. *)
Lemma nth_error_coloured (f : list xcell -> list xcell) (ws : worksheet)
    (i : nat) :
nth_error (firstn 1 ws ++ List.map f (firstn (max_row ws - 1) (skipn 1 ws))
         ++ skipn (max_row ws) ws) i
= option_map (fun r => if (1 <=? i) && (i <? max_row ws) then f r else r)
           (nth_error ws i).
Proof.
pose proof (max_row_pos ws) as Hn.
destruct (max_row ws) as [|m]; [lia|].
replace (S m - 1) with m by lia.
destruct ws as [|h t].
{ cbn [firstn skipn app]. rewrite firstn_nil. now destruct i. }
cbn [firstn skipn app].
destruct i as [|i]; [reflexivity|].
cbn [nth_error]. rewrite nth_error_middle.
destruct (nth_error t i); [|reflexivity].
cbn [option_map]. change (1 <=? S i) with true. cbn [andb].
change (S i <? S m) with (i <? m). reflexivity.
Qed.

(** The sheet after the loops, cell by cell. *)
Lemma cell_at_coloured (ws ws' : worksheet) (row column : nat) :
colour_completion ws = Returns ws' ->
cell_at ws' row column
= option_map
  (fun c =>
     if (2 <=? row) && (row <=? max_row ws)
     then match find_completion 1 (first_row ws) with
          | Some k => if column =? k then paint_cell c else c
          | None => c
          end
     else c)
  (cell_at ws row column).
Proof.
intros H. destruct (colour_completion_sheet ws ws' H) as (f & -> & Hf).
destruct row as [|i]; [reflexivity|]. destruct column as [|j]; [reflexivity|].
cbn [cell_at]. rewrite nth_error_coloured.
change (2 <=? S i) with (1 <=? i). change (S i <=? max_row ws) with (i <? max_row ws).
destruct (nth_error ws i) as [r|]; [|reflexivity].
cbn [option_map].
destruct ((1 <=? i) && (i <? max_row ws)).
- destruct Hf as [[-> ->]|(k & -> & ->)].
+ now destruct (nth_error r j).
+ rewrite nth_error_paint. change (S j =? S k) with (j =? k). reflexivity.
- now destruct (nth_error r j).
Qed.

Lemma values_coloured (f : list xcell -> list xcell) (ws : worksheet) :
(forall r, List.map value (f r) = List.map value r) ->
List.map (List.map value)
       (firstn 1 ws ++ List.map f (firstn (max_row ws - 1) (skipn 1 ws))
        ++ skipn (max_row ws) ws)
= List.map (List.map value) ws.
Proof.
intros Hf. pose proof (max_row_pos ws) as Hn.
destruct (max_row ws) as [|m]; [lia|].
replace (S m - 1) with m by lia.
destruct ws as [|h t].
{ cbn [firstn skipn app]. now rewrite firstn_nil. }
cbn [firstn skipn app List.map]. f_equal.
rewrite map_app, map_map.
rewrite (map_ext _ (fun r => List.map value r) Hf).
rewrite <- map_app. now rewrite firstn_skipn.
Qed.

End Colouring.

(** The two loops of the export, when they return, leave every cell
    of the sheet where it is with the value it has, and give a new fill to
    nothing but cells of the rows 2 to [max_row] in the first column whose
    label is Completion: green to a cell that holds Completed, red to one
    that holds Incomplete. *)
Theorem colouring_changes_fills_only (ws ws' : worksheet) :
  colour_completion ws = Returns ws' ->
  List.map (List.map value) ws' = List.map (List.map value) ws
  /\ forall row column c c',
      cell_at ws row column = Some c ->
      cell_at ws' row column = Some c' ->
      fill c' <> fill c ->
      2 <= row <= max_row ws
      /\ find_completion 1 (first_row ws) = Some column
      /\ ((value c = PyStr (T "Completed") /\ fill c' = Some Green)
          \/ (value c = PyStr (T "Incomplete") /\ fill c' = Some Red)).
Proof.
  intros H. split.
  - destruct (colour_completion_sheet ws ws' H) as (f & -> & Hf).
    apply values_coloured.
    destruct Hf as [[-> _]|(k & -> & _)]; intros r;
      [reflexivity|apply paint_values].
  - intros row column c c' Hc Hc' Hfill.
    rewrite (cell_at_coloured ws ws' row column H), Hc in Hc'.
    cbn [option_map] in Hc'.
    destruct ((2 <=? row) && (row <=? max_row ws)) eqn:Hrow.
    2:{ injection Hc' as <-. now contradiction Hfill. }
    apply andb_prop in Hrow as [H2 Hm].
    apply Nat.leb_le in H2. apply Nat.leb_le in Hm.
    destruct (find_completion 1 (first_row ws)) as [k|].
    2:{ injection Hc' as <-. now contradiction Hfill. }
    destruct (column =? k) eqn:Ek.
    2:{ injection Hc' as <-. now contradiction Hfill. }
    apply Nat.eqb_eq in Ek. subst k. injection Hc' as <-.
    split; [lia|]. split; [reflexivity|]. now apply paint_cell_fill.
Qed.

Lemma colouring_changes_fills_only_witness :
  colour_completion
    [[XCell (PyStr (T "molecule")) None; XCell (PyStr (T "Completion")) None];
     [XCell (PyStr (T "Water")) None; XCell (PyStr (T "Completed")) None];
     [XCell PyNone None; XCell (PyStr (T "Incomplete")) None]]
  = Returns
      [[XCell (PyStr (T "molecule")) None; XCell (PyStr (T "Completion")) None];
       [XCell (PyStr (T "Water")) None;
        XCell (PyStr (T "Completed")) (Some Green)];
       [XCell PyNone None; XCell (PyStr (T "Incomplete")) (Some Red)]]
  /\ fill (XCell (PyStr (T "Completed")) (Some Green))
     <> fill (XCell (PyStr (T "Completed")) None)
  /\ 2 <= 2 <= 3
  /\ ((value (XCell (PyStr (T "Completed")) None) = PyStr (T "Completed")
       /\ fill (XCell (PyStr (T "Completed")) (Some Green)) = Some Green)
      \/ (value (XCell (PyStr (T "Completed")) None) = PyStr (T "Incomplete")
          /\ fill (XCell (PyStr (T "Completed")) (Some Green)) = Some Red)).
Proof.
  split; [reflexivity|]. split; [discriminate|].
  destruct (colouring_changes_fills_only
              [[XCell (PyStr (T "molecule")) None;
                XCell (PyStr (T "Completion")) None];
               [XCell (PyStr (T "Water")) None;
                XCell (PyStr (T "Completed")) None];
               [XCell PyNone None; XCell (PyStr (T "Incomplete")) None]]
              _ eq_refl) as [_ H].
  destruct (H 2 2 (XCell (PyStr (T "Completed")) None)
              (XCell (PyStr (T "Completed")) (Some Green))
              eq_refl eq_refl) as (Hrow & _ & Hcol); [discriminate|].
  split; [exact Hrow|exact Hcol].
Defined.

(** When the loops return and the first row has the label
    Completion, every cell under the first such label in the rows 2 to
    [max_row] that holds Completed is green afterwards, and every one that
    holds Incomplete is red, whatever fill it had. *)
Theorem colouring_paints_labelled_cells (ws ws' : worksheet)
        (row column : nat) (c : xcell) :
  colour_completion ws = Returns ws' ->
  find_completion 1 (first_row ws) = Some column ->
  2 <= row <= max_row ws ->
  cell_at ws row column = Some c ->
  (value c = PyStr (T "Completed") ->
   cell_at ws' row column = Some (XCell (value c) (Some Green)))
  /\ (value c = PyStr (T "Incomplete") ->
      cell_at ws' row column = Some (XCell (value c) (Some Red))).
Proof.
  intros H Hcol [H2 Hm] Hc.
  rewrite (cell_at_coloured ws ws' row column H), Hc, Hcol.
  cbn [option_map].
  apply Nat.leb_le in H2. apply Nat.leb_le in Hm. rewrite H2, Hm.
  cbn [andb]. rewrite Nat.eqb_refl.
  split; intros Hv.
  - now rewrite paint_cell_completed.
  - now rewrite paint_cell_incomplete.
Qed.

Lemma colouring_paints_labelled_cells_witness :
  colour_completion
    [[XCell (PyStr (T "Completion")) None];
     [XCell (PyStr (T "Incomplete")) (Some Green)]]
  = Returns
      [[XCell (PyStr (T "Completion")) None];
       [XCell (PyStr (T "Incomplete")) (Some Red)]]
  /\ cell_at
       [[XCell (PyStr (T "Completion")) None];
        [XCell (PyStr (T "Incomplete")) (Some Red)]] 2 1
     = Some (XCell (PyStr (T "Incomplete")) (Some Red)).
Proof.
  split; [reflexivity|].
  apply (colouring_paints_labelled_cells
           [[XCell (PyStr (T "Completion")) None];
            [XCell (PyStr (T "Incomplete")) (Some Green)]]
           [[XCell (PyStr (T "Completion")) None];
            [XCell (PyStr (T "Incomplete")) (Some Red)]]
           2 1 (XCell (PyStr (T "Incomplete")) (Some Green))
           eq_refl eq_refl (conj (le_n 2) (le_n 2)) eq_refl).
  reflexivity.
Defined.

(** The colouring raises exactly when no cell of the first row holds
    Completion and the sheet has a second row to colour; what it raises
    then is a TypeError, at the first of these rows. A sheet without cells
    is left as it is. *)
Theorem colouring_raises_iff (ws : worksheet) :
  match colour_completion ws with
  | Raises e =>
      e = TypeError
      /\ find_completion 1 (first_row ws) = None /\ 2 <= max_row ws
  | Returns _ =>
      max_row ws <= 1 \/ exists k, find_completion 1 (first_row ws) = Some k
  end.
Proof.
  unfold colour_completion. cbv zeta.
  destruct (find_completion 1 (first_row ws)) as [k|] eqn:Ek.
  - apply find_completion_ge in Ek as Hk. destruct k as [|k]; [lia|].
    rewrite colour_rows_column. cbn [rbind]. right. now exists (S k).
  - rewrite colour_rows_no_column.
    destruct (firstn (max_row ws - 1) (skipn 1 ws)) as [|r rows] eqn:E;
      cbn [rbind].
    + left. destruct (Nat.le_gt_cases (max_row ws) 1) as [Hle|Hgt]; [exact Hle|].
      pose proof (max_row_bound ws Hgt) as Hb.
      apply (f_equal (@length _)) in E.
      rewrite length_firstn, length_skipn in E. cbn [length] in E. lia.
    + split; [reflexivity|]. split; [reflexivity|].
      destruct (Nat.le_gt_cases (max_row ws) 1) as [Hle|Hgt]; [|lia].
      replace (max_row ws - 1) with 0 in E by lia. discriminate.
Qed.

(** ** The export of the rows of the main loop *)

Section ExportOfResults.

Variable excel : pyval -> pyval.
Hypothesis excel_completed :
excel (PyStr (T "Completed")) = PyStr (T "Completed").
Hypothesis excel_incomplete :
excel (PyStr (T "Incomplete")) = PyStr (T "Incomplete").

(** A row the loop appends: the dict of one of its two branches. *)
Lemma emitted_record (file : log_file) (r : row) :
In r (emitted file) ->
exists m bond heat energy time,
r = record m bond heat energy time "Completed"
\/ r = record m bond heat energy time "Incomplete".
Proof.
intros Hin.
destruct (text_eqb (Str.lower (name file)) (T "readme.txt")) eqn:Hname.
{ rewrite emitted_skipped in Hin by exact Hname. destruct Hin. }
destruct (read file) as [contents|e] eqn:Hread.
2:{ rewrite (emitted_unread file e Hread) in Hin. destruct Hin. }
destruct (emitted_read file contents Hread Hname)
as (m & bond & heat & energy & time & _ & _ & _ & _ & _ & E).
rewrite E in Hin. exists m, bond, heat, energy, time.
destruct (classify _ _ _ _).
- destruct Hin as [<-|[]]. now left.
- destruct Hin as [<-|[]]. now right.
- destruct Hin.
Qed.

Lemma results_records (files : list log_file) :
Forall (fun r => exists m bond heat energy time,
          r = record m bond heat energy time "Completed"
          \/ r = record m bond heat energy time "Incomplete")
     (results (run_loop files start)).
Proof.
rewrite run_loop_rows. cbn [results start app].
apply Forall_forall. intros r Hin. apply in_flat_map in Hin as (file & _ & Hin).
now apply (emitted_record file).
Qed.

Lemma record_keys (m : metadata) (bond heat energy time : pyval)
    (completion : String.string) :
List.map fst (record m bond heat energy time completion)
= List.map fst (record all_none PyNone PyNone PyNone PyNone "").
Proof. destruct m as [[[molecule ff] basis] method]. reflexivity. Qed.

Lemma uniq_seen (seen ks : list String.string) :
(forall k, In k ks -> In k seen) -> uniq seen ks = [].
Proof.
induction ks as [|k ks IH]; intros H; [reflexivity|].
cbn [uniq].
assert (E : existsb (String.eqb k) seen = true).
{ apply existsb_exists. exists k. split; [apply H; now left|].
apply String.eqb_refl. }
rewrite E. apply IH. intros k' Hk'. apply H. now right.
Qed.

(** The columns of the frame are the nine keys of the dicts. *)
Lemma columns_records (r : row) (rs : list row) :
Forall (fun r => exists m bond heat energy time,
          r = record m bond heat energy time "Completed"
          \/ r = record m bond heat energy time "Incomplete")
     (r :: rs) ->
columns (r :: rs)
= List.map fst (record all_none PyNone PyNone PyNone PyNone "").
Proof.
intros H. unfold columns. cbn [flat_map].
assert (Hk : forall r', In r' (r :: rs) ->
            List.map fst r'
            = List.map fst (record all_none PyNone PyNone PyNone PyNone "")).
{ intros r' Hin. rewrite Forall_forall in H.
destruct (H r' Hin) as (m & b & h & e & t & [->| ->]); apply record_keys. }
rewrite (Hk r (or_introl eq_refl)).
cbn [record all_none List.map fst app uniq existsb].
cbn -[uniq].
rewrite uniq_seen; [reflexivity|].
intros k Hin. apply in_flat_map in Hin as (r' & Hr' & Hin).
rewrite (Hk r' (or_intror Hr')) in Hin.
cbn [record all_none List.map fst In] in Hin. cbn [In].
intuition.
Qed.

(** The row of the sheet for a dict of the loop: its nine values in the
  order of the dict. *)
Lemma sheet_row_record (m : metadata) (bond heat energy time : pyval)
    (completion : String.string) :
List.map
(fun k => XCell match cell k (record m bond heat energy time completion) with
                | Some v => excel v
                | None => PyNone
                end None)
(List.map fst (record all_none PyNone PyNone PyNone PyNone ""))
= List.map (fun v => XCell (excel v) None)
         (List.map snd (record m bond heat energy time completion)).
Proof. destruct m as [[[molecule ff] basis] method]. reflexivity. Qed.

Lemma painted_record (r : row) :
(exists m bond heat energy time,
  r = record m bond heat energy time "Completed"
  \/ r = record m bond heat energy time "Incomplete") ->
let cells :=
paint 9 (List.map
           (fun k => XCell match cell k r with
                           | Some v => excel v
                           | None => PyNone
                           end None)
           (List.map fst (record all_none PyNone PyNone PyNone PyNone "")))
in
List.map fill cells
= repeat None 8 ++ [Some (if completed r then Green else Red)]
/\ length cells = 9.
Proof.
intros (m & b & h & e & t & [->| ->]); cbv zeta; rewrite sheet_row_record;
destruct m as [[[molecule ff] basis] method];
cbn [record List.map snd paint];
[rewrite excel_completed|rewrite excel_incomplete]; split; reflexivity.
Qed.

Lemma find_completion_app (a b : list xcell) :
forall idx k,
find_completion idx a = Some k -> find_completion idx (a ++ b) = Some k.
Proof.
induction a as [|c a IH]; intros idx k; cbn [find_completion app];
[discriminate|].
destruct (is_text _ _); [trivial|apply IH].
Qed.

Lemma last_filled_full (ws : worksheet) :
Forall (fun r => r <> []) ws ->
forall i, ws <> [] -> last_filled i ws = i + length ws - 1.
Proof.
induction 1 as [|r ws Hr Hws IH]; intros i Hne; [now contradiction Hne|].
cbn [last_filled length].
destruct ws as [|r' ws'].
- cbn [last_filled length]. destruct r; [now contradiction Hr|lia].
- rewrite IH by discriminate. cbn [length].
destruct (S i + S (length ws') - 1) eqn:E; lia.
Qed.

(** The sheet of the rows of the loop, coloured. *)
Lemma coloured_records (r : row) (rs : list row) :
Forall (fun r => exists m bond heat energy time,
          r = record m bond heat energy time "Completed"
          \/ r = record m bond heat energy time "Incomplete")
     (r :: rs) ->
colour_completion (sheet_of excel (r :: rs))
= Returns (firstn 1 (sheet_of excel (r :: rs))
         ++ List.map (paint 9) (skipn 1 (sheet_of excel (r :: rs)))).
Proof.
intros H. pose proof (columns_records r rs H) as Hcols.
unfold colour_completion. cbv zeta.
assert (Hfind : find_completion 1 (first_row (sheet_of excel (r :: rs)))
              = Some 9).
{ unfold first_row, sheet_of. cbn [hd]. apply find_completion_app.
rewrite Hcols. reflexivity. }
assert (Hmax : max_row (sheet_of excel (r :: rs)) = S (length (r :: rs))).
{ unfold max_row. rewrite last_filled_full.
- unfold sheet_of. cbn [length]. rewrite length_map. cbn [length]. lia.
- unfold sheet_of. rewrite Hcols. constructor; [discriminate|].
  apply Forall_forall. intros cells Hin.
  apply in_map_iff in Hin as (r' & <- & _). discriminate.
- discriminate. }
rewrite Hfind, Hmax, colour_rows_column.
cbn [rbind]. f_equal. f_equal.
replace (S (length (r :: rs)) - 1) with (length (r :: rs)) by lia.
assert (Hlen : length (sheet_of excel (r :: rs)) = S (length (r :: rs))).
{ unfold sheet_of. cbn [length]. now rewrite length_map. }
rewrite firstn_all2 by (rewrite length_skipn, Hlen; cbn [length]; lia).
assert (Hskip : skipn (S (length (r :: rs))) (sheet_of excel (r :: rs)) = []).
{ apply skipn_all2. rewrite Hlen. cbn [length]. lia. }
rewrite Hskip.
apply app_nil_r.
Qed.

End ExportOfResults.

(** The export of the rows the main loop has gathered raises only where
    writing the rows or loading the workbook raises: the two loops that
    colour the sheet do not. When the sheet is written and loaded, the
    export changes no value of it, gives no fill to the row of labels, and
    gives each row of a record exactly one fill, on its ninth cell: green
    for a record labelled Completed, red for one labelled Incomplete. (The
    two labels are assumed to come back from the file as they were
    written.) *)
Theorem export_colours_every_record (to_excel : list row -> result unit)
        (excel : pyval -> pyval) (files : list log_file) :
  excel (PyStr (T "Completed")) = PyStr (T "Completed") ->
  excel (PyStr (T "Incomplete")) = PyStr (T "Incomplete") ->
  let rs := results (run_loop files start) in
  match export to_excel excel rs with
  | Raises e => to_excel rs = Raises e
  | Returns ws' =>
      to_excel rs = Returns tt
      /\ List.map (List.map value) ws'
         = List.map (List.map value) (sheet_of excel rs)
      /\ List.map (List.map fill) ws'
         = match rs with
           | [] => []
           | _ :: _ =>
               repeat None 9
               :: List.map
                    (fun r => repeat None 8
                              ++ [Some (if completed r then Green else Red)])
                    rs
           end
  end.
Proof.
  intros Hc Hi rs. pose proof (results_records files) as H. fold rs in H.
  unfold export. destruct (to_excel rs) as [[]|e]; cbn [rbind]; [|reflexivity].
  destruct rs as [|r rs].
  { repeat split; reflexivity. }
  rewrite (coloured_records excel r rs H).
  split; [reflexivity|].
  pose proof (columns_records r rs H) as Hcols.
  unfold sheet_of. rewrite Hcols. clear Hcols.
  remember (r :: rs) as l eqn:El. clear El.
  cbn [firstn skipn app List.map]. split; f_equal.
  - rewrite !map_map. apply map_ext. intros r'. apply paint_values.
  - rewrite !map_map. apply map_ext_in. intros r' Hin.
    rewrite Forall_forall in H.
    apply (painted_record excel Hc Hi r' (H r' Hin)).
Qed.

Lemma export_colours_every_record_witness :
  exists ws',
    export (fun _ => Returns tt) (fun v => v)
      (results
         (run_loop
            [LogFile (T "Water_FF1_631G_HF.log")
               (Returns (T "TOTAL ENERGY = -76.0 EXECUTION OF GAMESS TERMINATED NORMALLY"))
               takes_all;
             LogFile (T "x.log") (Returns []) takes_all]
            start))
    = Returns ws'
    /\ List.map (List.map fill) ws'
       = [repeat None 9; repeat None 8 ++ [Some Green];
          repeat None 8 ++ [Some Red]].
Proof.
  pose proof (export_colours_every_record
                (fun _ => Returns tt) (fun v => v)
                [LogFile (T "Water_FF1_631G_HF.log")
                   (Returns (T "TOTAL ENERGY = -76.0 EXECUTION OF GAMESS TERMINATED NORMALLY"))
                   takes_all;
                 LogFile (T "x.log") (Returns []) takes_all]
                eq_refl eq_refl) as H.
  cbv zeta in H.
  destruct (export _ _ _) as [ws'|e]; [|discriminate H].
  exists ws'. split; [reflexivity|]. exact (proj2 (proj2 H)).
Defined.
